(** * LinkedIn AI Auto Poster: a shallow embedding of [linkedin_post.py]

    The development follows the order of the pipeline in the source file:
    Python strings and slices, the JSON decoder used by the LLM reply parser,
    the candidate search with its de-duplication and fallback catalogue, the
    topic selector, the content generator, the publisher, the history
    recorder and finally [main]. *)

From Stdlib Require Import ZArith NArith List String Ascii Bool Lia.
From stdpp Require Import base decidable countable gmap list.

Local Open Scope Z_scope.

(** ** Python strings

    A Python [str] is a sequence of Unicode code points; a code point is
    kept as its number, so that nothing of the input alphabet is lost. *)

Module Py.

Definition str : Type := list N.

(** The code points of an ASCII literal of the source. *)
Definition lit (s : string) : str := map N_of_ascii (list_ascii_of_string s).

(** [str.isspace] on one code point: the table of CPython's
    [_PyUnicode_IsWhitespace]. *)
Definition isspace (c : N) : bool :=
  ((9 <=? c) && (c <=? 13) || (28 <=? c) && (c <=? 32) ||
   (c =? 133) || (c =? 160) || (c =? 5760) ||
   (8192 <=? c) && (c <=? 8202) || (c =? 8232) || (c =? 8233) ||
   (c =? 8239) || (c =? 8287) || (c =? 12288))%N.

Fixpoint lstrip (s : str) : str :=
  match s with
  | c :: s' => if isspace c then lstrip s' else s
  | [] => []
  end.

Definition rstrip (s : str) : str := rev (lstrip (rev s)).

(** [s.strip()] *)
Definition strip (s : str) : str := rstrip (lstrip s).

(** [s.startswith(p)] *)
Fixpoint startswith (s p : str) {struct p} : bool :=
  match p, s with
  | [], _ => true
  | a :: p', b :: s' => (a =? b)%N && startswith s' p'
  | _ :: _, [] => false
  end.

(** [s.endswith(p)] *)
Definition endswith (s p : str) : bool := startswith (rev s) (rev p).

(** A slice bound, adjusted the way [PySlice_AdjustIndices] does for a
    step of one: a negative bound counts from the end, and the result is
    clamped to [0, len]. *)
Definition adjust (len : Z) (i : Z) : Z :=
  let j := if i <? 0 then i + len else i in
  Z.max 0 (Z.min len j).

Definition bound (len dflt : Z) (i : option Z) : Z :=
  match i with
  | Some i => adjust len i
  | None => dflt
  end.

(** [l[lo:hi]], where an omitted bound is [None]. *)
Definition slice {A} (l : list A) (lo hi : option Z) : list A :=
  let len := Z.of_nat (length l) in
  let a := bound len 0 lo in
  let b := bound len len hi in
  take (Z.to_nat (b - a)) (drop (Z.to_nat a) l).

(** [p in s] for two strings: [p] occurs somewhere in [s]. *)
Fixpoint contains (s p : str) : bool :=
  startswith s p ||
  match s with
  | [] => false
  | _ :: s' => contains s' p
  end.

(** The code points U+D800 to U+DFFF, which no UTF-8 text holds. *)
Definition is_surrogate (c : N) : bool := ((55296 <=? c) && (c <=? 57343))%N.

(** Truth value of a string: the empty string is false. *)
Definition truthy (s : str) : bool :=
  match s with
  | [] => false
  | _ :: _ => true
  end.

(** [str.lower] restricted to what it does on ASCII letters; used where a
    concrete lowering function is needed to run the model. *)
Definition lower_ascii (s : str) : str :=
  map (fun c => if ((65 <=? c) && (c <=? 90))%N then (c + 32)%N else c) s.

End Py.

Import Py.

(** ** Candidates and the fallback catalogue *)

(** One search result, the dict built in [search_trending_topics].  The
    text of a [source] or [pubDate] element may be absent ([None]). *)
Record candidate : Type := Candidate {
  title : str;
  body : str;
  source : option str;
  date : option str
}.

#[global] Instance candidate_eq_dec : EqDecision candidate.
Proof. solve_decision. Defined.

Definition get_fallback_topics : list candidate :=
  [ Candidate (lit "Kotlin 2.0 and the future of Android development")
      (lit "Kotlin 2.0 brings major improvements to the language including better performance and new features")
      (Some (lit "Android Weekly")) (Some (lit "recent"));
    Candidate (lit "Jetpack Compose performance optimization techniques")
      (lit "Best practices for building smooth 60fps UIs with Compose including recomposition optimization")
      (Some (lit "Android Developers Blog")) (Some (lit "recent"));
    Candidate (lit "Android 15 new features for developers")
      (lit "Latest Android version brings new APIs and capabilities for app developers")
      (Some (lit "Google")) (Some (lit "recent"));
    Candidate (lit "Health Connect SDK integration patterns")
      (lit "Building health and fitness apps with Google Health Connect SDK best practices")
      (Some (lit "Android Health")) (Some (lit "recent"));
    Candidate (lit "Modern Android app architecture with MVI pattern")
      (lit "Moving beyond MVVM to Model-View-Intent for better state management")
      (Some (lit "ProAndroidDev")) (Some (lit "recent")) ].

(** ** Search: de-duplication, fallback and the limit of five

    The feed loop of [search_trending_topics] only fills [all_results];
    the function is modelled from that list on.  [str.lower] is a builtin
    whose full Unicode table is not reproduced: the stage is stated for an
    arbitrary lowering function. *)

Section Search.

Variable lower : str -> str.

(** The state of the de-duplication loop. *)
Record dedup_state : Type := DedupState {
  seen_titles : gset str;
  unique_results : list candidate
}.

(** One iteration of [for r in all_results]. *)
Definition dedup_step (st : dedup_state) (r : candidate) : dedup_state :=
  let title_lower := lower (title r) in
  if bool_decide (title_lower ∉ seen_titles st) && truthy (title r)
  then DedupState ({[title_lower]} ∪ seen_titles st) (unique_results st ++ [r])
  else st.

Definition dedup_loop (all_results : list candidate) : dedup_state :=
  fold_left dedup_step all_results (DedupState ∅ []).

Definition search_trending_topics (all_results : list candidate) : list candidate :=
  let unique := unique_results (dedup_loop all_results) in
  let unique := match unique with [] => get_fallback_topics | _ :: _ => unique end in
  slice unique None (Some 5).

End Search.

(** ** Exceptions and outcomes

    A Python call either returns a value or raises.  [OutOfFuel] is not a
    Python exception: it marks a decoder run that used up the fuel of the
    model, which [json_loads_fuel_free] below shows never to happen. *)

Inductive exn : Type :=
  | JSONDecodeError
  | RecursionError
  | ValueError
  | UnicodeEncodeError
  | TypeError
  | KeyError
  | IndexError
  | AttributeError
  | GroqApiError
  | RequestError
  | OutOfFuel.

#[global] Instance exn_eq_dec : EqDecision exn.
Proof. solve_decision. Defined.

Inductive outcome (A : Type) : Type :=
  | Return (a : A)
  | Raise (e : exn).

Arguments Return {A} a.
Arguments Raise {A} e.

Definition bind {A B} (m : outcome A) (k : A -> outcome B) : outcome B :=
  match m with
  | Return a => k a
  | Raise e => Raise e
  end.

Notation "'let!' x ':=' m 'in' k" := (bind m (fun x => k))
  (at level 10, x name, m at level 100, k at level 200).

(** ** Standard output

    [print] writes to a text stream that encodes with UTF-8 and the
    strict error handler, as CPython sets it up under a UTF-8 locale: the
    write raises UnicodeEncodeError on a surrogate and accepts every other
    code point.  The literal texts of the source hold none, so that only
    the calls that print a run-time text are modelled, and of these the
    ones whose text comes from the LLM: a response text is decoded with
    replacement characters, a header value as Latin-1, a feed text is XML
    character data, and the message of an exception escapes them. *)
Definition print (text : str) : outcome unit :=
  if existsb is_surrogate text then Raise UnicodeEncodeError else Return tt.

(** ** The interpreter

    Two settings of the interpreter bear on [json.loads].  The first is
    the recursion limit: [recursion_remaining] counts the nested calls
    that are still allowed where the scanner starts, beyond the three
    that it takes to build a JSONDecodeError there.  The selector calls
    the decoder after the completion request has returned, and that
    request nests deeper than the decoder's own frames, so that the three
    are always there.  The second is the number of digits that
    [sys.get_int_max_str_digits] allows in a decimal integer, [0] for no
    limit. *)
Record interpreter : Type := Interpreter {
  recursion_remaining : nat;
  int_max_str_digits : N
}.

(** ** JSON values and the decoder of [json.loads]

    The decoder follows the scanner of CPython 3.11 ([scan_once],
    [scanstring], [_match_number], the object and array loops), with what
    makes it raise something else than JSONDecodeError: the recursion
    check on entering an array or an object, the nested calls that the
    scanner needs to build a JSONDecodeError where it finds the error,
    and the digit limit of the integer conversion.  A float keeps its
    lexeme, a dict is an association list in insertion order with unique
    keys. *)

Module Json.

#[warnings="-register-all"]
Inductive json : Type :=
  | JNull
  | JBool (b : bool)
  | JInt (z : Z)
  | JFloat (lexeme : str)
  | JString (s : str)
  | JArray (items : list json)
  | JObject (members : list (str * json)).

(** [d.get(k)] *)
Fixpoint dict_get (d : list (str * json)) (k : str) : option json :=
  match d with
  | [] => None
  | (k', v) :: d' => if bool_decide (k' = k) then Some v else dict_get d' k
  end.

(** [d[k] = v]: an existing key keeps its place, a new key goes last. *)
Fixpoint dict_set (d : list (str * json)) (k : str) (v : json) : list (str * json) :=
  match d with
  | [] => [(k, v)]
  | (k', v') :: d' =>
      if bool_decide (k' = k) then (k', v) :: d' else (k', v') :: dict_set d' k v
  end.

Definition dict_of_pairs (ps : list (str * json)) : list (str * json) :=
  fold_left (fun d kv => dict_set d kv.1 kv.2) ps [].

Definition ch (a : ascii) : N := N_of_ascii a.
Definition QUOTE : N := 34.
Definition BACKSLASH : N := 92.
Definition BOM : N := 65279.

(** [IS_WHITESPACE]: space, tab, line feed, carriage return. *)
Definition is_ws (c : N) : bool :=
  ((c =? 32) || (c =? 9) || (c =? 10) || (c =? 13))%N.

Fixpoint skip_ws (s : str) : str :=
  match s with
  | c :: s' => if is_ws c then skip_ws s' else s
  | [] => []
  end.

Definition is_digit (c : N) : bool := ((48 <=? c) && (c <=? 57))%N.

Definition hexval (c : N) : option N :=
  if is_digit c then Some (c - 48)%N
  else if ((97 <=? c) && (c <=? 102))%N then Some (c - 87)%N
  else if ((65 <=? c) && (c <=? 70))%N then Some (c - 55)%N
  else None.

Definition hex4 (a b c d : N) : option N :=
  match hexval a, hexval b, hexval c, hexval d with
  | Some x, Some y, Some z, Some w => Some (((x * 16 + y) * 16 + z) * 16 + w)%N
  | _, _, _, _ => None
  end.

Definition is_high_surrogate (c : N) : bool := ((55296 <=? c) && (c <=? 56319))%N.
Definition is_low_surrogate (c : N) : bool := ((56320 <=? c) && (c <=? 57343))%N.
Definition join_surrogates (hi lo : N) : N :=
  (65536 + (hi - 55296) * 1024 + (lo - 56320))%N.

(** The character named by a one-letter escape. *)
Definition unescape (c : N) : option N :=
  if (c =? QUOTE)%N then Some QUOTE
  else if (c =? BACKSLASH)%N then Some BACKSLASH
  else if (c =? ch "/")%N then Some (ch "/")
  else if (c =? ch "b")%N then Some 8%N
  else if (c =? ch "f")%N then Some 12%N
  else if (c =? ch "n")%N then Some 10%N
  else if (c =? ch "r")%N then Some 13%N
  else if (c =? ch "t")%N then Some 9%N
  else None.

(** The low half of a surrogate pair written as a second [\uXXXX]. *)
Definition low_escape (s : str) : option (N * str) :=
  match s with
  | b :: u :: g1 :: g2 :: g3 :: g4 :: r =>
      if ((b =? BACKSLASH) && (u =? ch "u"))%N then
        match hex4 g1 g2 g3 g4 with
        | Some lo => if is_low_surrogate lo then Some (lo, r) else None
        | None => None
        end
      else None
  | _ => None
  end.

(** [scanstring] in strict mode, from just after the opening quote;
    [acc] holds the decoded characters, last first. *)
Fixpoint scanstring (s : str) (acc : str) : option (str * str) :=
  match s with
  | [] => None
  | c :: r =>
      if (c =? QUOTE)%N then Some (rev acc, r)
      else if (c =? BACKSLASH)%N then
        match r with
        | [] => None
        | e :: r1 =>
            if (e =? ch "u")%N then
              match r1 with
              | h1 :: h2 :: h3 :: h4 :: r2 =>
                  match hex4 h1 h2 h3 h4 with
                  | None => None
                  | Some u =>
                      match r2 with
                      | _ :: _ :: _ :: _ :: _ :: _ :: r3 =>
                          if is_high_surrogate u then
                            match low_escape r2 with
                            | Some (lo, _) => scanstring r3 (join_surrogates u lo :: acc)
                            | None => scanstring r2 (u :: acc)
                            end
                          else scanstring r2 (u :: acc)
                      | _ => scanstring r2 (u :: acc)
                      end
                  end
              | _ => None
              end
            else
              match unescape e with
              | Some x => scanstring r1 (x :: acc)
              | None => None
              end
        end
      else if (c <=? 31)%N then None
      else scanstring r (c :: acc)
  end.

(** The longest prefix of decimal digits, and what follows it. *)
Fixpoint span_digits (s : str) : str * str :=
  match s with
  | c :: r => if is_digit c then let (ds, r') := span_digits r in (c :: ds, r') else ([], s)
  | [] => ([], [])
  end.

Definition Z_of_digits (ds : str) : Z :=
  fold_left (fun acc c => 10 * acc + Z.of_N (c - 48)) ds 0.

(** One optional character satisfying [P], and what follows it. *)
Definition opt_char (P : N -> bool) (s : str) : str * str :=
  match s with
  | c :: r => if P c then ([c], r) else ([], s)
  | [] => ([], s)
  end.

(** The integer part: [0], or a non-zero digit and more digits. *)
Definition int_part (s : str) : option (str * str) :=
  match s with
  | c :: r =>
      if (c =? 48)%N then Some ([c], r)
      else if is_digit c then let (ds, r') := span_digits r in Some (c :: ds, r')
      else None
  | [] => None
  end.

(** The fraction: a dot and at least one digit, or nothing. *)
Definition frac_part (s : str) : str * str :=
  match s with
  | d :: c :: r =>
      if ((d =? ch ".")%N && is_digit c)
      then let (ds, r') := span_digits r in (d :: c :: ds, r')
      else ([], s)
  | _ => ([], s)
  end.

(** The exponent: [e] or [E], an optional sign and at least one digit, or
    nothing (the scanner backtracks). *)
Definition exp_part (s : str) : str * str :=
  match s with
  | e :: r =>
      if ((e =? ch "e") || (e =? ch "E"))%N then
        let (sign, r1) := opt_char (fun g => (g =? ch "+") || (g =? ch "-"))%N r in
        match span_digits r1 with
        | ([], _) => ([], s)
        | (ds, r2) => (e :: sign ++ ds, r2)
        end
      else ([], s)
  | [] => ([], s)
  end.

(** The result of a scan: a value and the text after it, a refusal
    (JSONDecodeError), another exception, or no fuel left. *)
Inductive scan (A : Type) : Type :=
  | Parsed (a : A) (rest : str)
  | Invalid
  | NoFuel
  | Stopped (e : exn).

Arguments Parsed {A} a rest.
Arguments Invalid {A}.
Arguments NoFuel {A}.
Arguments Stopped {A} e.

(** The check of the integer conversion on a text of decimal digits: it
    is made on more than 640 digits only, and fails on more than the
    limit when there is one. *)
Definition exceeds_digits (limit : N) (digits : str) : bool :=
  let n := N.of_nat (length digits) in
  ((640 <? n) && (0 <? limit) && (limit <? n))%N.

(** A refusal found by the scanner itself, with [depth] nested calls
    left: the JSONDecodeError is built on the spot, by a call of the
    class, of its [__init__] and of the one of its base class. *)
Definition refuse (depth : nat) : scan json :=
  match depth with
  | S (S (S _)) => Invalid
  | _ => Stopped RecursionError
  end.

Section Decoder.

Variable py : interpreter.

(** [_match_number]: the lexeme is split off, an integer is evaluated. *)
Definition match_number (s : str) : scan json :=
  let (sign, s1) := opt_char (fun c => c =? ch "-")%N s in
  match int_part s1 with
  | None => Invalid
  | Some (ip, r1) =>
      let (fp, r2) := frac_part r1 in
      let (ep, r3) := exp_part r2 in
      match fp, ep with
      | [], [] =>
          if exceeds_digits (int_max_str_digits py) ip then Stopped ValueError
          else
            Parsed (JInt (match sign with [] => Z_of_digits ip | _ :: _ => - Z_of_digits ip end)) r3
      | _, _ => Parsed (JFloat (sign ++ ip ++ fp ++ ep)) r3
      end
  end.

(** [scan_once] with the array and object loops; [n] is the fuel of the
    model, [depth] the number of nested calls that are left: entering an
    array or an object takes one.  Where no value starts the scanner
    raises StopIteration, which the decoder turns into a JSONDecodeError
    once the scanner has returned; every other refusal is built in the
    scanner ([refuse]). *)
Fixpoint scan_once (n depth : nat) (s : str) {struct n} : scan json :=
  match n with
  | O => NoFuel
  | S n =>
      match s with
      | [] => Invalid
      | c :: r =>
          if (c =? QUOTE)%N then
            match scanstring r [] with
            | Some (k, r') => Parsed (JString k) r'
            | None => refuse depth
            end
          else if (c =? ch "{")%N then
            match depth with
            | O => Stopped RecursionError
            | S depth =>
                match skip_ws r with
                | [] => refuse depth
                | c' :: r' =>
                    if (c' =? ch "}")%N then Parsed (JObject []) r'
                    else parse_members n depth (c' :: r') []
                end
            end
          else if (c =? ch "[")%N then
            match depth with
            | O => Stopped RecursionError
            | S depth =>
                match skip_ws r with
                | [] => Invalid
                | c' :: r' =>
                    if (c' =? ch "]")%N then Parsed (JArray []) r'
                    else parse_elems n depth (c' :: r') []
                end
            end
          else if startswith s (lit "null") then Parsed JNull (drop 4 s)
          else if startswith s (lit "true") then Parsed (JBool true) (drop 4 s)
          else if startswith s (lit "false") then Parsed (JBool false) (drop 5 s)
          else if startswith s (lit "NaN") then Parsed (JFloat (lit "NaN")) (drop 3 s)
          else if startswith s (lit "Infinity") then Parsed (JFloat (lit "Infinity")) (drop 8 s)
          else if startswith s (lit "-Infinity") then Parsed (JFloat (lit "-Infinity")) (drop 9 s)
          else match_number s
      end
  end
with parse_elems (n depth : nat) (s : str) (acc : list json) {struct n} : scan json :=
  match n with
  | O => NoFuel
  | S n =>
      match scan_once n depth s with
      | Parsed v r =>
          match skip_ws r with
          | [] => refuse depth
          | c :: r' =>
              if (c =? ch "]")%N then Parsed (JArray (rev (v :: acc))) r'
              else if (c =? ch ",")%N then parse_elems n depth (skip_ws r') (v :: acc)
              else refuse depth
          end
      | Invalid => Invalid
      | NoFuel => NoFuel
      | Stopped x => Stopped x
      end
  end
with parse_members (n depth : nat) (s : str) (acc : list (str * json)) {struct n} : scan json :=
  match n with
  | O => NoFuel
  | S n =>
      match s with
      | [] => refuse depth
      | q :: r =>
          if (q =? QUOTE)%N then
            match scanstring r [] with
            | None => refuse depth
            | Some (k, r1) =>
                match skip_ws r1 with
                | [] => refuse depth
                | c :: r2 =>
                    if (c =? ch ":")%N then
                      match scan_once n depth (skip_ws r2) with
                      | Parsed v r3 =>
                          match skip_ws r3 with
                          | [] => refuse depth
                          | c' :: r4 =>
                              if (c' =? ch "}")%N
                              then Parsed (JObject (dict_of_pairs (rev ((k, v) :: acc)))) r4
                              else if (c' =? ch ",")%N
                              then parse_members n depth (skip_ws r4) ((k, v) :: acc)
                              else refuse depth
                          end
                      | Invalid => Invalid
                      | NoFuel => NoFuel
                      | Stopped x => Stopped x
                      end
                    else refuse depth
                end
            end
          else refuse depth
      end
  end.

(** [JSONDecoder.decode]: leading white space, one value, trailing white
    space, and nothing else. *)
Definition decode (n : nat) (s : str) : outcome json :=
  match scan_once n (recursion_remaining py + 3) (skip_ws s) with
  | Parsed v r =>
      match skip_ws r with
      | [] => Return v
      | _ :: _ => Raise JSONDecodeError
      end
  | Invalid => Raise JSONDecodeError
  | NoFuel => Raise OutOfFuel
  | Stopped x => Raise x
  end.

(** [json.loads] on a [str]: a leading byte order mark is refused. *)
Definition json_loads (s : str) : outcome json :=
  if startswith s [BOM] then Raise JSONDecodeError
  else decode (2 * length s + 1) s.

End Decoder.

(** The value of an exponent: the digits after [e] and the sign. *)
Definition exp_value (ep : str) : Z :=
  match ep with
  | [] => 0
  | _ :: r =>
      let (sign, ds) := opt_char (fun g => (g =? ch "+") || (g =? ch "-"))%N r in
      if startswith sign [ch "-"] then - Z_of_digits ds else Z_of_digits ds
  end.

(** Whether the float written [lexeme] is zero.  The conversion rounds
    to the nearest double, ties to even: a decimal [m * 10 ^ x] other than
    zero becomes zero exactly when it is at most [2 ^ -1075], half the
    least positive double.  [NaN] and the infinities are not zero. *)
Definition float_is_zero (lexeme : str) : bool :=
  let (_, s1) := opt_char (fun c => c =? ch "-")%N lexeme in
  match int_part s1 with
  | None => false
  | Some (ip, r1) =>
      let (fp, r2) := frac_part r1 in
      let (ep, _) := exp_part r2 in
      let m := Z_of_digits (ip ++ drop 1 fp) in
      let x := exp_value ep - Z.of_nat (length (drop 1 fp)) in
      (m =? 0) || ((x <? 0) && (m * 2 ^ 1075 <=? 10 ^ (- x)))
  end.

(** The truth value of a decoded value. *)
Definition json_truthy (v : json) : bool :=
  match v with
  | JNull => false
  | JBool b => b
  | JInt z => negb (z =? 0)
  | JFloat lexeme => negb (float_is_zero lexeme)
  | JString s => truthy s
  | JArray items => match items with [] => false | _ :: _ => true end
  | JObject members => match members with [] => false | _ :: _ => true end
  end.

End Json.

Import Json.

(** ** Subscripts and slices on decoded values *)

(** [v[k]] for a string key [k]: only a dict accepts it. *)
Definition getitem_str (v : json) (k : str) : outcome json :=
  match v with
  | JObject d =>
      match dict_get d k with
      | Some x => Return x
      | None => Raise KeyError
      end
  | _ => Raise TypeError
  end.

(** [v[0]]: the first item of a list or string; a dict has no integer
    key, since every key of a decoded object is a string. *)
Definition getitem_0 (v : json) : outcome json :=
  match v with
  | JArray (x :: _) => Return x
  | JArray [] => Raise IndexError
  | JString (c :: _) => Return (JString [c])
  | JString [] => Raise IndexError
  | JObject _ => Raise KeyError
  | _ => Raise TypeError
  end.

(** [v[:n]]: strings and lists can be sliced.  A dict refuses the slice
    as a key (TypeError, unhashable, up to CPython 3.11); numbers, booleans
    and [None] are not subscriptable. *)
Definition slice_to (v : json) (n : Z) : outcome json :=
  match v with
  | JString s => Return (JString (slice s None (Some n)))
  | JArray l => Return (JArray (slice l None (Some n)))
  | _ => Raise TypeError
  end.

(** [v.get(k)]: of the decoded values only a dict has the method. *)
Definition get_str (v : json) (k : str) : outcome (option json) :=
  match v with
  | JObject d => Return (dict_get d k)
  | _ => Raise AttributeError
  end.

(** [k in v] for a string [k]: a key of a dict, an item of a list, a
    part of a string; numbers, booleans and [None] are not iterable. *)
Definition json_in (k : str) (v : json) : outcome bool :=
  match v with
  | JObject d => Return (bool_decide (is_Some (dict_get d k)))
  | JArray items =>
      Return (existsb (fun x => match x with
                                | JString s => bool_decide (s = k)
                                | _ => false
                                end) items)
  | JString s => Return (contains s k)
  | _ => Raise TypeError
  end.

(** [print(f"...{v}...")] with literal text around [v]: a string is
    rendered as itself; any other value is rendered by [repr], which
    escapes the surrogates. *)
Definition print_value (v : json) : outcome unit :=
  match v with
  | JString s => print s
  | _ => Return tt
  end.

(** [try: m except e: h] *)
Definition try_except {A} (m : outcome A) (e : exn) (h : outcome A) : outcome A :=
  match m with
  | Return a => Return a
  | Raise e' => if bool_decide (e' = e) then h else Raise e'
  end.

(** ** The feed loop of the search

    The first part of [search_trending_topics]: one request per query,
    three items at most per answer.  The feed is an oracle from the query
    to the outcome of the request. *)

Definition SEARCH_QUERIES : list str :=
  [ lit "Android development trends 2025";
    lit "Kotlin new features latest";
    lit "Jetpack Compose updates";
    lit "Android developer tips";
    lit "Mobile app development trends" ].

(** An [item] element by what [item.find] and [.text] give on it: a child
    element may be absent, and a present one may have no text. *)
Record rss_item : Type := RssItem {
  item_title : option (option str);
  item_description : option (option str);
  item_pubDate : option (option str);
  item_source : option (option str)
}.

(** The answer to one request: its status and the items of the parsed
    content, or the exception of the XML parser. *)
Record feed_response : Type := FeedResponse {
  feed_status : Z;
  feed_items : outcome (list rss_item)
}.

(** The dict appended for one item, if it has a title element. *)
Definition item_candidate (item : rss_item) : list candidate :=
  match item_title item with
  | None => []
  | Some title_text =>
      [ Candidate
          (default [] title_text)
          (match item_description item with
           | Some description_text => slice (default [] description_text) None (Some 200)
           | None => []
           end)
          (match item_source item with
           | Some source_text => source_text
           | None => Some (lit "Google News")
           end)
          (match item_pubDate item with
           | Some date_text => date_text
           | None => Some (lit "recent")
           end) ]
  end.

(** The body of the [try] for one query; any exception leaves
    [all_results] as it was. *)
Definition query_results (answer : outcome feed_response) : list candidate :=
  match answer with
  | Return response =>
      if feed_status response =? 200 then
        match feed_items response with
        | Return items => flat_map item_candidate (slice items None (Some 3))
        | Raise _ => []
        end
      else []
  | Raise _ => []
  end.

Definition collect_results (feed : str -> outcome feed_response) : list candidate :=
  fold_left (fun all_results query => all_results ++ query_results (feed query))
    (slice SEARCH_QUERIES None (Some 3)) [].

(** The whole of [search_trending_topics], as a function of the feed. *)
Definition search_feed (lower : str -> str) (feed : str -> outcome feed_response)
    : list candidate :=
  search_trending_topics lower (collect_results feed).

(** ** The world outside the program *)

(** What the program reads off a [requests] response. *)
Record http_response : Type := HttpResponse {
  status_code : Z;
  text : str;
  headers_get : str -> option str;
  json_body : outcome json
}.

(** The two prompts, kept by what is rendered into their templates. *)
Inductive prompt : Type :=
  | TopicPickerPrompt (topics : list candidate)
  | PostGeneratorPrompt (topic angle post_type : json).

(** A JSON file on disk as [load_json_file] sees it: not there, there
    but such that opening or decoding it raises, or holding a value. *)
Inductive file (A : Type) : Type :=
  | Missing
  | Unreadable (x : exn)
  | Stored (data : A).

Arguments Missing {A}.
Arguments Unreadable {A} x.
Arguments Stored {A} data.

(** Everything a run reads from outside: environment variables, the token
    file, the news feed, the three HTTP endpoints (the identity lookup and
    the publish request by the values rendered into their header and
    payload), the clock, and the two builtins ([str.lower], [format])
    whose tables are not reproduced. *)
Record env : Type := Env {
  GROQ_API_KEY : option str;
  LINKEDIN_ACCESS_TOKEN : option str;
  LINKEDIN_PERSON_URN : option str;
  LINKEDIN_TOKEN_FILE : file json;
  feed_endpoint : str -> outcome feed_response;
  groq_endpoint : prompt -> outcome http_response;
  userinfo_endpoint : json -> outcome http_response;
  ugc_endpoint : json -> json -> str -> outcome http_response;
  now_isoformat : str;
  str_lower : str -> str;
  format_value : json -> str
}.

Inductive event : Type :=
  | FeedGet (query : str)
  | GroqPost (p : prompt)
  | UserinfoGet (access_token : json)
  | UgcPost (access_token author : json) (text : str)
  | HistoryWrite (data : json).

(** What a run can change: the history file, and the list of requests and
    writes it has issued, oldest first. *)
Record world : Type := World {
  POST_HISTORY_FILE : file json;
  trace : list event
}.

Definition M (A : Type) : Type := world -> outcome A * world.

Definition ret {A} (a : A) : M A := fun w => (Return a, w).

Definition raise {A} (e : exn) : M A := fun w => (Raise e, w).

Definition lift {A} (m : outcome A) : M A := fun w => (m, w).

Definition mbind' {A B} (m : M A) (k : A -> M B) : M B :=
  fun w =>
    match m w with
    | (Return a, w') => k a w'
    | (Raise e, w') => (Raise e, w')
    end.

Notation "'do!' x ':=' m 'in' k" := (mbind' m (fun x => k))
  (at level 10, x name, m at level 100, k at level 200).

Definition emit (ev : event) : M unit :=
  fun w => (Return tt, World (POST_HISTORY_FILE w) (trace w ++ [ev])).

(** [try: m except Exception: ...], with a handler that prints the
    exception and the traceback. *)
Definition try_any (m : M unit) : M unit :=
  fun w =>
    match m w with
    | (Return a, w') => (Return a, w')
    | (Raise _, w') => (Return tt, w')
    end.

(** ** The pipeline *)

Definition load_json_file {A} (empty : A) (f : file A) : outcome A :=
  match f with
  | Missing => Return empty
  | Unreadable x => Raise x
  | Stored data => Return data
  end.

Definition opt_truthy (o : option str) : bool :=
  match o with
  | Some s => truthy s
  | None => false
  end.

(** The truth value of what [dict.get] returned. *)
Definition opt_json_truthy (o : option json) : bool :=
  match o with
  | Some v => json_truthy v
  | None => false
  end.

(** The published result dict. *)
Record publish_result : Type := PublishResult {
  success : bool;
  post_id : option str;
  error : option str
}.

Section Pipeline.

Variable py : interpreter.
Variable e : env.

(** The feed loop, request by request. *)
Definition feed_loop : M (list candidate) :=
  fold_left
    (fun loop query =>
       do! all_results := loop in
       do! _ := emit (FeedGet query) in
       ret (all_results ++ query_results (feed_endpoint e query)))
    (slice SEARCH_QUERIES None (Some 3)) (ret []).

Definition call_groq_api (p : prompt) : M json :=
  do! _ := emit (GroqPost p) in
  do! response := lift (groq_endpoint e p) in
  if status_code response =? 200 then
    lift (let! body := json_body response in
          let! choices := getitem_str body (lit "choices") in
          let! choice := getitem_0 choices in
          let! message := getitem_str choice (lit "message") in
          getitem_str message (lit "content"))
  else raise GroqApiError.

(** [response.strip()] needs a string. *)
Definition as_str (v : json) : outcome str :=
  match v with
  | JString s => Return s
  | _ => Raise AttributeError
  end.

(** The fence removal at the head of the [try] block. *)
Definition strip_fences (response : str) : str :=
  let response := strip response in
  let response :=
    if startswith response (lit "```json") then slice response (Some 7) None else response in
  let response :=
    if startswith response (lit "```") then slice response (Some 3) None else response in
  let response :=
    if endswith response (lit "```") then slice response None (Some (-3)) else response in
  response.

Definition fallback_decision (topics : list candidate) : outcome json :=
  match topics with
  | t :: _ =>
      Return (JObject
        [ (lit "selected_topic", JString (title t));
          (lit "why_selected", JString (lit "First trending topic"));
          (lit "post_angle", JString (lit "Share thoughts on this trend"));
          (lit "post_type", JString (lit "trend_analysis")) ])
  | [] => Raise IndexError
  end.

(** The [try] block of [pick_best_topic] with its handler, as a function
    of the reply of the LLM. *)
Definition parse_decision (topics : list candidate) (response : json) : outcome json :=
  try_except
    (let! response := as_str response in
     let response := strip_fences response in
     let! result := json_loads py (strip response) in
     let! selected := getitem_str result (lit "selected_topic") in
     let! shown := slice_to selected 50 in
     let! _ := print_value shown in
     let! angle := getitem_str result (lit "post_angle") in
     let! _ := print_value angle in
     Return result)
    JSONDecodeError
    (fallback_decision topics).

Definition pick_best_topic (topics : list candidate) : M json :=
  do! response := call_groq_api (TopicPickerPrompt topics) in
  lift (parse_decision topics response).

(** The clean-up of the generated post. *)
Definition clean_post (post_content : str) : str :=
  let post_content := strip post_content in
  if startswith post_content [QUOTE] && endswith post_content [QUOTE]
  then slice post_content (Some 1) (Some (-1))
  else post_content.

(** The preview that [generate_post] prints. *)
Definition post_preview (post_content : str) : str :=
  if 300 <? Z.of_nat (length post_content)
  then slice post_content None (Some 300) ++ lit "..."
  else post_content.

Definition generate_post (topic_data : json) : M str :=
  do! topic := lift (getitem_str topic_data (lit "selected_topic")) in
  do! angle := lift (getitem_str topic_data (lit "post_angle")) in
  do! post_type := lift (getitem_str topic_data (lit "post_type")) in
  do! post_content := call_groq_api (PostGeneratorPrompt topic angle post_type) in
  do! post_content := lift (as_str post_content) in
  let post_content := clean_post post_content in
  do! _ := lift (print (post_preview post_content)) in
  ret post_content.

Definition load_linkedin_tokens : outcome json :=
  match LINKEDIN_ACCESS_TOKEN e, LINKEDIN_PERSON_URN e with
  | Some access_token, Some person_urn =>
      if truthy access_token && truthy person_urn
      then Return (JObject [ (lit "access_token", JString access_token);
                             (lit "person_urn", JString person_urn) ])
      else load_json_file (JObject []) (LINKEDIN_TOKEN_FILE e)
  | _, _ => load_json_file (JObject []) (LINKEDIN_TOKEN_FILE e)
  end.

(** [not tokens or "access_token" not in tokens] *)
Definition no_tokens (tokens : json) : outcome bool :=
  if negb (json_truthy tokens) then Return true
  else let! found := json_in (lit "access_token") tokens in Return (negb found).

(** [person_urn], looked up from the token when the store has none;
    [None] stands for the early return on a failed lookup. *)
Definition resolve_person_urn (tokens access_token : json) : M (option json) :=
  do! person_urn := lift (get_str tokens (lit "person_urn")) in
  if opt_json_truthy person_urn then ret person_urn
  else
    do! _ := emit (UserinfoGet access_token) in
    do! response := lift (userinfo_endpoint e access_token) in
    if status_code response =? 200 then
      do! user_info := lift (json_body response) in
      do! sub := lift (getitem_str user_info (lit "sub")) in
      ret (Some (JString (lit "urn:li:person:" ++ format_value e sub)))
    else ret None.

Definition post_to_linkedin (post_content : str) : M publish_result :=
  do! tokens := lift load_linkedin_tokens in
  do! missing := lift (no_tokens tokens) in
  if missing then ret (PublishResult false None (Some (lit "No tokens")))
  else
    do! access_token := lift (getitem_str tokens (lit "access_token")) in
    do! person_urn := resolve_person_urn tokens access_token in
    match person_urn with
    | None => ret (PublishResult false None (Some (lit "Failed to get user URN")))
    | Some person_urn =>
        do! _ := emit (UgcPost access_token person_urn post_content) in
        do! response := lift (ugc_endpoint e access_token person_urn post_content) in
        if status_code response =? 201 then
          let post_id := default (lit "Unknown") (headers_get response (lit "x-restli-id")) in
          ret (PublishResult true (Some post_id) None)
        else ret (PublishResult false None (Some (text response)))
    end.

Definition history_entry (topic : json) (post_content post_id : str) : json :=
  JObject
    [ (lit "date", JString (now_isoformat e));
      (lit "topic", topic);
      (lit "post_preview", JString (slice post_content None (Some 100) ++ lit "..."));
      (lit "post_id", JString post_id) ].

(** The update of the loaded history.  Anything but a dict fails on the
    membership test or on the subscript with a TypeError; a ["posts"]
    value that is not a list has no [append]. *)
Definition updated_history (history entry : json) : outcome json :=
  match history with
  | JObject d =>
      let d := match dict_get d (lit "posts") with
               | None => dict_set d (lit "posts") (JArray [])
               | Some _ => d
               end in
      match dict_get d (lit "posts") with
      | Some (JArray posts) =>
          Return (JObject (dict_set d (lit "posts")
                    (JArray (slice (posts ++ [entry]) (Some (-50)) None))))
      | Some _ => Raise AttributeError
      | None => Raise KeyError
      end
  | _ => Raise TypeError
  end.

Definition save_json_file (data : json) : M unit :=
  fun w => (Return tt, World (Stored data) (trace w ++ [HistoryWrite data])).

Definition save_to_history (topic : json) (post_content post_id : str) : M unit :=
  do! history := (fun w => (load_json_file (JObject []) (POST_HISTORY_FILE w), w)) in
  do! history := lift (updated_history history (history_entry topic post_content post_id)) in
  save_json_file history.

Definition main (dry_run : bool) : M unit :=
  if negb (opt_truthy (GROQ_API_KEY e)) then ret tt
  else
    do! tokens := lift load_linkedin_tokens in
    do! missing := lift (no_tokens tokens) in
    if missing then ret tt
    else
      try_any
        (do! all_results := feed_loop in
         let topics := search_trending_topics (str_lower e) all_results in
         match topics with
         | [] => ret tt
         | _ :: _ =>
             do! topic_data := pick_best_topic topics in
             do! post_content := generate_post topic_data in
             if dry_run then lift (print post_content)
             else
               do! result := post_to_linkedin post_content in
               if success result then
                 do! topic := lift (getitem_str topic_data (lit "selected_topic")) in
                 save_to_history topic post_content (default (lit "unknown") (post_id result))
               else ret tt
         end).

End Pipeline.

(** ** Specification-side definitions *)

(** A request that adds nothing to [all_results]: it raised, was
    answered with a status other than 200, or its content did not parse. *)
Definition query_failed (answer : outcome feed_response) : Prop :=
  match answer with
  | Return response =>
      feed_status response <> 200 \/ exists x, feed_items response = Raise x
  | Raise _ => True
  end.



(** The de-duplication as the specification words it: a record is kept
    when its title is not empty and no earlier record of the input with a
    non-empty title has the same lower-cased title. *)
Section FirstOccurrences.

Variable lower : str -> str.

Definition title_key (r : candidate) : str := lower (title r).

Definition titled (l : list candidate) : list candidate :=
  filter (fun r => title r <> []) l.

Definition is_first (pre : list candidate) (r : candidate) : bool :=
  truthy (title r) && bool_decide (title_key r ∉ map title_key (titled pre)).

Fixpoint first_from (pre l : list candidate) : list candidate :=
  match l with
  | [] => []
  | r :: l' => (if is_first pre r then [r] else []) ++ first_from (pre ++ [r]) l'
  end.

Definition first_occurrences (l : list candidate) : list candidate := first_from [] l.

End FirstOccurrences.

(** The sequence of entries a history file stands for: a missing file
    and a dict without ["posts"] hold none; a file that is corrupt, is not
    a dict, or has a ["posts"] that is not a list stands for no sequence. *)
Definition history_posts (f : file json) : option (list json) :=
  match f with
  | Missing => Some []
  | Stored (JObject d) =>
      match dict_get d (lit "posts") with
      | None => Some []
      | Some (JArray posts) => Some posts
      | Some _ => None
      end
  | _ => None
  end.

(** White space only. *)
Definition all_space (ws : str) : Prop := Forall (fun c => isspace c = true) ws.

(** A text with a first and a last character, neither of them white. *)
Definition tight (s : str) : Prop :=
  (exists c, head s = Some c /\ isspace c = false) /\
  (exists c, last s = Some c /\ isspace c = false).

Definition is_history_write (ev : event) : bool :=
  match ev with
  | HistoryWrite _ => true
  | _ => false
  end.

Definition is_ugc_post (ev : event) : bool :=
  match ev with
  | UgcPost _ _ _ => true
  | _ => false
  end.

(** [w'] differs from [w] by more events, each satisfying [P], and has
    the same history file. *)
Definition extends (P : event -> Prop) (w w' : world) : Prop :=
  POST_HISTORY_FILE w' = POST_HISTORY_FILE w /\
  exists evs, trace w' = trace w ++ evs /\ Forall P evs.

(** A computation that only issues events satisfying [P] and leaves the
    history file alone. *)
Definition only {A} (P : event -> Prop) (m : M A) : Prop :=
  forall w, extends P w (m w).2.

(** ** Sample environments, to run the model *)

(** The defaults of CPython 3.11 where the selector calls the decoder:
    a recursion limit of 1000, of which the call stack has used a few,
    and 4300 digits. *)
Definition sample_py : interpreter := Interpreter 988 4300.

(** A completion response carrying [content]. *)
Definition groq_ok (content : json) : outcome http_response :=
  Return (HttpResponse 200 [] (fun _ => None)
    (Return (JObject
      [ (lit "choices",
         JArray [ JObject [ (lit "message", JObject [ (lit "content", content) ]) ] ]) ]))).

(** The one candidate of the sample feeds. *)
Definition sample_candidate : candidate :=
  Candidate (lit "Compose 2.0") (lit "What is new") (Some (lit "Blog")) None.

(** A feed whose first query is answered with one item and whose other
    queries are refused. *)
Definition one_item_feed (q : str) : outcome feed_response :=
  if bool_decide (q = lit "Android development trends 2025") then
    Return (FeedResponse 200 (Return
      [ RssItem (Some (Some (lit "Compose 2.0"))) (Some (Some (lit "What is new")))
          (Some None) (Some (Some (lit "Blog"))) ]))
  else Return (FeedResponse 503 (Return [])).

(** Credentials in the environment, one titled search result, the two
    given LLM replies and the given publish outcome. *)
Definition sample_env (select_reply generate_reply : str)
    (publish : outcome http_response) : env :=
  Env (Some (lit "gsk-key")) (Some (lit "token")) (Some (lit "urn:li:person:1")) Missing
    one_item_feed
    (fun p =>
       match p with
       | TopicPickerPrompt _ => groq_ok (JString select_reply)
       | PostGeneratorPrompt _ _ _ => groq_ok (JString generate_reply)
       end)
    (fun _ => Raise RequestError)
    (fun _ _ _ => publish)
    (lit "2025-01-01T09:00:00")
    lower_ascii
    (fun _ => []).

(** A feed whose first query times out, whose second is answered with
    four items (one without a title element, one with an empty title, two
    with the same title up to case), and whose other queries are refused. *)
Definition sample_feed (q : str) : outcome feed_response :=
  if bool_decide (q = lit "Android development trends 2025") then Raise RequestError
  else if bool_decide (q = lit "Kotlin new features latest") then
    Return (FeedResponse 200 (Return
      [ RssItem None (Some (Some (lit "no title"))) None None;
        RssItem (Some None) None None None;
        RssItem (Some (Some (lit "Kotlin 2.2"))) (Some None) (Some (Some (lit "Mon")))
          (Some (Some (lit "Blog")));
        RssItem (Some (Some (lit "KOTLIN 2.2"))) None None None ]))
  else Return (FeedResponse 503 (Return [])).

(** An environment whose completions carry a [null] content. *)
Definition null_content_env : env :=
  Env (Some (lit "gsk-key")) (Some (lit "token")) (Some (lit "urn:li:person:1")) Missing
    (fun _ => Raise RequestError)
    (fun _ => groq_ok JNull) (fun _ => Raise RequestError) (fun _ _ _ => Raise RequestError)
    [] lower_ascii (fun _ => []).

(** The same with the straight double quote written as an apostrophe, to
    spell JSON texts as literals. *)
Definition dq (s : string) : str :=
  map (fun c => if (c =? 39)%N then QUOTE else c) (lit s).

(** An environment without credentials in its variables: the tokens
    come from the given token file, the identity lookup and the publish
    request have the given outcomes, and a string is formatted as
    itself. *)
Definition token_file_env (token_file : file json)
    (userinfo publish : outcome http_response) : env :=
  Env (Some (lit "gsk-key")) None None token_file
    one_item_feed
    (fun p =>
       match p with
       | TopicPickerPrompt _ =>
           groq_ok (JString (dq "{'selected_topic': 'T', 'post_angle': 'A', 'post_type': 'hot_take'}"))
       | PostGeneratorPrompt _ _ _ => groq_ok (JString (lit "Post text"))
       end)
    (fun _ => userinfo)
    (fun _ _ _ => publish)
    (lit "2025-01-01T09:00:00")
    lower_ascii
    (fun v => match v with JString s => s | _ => [] end).

(** An identity response with subject [abc]. *)
Definition identity_response : http_response :=
  HttpResponse 200 [] (fun _ => None)
    (Return (JObject [(lit "sub", JString (lit "abc"))])).

(** The publish responses of the two publisher scenarios. *)
Definition created_response : http_response :=
  HttpResponse 201 []
    (fun h => if bool_decide (h = lit "x-restli-id") then Some (lit "urn:li:share:123") else None)
    (Raise JSONDecodeError).

Definition rejected_response : http_response :=
  HttpResponse 422 (dq "{'message':'bad request'}") (fun _ => None)
    (Return (JObject [(lit "message", JString (lit "bad request"))])).

(** A character that is neither white space nor a backtick. *)
Definition json_edge (c : N) : bool := negb (isspace c) && negb (c =? ch "`")%N.

(** A text that starts and ends with such a character. *)
Definition value_text (s : str) : Prop :=
  exists a b, head s = Some a /\ last s = Some b /\ json_edge a = true /\ json_edge b = true.

(** A text that ends with a decimal digit. *)
Definition ends_digit (s : str) : Prop := exists c, last s = Some c /\ is_digit c = true.

(** White space of the JSON grammar only. *)
Definition all_ws (ws : str) : Prop := Forall (fun c => is_ws c = true) ws.

(** The characters a JSON value can start with. *)
Definition is_value_start (c : N) : bool :=
  ((c =? QUOTE) || (c =? ch "{") || (c =? ch "[") || (c =? ch "n") || (c =? ch "t") ||
   (c =? ch "f") || (c =? ch "N") || (c =? ch "I") || (c =? ch "-"))%N || is_digit c.

(** The fences that the selector removes: at the head [```json] or
    [```], at the end [```], or none. *)
Definition opening_fence (o : str) : Prop := o = [] \/ o = lit "```json" \/ o = lit "```".
Definition closing_fence (c : str) : Prop := c = [] \/ c = lit "```".

(** Several runs of the recorder in a row, one per published post. *)
Fixpoint record_all (e : env) (published : list (json * str * str)) : M unit :=
  match published with
  | [] => ret tt
  | (topic, post_content, post_id) :: rest =>
      do! _ := save_to_history e topic post_content post_id in
      record_all e rest
  end.

(** The place of an event in the pipeline. *)
Definition event_rank (ev : event) : nat :=
  match ev with
  | FeedGet _ => 0
  | GroqPost (TopicPickerPrompt _) => 1
  | GroqPost (PostGeneratorPrompt _ _ _) => 2
  | UserinfoGet _ => 3
  | UgcPost _ _ _ => 4
  | HistoryWrite _ => 5
  end.

(** A computation whose events, in order, have their ranks along [l];
    when [quiet] it also leaves the history file alone. *)
Definition staged {A} (quiet : bool) (l : list nat) (m : M A) : Prop :=
  forall w, exists evs,
    trace (m w).2 = trace w ++ evs /\
    sublist (map event_rank evs) l /\
    (quiet = true -> POST_HISTORY_FILE (m w).2 = POST_HISTORY_FILE w).

(** Both credentials are in the environment variables, and not empty. *)
Definition env_credentials (e : env) : bool :=
  opt_truthy (LINKEDIN_ACCESS_TOKEN e) && opt_truthy (LINKEDIN_PERSON_URN e).

(** An event that is not a write of the history file. *)
Definition no_write (ev : event) : Prop := is_history_write ev = false.


(** What is left of the [try] block once the cleaned reply has been
    decoded to [v]. *)
Definition after_decoding (v : json) : outcome json :=
  let! selected := getitem_str v (lit "selected_topic") in
  let! shown := slice_to selected 50 in
  let! _ := print_value shown in
  let! angle := getitem_str v (lit "post_angle") in
  let! _ := print_value angle in
  Return v.

(** The exceptions of the two limits of the decoder. *)
Definition limit_error (x : exn) : Prop := x = RecursionError \/ x = ValueError.


(** The three requests of the feed loop, and the world after it. *)
Definition feed_requests : list event := map FeedGet (take 3 SEARCH_QUERIES).

Definition after_feed (w : world) : world :=
  World (POST_HISTORY_FILE w) (trace w ++ feed_requests).

(** The [try] block of [main] from the collected topics on. *)
Definition run_stages (py : interpreter) (e : env) (dry_run : bool) (topics : list candidate)
    : M unit :=
  match topics with
  | [] => ret tt
  | _ :: _ =>
      do! topic_data := pick_best_topic py e topics in
      do! post_content := generate_post e topic_data in
      if dry_run then lift (print post_content)
      else
        do! result := post_to_linkedin e post_content in
        if success result then
          do! topic := lift (getitem_str topic_data (lit "selected_topic")) in
          save_to_history e topic post_content (default (lit "unknown") (post_id result))
        else ret tt
  end.

(** * Properties *)

(** ** Slices *)

Lemma slice_prefix {A} (l : list A) (n : nat) :
  slice l None (Some (Z.of_nat n)) = take n l.
Proof.
  unfold slice, bound, adjust. change (Z.to_nat 0) with 0%nat. rewrite drop_0.
  destruct (Z.ltb_spec (Z.of_nat n) 0) as [H|H]; [lia|].
  destruct (Nat.le_gt_cases (length l) n) as [Hle|Hgt].
  - replace (Z.to_nat _) with (length l) by lia.
    rewrite !take_ge; [done | lia | lia].
  - by replace (Z.to_nat _) with n by lia.
Qed.

Lemma slice_suffix {A} (l : list A) (n : nat) :
  (0 < n)%nat ->
  slice l (Some (- Z.of_nat n)) None = drop (length l - n) l.
Proof.
  intros Hn. unfold slice, bound, adjust.
  destruct (Z.ltb_spec (- Z.of_nat n) 0) as [H|H]; [|lia].
  replace (Z.to_nat (Z.max _ _)) with (length l - n)%nat by lia.
  rewrite take_ge; [done|]. rewrite length_drop. lia.
Qed.

(** ** C2, C3: de-duplication, fallback and limit *)

Section SearchFacts.

Variable lower : str -> str.

Local Abbreviation key := (title_key lower).
Local Abbreviation loop := (fold_left (dedup_step lower)).

Lemma truthy_spec (s : str) : truthy s = true <-> s <> [].
Proof. destruct s; simpl; split; congruence. Qed.

Lemma dedup_step_spec (pre : list candidate) (st : dedup_state) (r : candidate) :
  (forall k, k ∈ seen_titles st <-> k ∈ map key (titled pre)) ->
  unique_results (dedup_step lower st r)
    = unique_results st ++ (if is_first lower pre r then [r] else []) /\
  forall k, k ∈ seen_titles (dedup_step lower st r) <-> k ∈ map key (titled (pre ++ [r])).
Proof.
  intros Hseen. unfold dedup_step, is_first, titled.
  rewrite filter_app, map_app.
  destruct (title r) as [|c t] eqn:Ht.
  - rewrite andb_false_r. simpl. rewrite app_nil_r. split; [done|].
    intros k. rewrite Hseen. unfold titled.
    rewrite filter_cons_False by (rewrite Ht; tauto).
    rewrite filter_nil. simpl. by rewrite app_nil_r.
  - simpl truthy. rewrite andb_true_r. simpl andb.
    rewrite filter_cons_True by (rewrite Ht; done).
    rewrite filter_nil. simpl map.
    fold (titled pre).
    assert (Hk : key r = lower (c :: t)) by (unfold title_key; by rewrite Ht).
    rewrite Hk.
    destruct (bool_decide (lower (c :: t) ∉ seen_titles st)) eqn:Hd.
    + apply bool_decide_eq_true in Hd.
      rewrite bool_decide_eq_true_2 by (by rewrite <- Hseen).
      simpl. split; [done|].
      intros k. rewrite elem_of_union, elem_of_singleton, elem_of_app, Hseen.
      rewrite list_elem_of_singleton. tauto.
    + apply bool_decide_eq_false in Hd.
      rewrite bool_decide_eq_false_2 by (by rewrite <- Hseen).
      rewrite app_nil_r. split; [done|].
      intros k. rewrite elem_of_app, Hseen.
      rewrite list_elem_of_singleton.
      split; [tauto|]. intros [H| ->]; [done|].
      apply dec_stable in Hd. by apply Hseen.
Qed.

(** The loop run from any state whose seen set holds the keys of the
    titled records of [pre] appends exactly the first occurrences. *)
Lemma dedup_loop_from (l pre : list candidate) (st : dedup_state) :
  (forall k, k ∈ seen_titles st <-> k ∈ map key (titled pre)) ->
  unique_results (loop l st) = unique_results st ++ first_from lower pre l /\
  (forall k, k ∈ seen_titles (loop l st) <-> k ∈ map key (titled (pre ++ l))).
Proof.
  revert pre st. induction l as [|r l IH]; intros pre st Hseen.
  - simpl. rewrite !app_nil_r. done.
  - simpl fold_left. simpl first_from.
    destruct (dedup_step_spec pre st r Hseen) as [Hu Hs].
    destruct (IH (pre ++ [r]) (dedup_step lower st r) Hs) as [IH1 IH2].
    rewrite IH1, Hu. rewrite <- !app_assoc. split; [done|].
    intros k. rewrite IH2. by rewrite <- app_assoc.
Qed.

Lemma dedup_loop_first_occurrences (all_results : list candidate) :
  unique_results (dedup_loop lower all_results) = first_occurrences lower all_results.
Proof.
  unfold dedup_loop, first_occurrences.
  destruct (dedup_loop_from all_results [] (DedupState ∅ [])) as [H _]; [|done].
  intros k. simpl. set_solver.
Qed.

(** Facts about the specification-side function. *)
Lemma first_from_sublist (pre l : list candidate) : sublist (first_from lower pre l) l.
Proof.
  revert pre. induction l as [|r l IH]; intros pre; simpl; [constructor|].
  destruct (is_first lower pre r); simpl.
  - by apply sublist_skip.
  - by apply sublist_cons.
Qed.

Lemma first_from_titled (pre l : list candidate) :
  Forall (fun r => title r <> []) (first_from lower pre l).
Proof.
  revert pre. induction l as [|r l IH]; intros pre; simpl; [constructor|].
  destruct (is_first lower pre r) eqn:Hf; simpl; [|done].
  constructor; [|done].
  apply andb_true_iff in Hf as [Hf _]. by apply truthy_spec.
Qed.

Lemma first_from_keys (pre l : list candidate) (r : candidate) :
  r ∈ first_from lower pre l -> key r ∉ map key (titled pre).
Proof.
  revert pre. induction l as [|x l IH]; intros pre; simpl; [by intros ?%elem_of_nil|].
  rewrite elem_of_app. intros [H|H].
  - destruct (is_first lower pre x) eqn:Hf; [|by apply elem_of_nil in H].
    apply list_elem_of_singleton in H as ->.
    apply andb_true_iff in Hf as [_ Hf]. by apply bool_decide_eq_true in Hf.
  - apply IH in H. intros Hin. apply H.
    unfold titled. rewrite filter_app, map_app, elem_of_app. by left.
Qed.

Lemma first_from_NoDup (pre l : list candidate) :
  NoDup (map key (first_from lower pre l)).
Proof.
  revert pre. induction l as [|x l IH]; intros pre; simpl; [constructor|].
  destruct (is_first lower pre x) eqn:Hf; simpl; [|done].
  constructor; [|done].
  intros Hin. apply list_elem_of_fmap in Hin as (y & Hy & Hin).
  apply first_from_keys in Hin. apply Hin.
  apply andb_true_iff in Hf as [Hf _]. apply truthy_spec in Hf.
  unfold titled. rewrite filter_app, map_app, elem_of_app. right.
  rewrite filter_cons_True by done. rewrite filter_nil. simpl.
  rewrite Hy. apply list_elem_of_singleton. done.
Qed.

Lemma first_from_complete (pre l : list candidate) (r : candidate) :
  r ∈ l -> title r <> [] ->
  key r ∈ map key (titled pre) \/ key r ∈ map key (first_from lower pre l).
Proof.
  revert pre. induction l as [|x l IH]; intros pre Hin Ht; [by apply elem_of_nil in Hin|].
  simpl. rewrite map_app, elem_of_app.
  apply elem_of_cons in Hin as [->|Hin].
  - unfold is_first. rewrite (proj2 (truthy_spec _) Ht). simpl.
    destruct (bool_decide (key x ∉ map key (titled pre))) eqn:Hd.
    + right. left. simpl. by apply list_elem_of_singleton.
    + apply bool_decide_eq_false in Hd. apply dec_stable in Hd. by left.
  - destruct (IH (pre ++ [x]) Hin Ht) as [H|H]; [|by right; right].
    unfold titled in H. rewrite filter_app, map_app, elem_of_app in H.
    destruct H as [H|H]; [by left|].
    destruct (decide (title x <> [])) as [Hx|Hx].
    + rewrite filter_cons_True in H by done. rewrite filter_nil in H.
      simpl in H. apply list_elem_of_singleton in H.
      unfold is_first. rewrite (proj2 (truthy_spec _) Hx). simpl.
      destruct (bool_decide (key x ∉ map key (titled pre))) eqn:Hd.
      * right. left. simpl. apply list_elem_of_singleton. done.
      * apply bool_decide_eq_false in Hd. apply dec_stable in Hd.
        left. by rewrite H.
    + rewrite filter_cons_False in H by done. rewrite filter_nil in H.
      by apply elem_of_nil in H.
Qed.

End SearchFacts.

(** C2. The de-duplication loop keeps exactly the first occurrences: the
    lower-cased titles of its output are pairwise distinct, the output is
    a subsequence of the input in input order, records with an empty title
    are dropped, every titled record of the input is represented, and the
    list finally returned is the first five at most. *)
Theorem search_dedup_first_occurrences (lower : str -> str) (all_results : list candidate) :
  let unique := unique_results (dedup_loop lower all_results) in
  unique = first_occurrences lower all_results /\
  NoDup (map (fun r => lower (title r)) unique) /\
  sublist unique all_results /\
  Forall (fun r => title r <> []) unique /\
  (forall r, r ∈ all_results -> title r <> [] ->
     lower (title r) ∈ map (fun r => lower (title r)) unique) /\
  (unique <> [] -> search_trending_topics lower all_results = take 5 unique) /\
  (length (search_trending_topics lower all_results) <= 5)%nat.
Proof.
  intros unique. subst unique.
  rewrite dedup_loop_first_occurrences. unfold first_occurrences.
  split; [done|].
  split; [apply first_from_NoDup|].
  split; [apply first_from_sublist|].
  split; [apply first_from_titled|].
  split.
  { intros r Hin Ht.
    destruct (first_from_complete lower [] all_results r Hin Ht) as [H|H]; [|done].
    by apply elem_of_nil in H. }
  unfold search_trending_topics.
  rewrite dedup_loop_first_occurrences. unfold first_occurrences.
  split.
  - intros Hne. destruct (first_from lower [] all_results); [done|].
    apply (slice_prefix _ 5).
  - destruct (first_from lower [] all_results);
      rewrite (slice_prefix _ 5), length_take; lia.
Qed.

(** C3. When the de-duplicated sequence is empty, the stage returns the
    five records of the fallback catalogue, in their order and with every
    field as written in the source. *)
Theorem search_fallback_when_empty (lower : str -> str) (all_results : list candidate) :
  unique_results (dedup_loop lower all_results) = [] ->
  search_trending_topics lower all_results = get_fallback_topics /\
  length (search_trending_topics lower all_results) = 5%nat /\
  map title (search_trending_topics lower all_results) =
    [ lit "Kotlin 2.0 and the future of Android development";
      lit "Jetpack Compose performance optimization techniques";
      lit "Android 15 new features for developers";
      lit "Health Connect SDK integration patterns";
      lit "Modern Android app architecture with MVI pattern" ].
Proof.
  intros Hempty. unfold search_trending_topics. rewrite Hempty.
  rewrite (slice_prefix _ 5). repeat split; reflexivity.
Qed.

Lemma search_fallback_when_empty_witness :
  unique_results (dedup_loop lower_ascii [Candidate [] (lit "untitled") None None]) = [] /\
  search_trending_topics lower_ascii [Candidate [] (lit "untitled") None None]
    = get_fallback_topics.
Proof.
  split; [reflexivity|].
  apply (search_fallback_when_empty lower_ascii [Candidate [] (lit "untitled") None None]).
  reflexivity.
Defined.

Example search_example :
  search_trending_topics lower_ascii
    [ Candidate (lit "Kotlin News") [] None None;
      Candidate [] (lit "no title") None None;
      Candidate (lit "KOTLIN news") (lit "dup") None None;
      Candidate (lit "Compose") [] None None ]
  = [ Candidate (lit "Kotlin News") [] None None;
      Candidate (lit "Compose") [] None None ].
Proof. vm_compute. reflexivity. Qed.

(** ** Stripping, prefixes and suffixes *)

Lemma lstrip_app_space (ws s : str) : all_space ws -> lstrip (ws ++ s) = lstrip s.
Proof.
  induction 1 as [|c ws Hc _ IH]; [done|]. simpl. by rewrite Hc.
Qed.

Lemma lstrip_head (s : str) (c : N) :
  head s = Some c -> isspace c = false -> lstrip s = s.
Proof.
  destruct s as [|x s]; [done|]. simpl. intros [= ->] ->. done.
Qed.

Lemma lstrip_split (s : str) :
  exists ws, s = ws ++ lstrip s /\ all_space ws /\
             forall c, head (lstrip s) = Some c -> isspace c = false.
Proof.
  induction s as [|x s (ws & Hs & Hws & Hh)].
  - exists []. repeat split; [constructor | done].
  - simpl. destruct (isspace x) eqn:Hx.
    + exists (x :: ws). simpl. rewrite <- Hs. repeat split; [by constructor | done].
    + exists []. repeat split; [constructor|]. simpl. by intros c [= <-].
Qed.

Lemma head_rev {A} (l : list A) : head (rev l) = last l.
Proof.
  induction l as [|x l IH] using rev_ind; [done|].
  by rewrite rev_unit, last_snoc.
Qed.

Lemma last_rev {A} (l : list A) : last (rev l) = head l.
Proof. by rewrite <- head_rev, rev_involutive. Qed.

Lemma all_space_rev (ws : str) : all_space ws -> all_space (rev ws).
Proof.
  unfold all_space. rewrite !Forall_forall. intros H c Hc. apply H.
  apply list_elem_of_In, in_rev. by apply list_elem_of_In.
Qed.

Lemma all_space_app (ws1 ws2 : str) : all_space ws1 -> all_space ws2 -> all_space (ws1 ++ ws2).
Proof. unfold all_space. rewrite Forall_app. done. Qed.

Lemma strip_tight (ws1 body ws2 : str) :
  all_space ws1 -> all_space ws2 -> tight body ->
  strip (ws1 ++ body ++ ws2) = body.
Proof.
  intros H1 H2 [(a & Ha & Hna) (b & Hb & Hnb)].
  unfold strip, rstrip.
  rewrite lstrip_app_space by done.
  rewrite (lstrip_head (body ++ ws2) a); [|by destruct body|done].
  rewrite rev_app_distr, lstrip_app_space by by apply all_space_rev.
  rewrite (lstrip_head (rev body) b); [by rewrite rev_involutive| |done].
  by rewrite head_rev.
Qed.

Lemma strip_tight_id (body : str) : tight body -> strip body = body.
Proof.
  intros H. rewrite <- (strip_tight [] body []) at 2; [|constructor|constructor|done].
  by rewrite app_nil_r.
Qed.

(** [strip] removes white space at both ends and nothing else. *)
Lemma strip_split (s : str) :
  exists ws1 ws2, s = ws1 ++ strip s ++ ws2 /\ all_space ws1 /\ all_space ws2 /\
                  (strip s = [] \/ tight (strip s)).
Proof.
  destruct (lstrip_split s) as (ws1 & Hs & Hws1 & Hh).
  destruct (lstrip_split (rev (lstrip s))) as (ws2 & Hr & Hws2 & Hl).
  exists ws1, (rev ws2). unfold strip, rstrip.
  assert (Hm : lstrip s = rev (lstrip (rev (lstrip s))) ++ rev ws2).
  { rewrite <- rev_app_distr, <- Hr. by rewrite rev_involutive. }
  split; [by rewrite <- Hm|].
  split; [done|]. split; [by apply all_space_rev|].
  destruct (lstrip (rev (lstrip s))) as [|c t] eqn:Ht; [by left|right].
  split.
  - destruct (rev (c :: t)) as [|x r] eqn:Hx.
    { apply (f_equal (@length N)) in Hx. rewrite length_rev in Hx. done. }
    exists x. split; [done|]. apply Hh. by rewrite Hm.
  - exists c. split; [by rewrite last_rev|]. by apply Hl.
Qed.

Lemma startswith_app (p s : str) : startswith (p ++ s) p = true.
Proof. induction p as [|c p IH]; [done|]. simpl. by rewrite N.eqb_refl. Qed.

Lemma startswith_inv (s p : str) : startswith s p = true -> exists r, s = p ++ r.
Proof.
  revert s. induction p as [|c p IH]; intros s H; [by exists s|].
  destruct s as [|x s]; [done|]. simpl in H.
  apply andb_true_iff in H as [Hc H]. apply N.eqb_eq in Hc as ->.
  destruct (IH _ H) as [r ->]. by exists r.
Qed.

Lemma startswith_head_ne (s p : str) (a b : N) :
  head s = Some a -> head p = Some b -> a <> b -> startswith s p = false.
Proof.
  destruct s as [|x s], p as [|y p]; try done. simpl.
  intros [= ->] [= ->] Hne. apply N.eqb_neq in Hne.
  by rewrite N.eqb_sym, Hne.
Qed.

Lemma startswith_nil (p : str) : p <> [] -> startswith [] p = false.
Proof. by destruct p. Qed.

Lemma endswith_app (s p : str) : endswith (s ++ p) p = true.
Proof. unfold endswith. rewrite rev_app_distr. apply startswith_app. Qed.

Lemma endswith_inv (s p : str) : endswith s p = true -> exists r, s = r ++ p.
Proof.
  unfold endswith. intros H. apply startswith_inv in H as [r Hr].
  exists (rev r). apply (f_equal (@rev N)) in Hr.
  by rewrite rev_involutive, rev_app_distr, rev_involutive in Hr.
Qed.

Lemma endswith_last_ne (s p : str) (a b : N) :
  last s = Some a -> last p = Some b -> a <> b -> endswith s p = false.
Proof.
  intros Ha Hb Hne. unfold endswith.
  apply (startswith_head_ne _ _ a b); by rewrite ?head_rev.
Qed.

Lemma slice_from {A} (l : list A) (n : nat) : slice l (Some (Z.of_nat n)) None = drop n l.
Proof.
  unfold slice, bound, adjust.
  destruct (Z.ltb_spec (Z.of_nat n) 0) as [H|H]; [lia|].
  destruct (Nat.le_gt_cases (length l) n) as [Hle|Hgt].
  - replace (Z.to_nat (Z.max _ _)) with (length l) by lia.
    rewrite !drop_ge by lia. by rewrite take_nil.
  - replace (Z.to_nat (Z.max _ _)) with n by lia.
    rewrite take_ge; [done|]. rewrite length_drop. lia.
Qed.

Lemma slice_drop_last {A} (l : list A) (n : nat) :
  (0 < n)%nat -> slice l None (Some (- Z.of_nat n)) = take (length l - n) l.
Proof.
  intros Hn. unfold slice, bound, adjust.
  destruct (Z.ltb_spec (- Z.of_nat n) 0) as [H|H]; [|lia].
  change (Z.to_nat 0) with 0%nat. rewrite drop_0.
  by replace (Z.to_nat _) with (length l - n)%nat by lia.
Qed.

Lemma slice_inner {A} (a b : A) (l : list A) :
  slice (a :: l ++ [b]) (Some 1) (Some (-1)) = l.
Proof.
  unfold slice, bound, adjust. simpl length. rewrite length_app. simpl length.
  change (1 <? 0) with false. change (-1 <? 0) with true. cbv iota.
  replace (Z.to_nat (Z.max 0 (Z.min _ 1))) with 1%nat by lia.
  replace (Z.to_nat _) with (length l) by lia.
  simpl drop. rewrite drop_0. by rewrite take_app_length.
Qed.

(** ** C5, C10: the clean-up of the generated post *)

Lemma wrapped_inv (t : str) :
  startswith t [QUOTE] && endswith t [QUOTE] = true ->
  t = [QUOTE] \/ exists inner, t = QUOTE :: inner ++ [QUOTE].
Proof.
  intros H. apply andb_true_iff in H as [Hs He].
  apply startswith_inv in Hs as [r ->].
  apply endswith_inv in He as [r' He].
  destruct r as [|x r _] using rev_ind; [by left|right].
  exists r. simpl in He. rewrite app_comm_cons in He.
  apply app_inj_tail in He as [_ ->]. done.
Qed.

Lemma wrapped_intro (inner : str) :
  startswith (QUOTE :: inner ++ [QUOTE]) [QUOTE] && endswith (QUOTE :: inner ++ [QUOTE]) [QUOTE] = true.
Proof.
  apply andb_true_iff. split; [done|].
  rewrite app_comm_cons. apply endswith_app.
Qed.

(** C10. A reply whose trimmed text is one straight double quote passes
    both tests and comes out as the empty string. *)
Theorem clean_post_lone_quote (post_content : str) :
  strip post_content = [QUOTE] ->
  startswith (strip post_content) [QUOTE] = true /\
  endswith (strip post_content) [QUOTE] = true /\
  clean_post post_content = [].
Proof.
  intros H. unfold clean_post. rewrite H. repeat split.
Qed.

Lemma clean_post_lone_quote_witness :
  strip (lit " " ++ [QUOTE] ++ lit " ") = [QUOTE] /\
  clean_post (lit " " ++ [QUOTE] ++ lit " ") = [].
Proof.
  split; [reflexivity|].
  apply (clean_post_lone_quote (lit " " ++ [QUOTE] ++ lit " ")). reflexivity.
Defined.

(** C5, as stated, fails on the reply made of one quote character: the
    trimmed text starts and ends with a quote, yet it is not the result
    wrapped in a pair of quotes. *)
Lemma clean_post_pair_counterexample :
  ~ (forall post_content : str,
       let t := strip post_content in
       (startswith t [QUOTE] && endswith t [QUOTE] = true ->
        t = QUOTE :: clean_post post_content ++ [QUOTE]) /\
       (startswith t [QUOTE] && endswith t [QUOTE] = false ->
        clean_post post_content = t)).
Proof.
  intros H. destruct (H [QUOTE]) as [H1 _].
  specialize (H1 eq_refl). discriminate H1.
Qed.

(** C5 (amended). The clean-up trims the white space around the reply;
    a trimmed text of at least two characters that starts and ends with a
    straight double quote loses exactly that outer pair; only a text that
    starts and ends with a quote is changed, and a text that does not both
    start and end with one is returned as trimmed. *)
Theorem clean_post_spec (post_content : str) :
  let t := strip post_content in
  (exists ws1 ws2, post_content = ws1 ++ t ++ ws2 /\ all_space ws1 /\ all_space ws2 /\
                   (t = [] \/ tight t)) /\
  (forall inner, t = QUOTE :: inner ++ [QUOTE] -> clean_post post_content = inner) /\
  ((2 <= length t)%nat ->
   startswith t [QUOTE] && endswith t [QUOTE] = true ->
   t = QUOTE :: clean_post post_content ++ [QUOTE]) /\
  (clean_post post_content <> t ->
   startswith t [QUOTE] && endswith t [QUOTE] = true) /\
  (startswith t [QUOTE] && endswith t [QUOTE] = false -> clean_post post_content = t) /\
  clean_post ([QUOTE] ++ lit "Hello world" ++ [QUOTE]) = lit "Hello world".
Proof.
  intros t. subst t. split; [apply strip_split|].
  split.
  { intros inner Ht. unfold clean_post. rewrite Ht, wrapped_intro. apply slice_inner. }
  split.
  { intros Hlen Hw. unfold clean_post. rewrite Hw.
    destruct (wrapped_inv _ Hw) as [Ht|[inner Ht]].
    - rewrite Ht in Hlen. simpl in Hlen. lia.
    - rewrite Ht at 1. by rewrite Ht, slice_inner. }
  split.
  { intros Hne. unfold clean_post in Hne.
    destruct (startswith _ _ && endswith _ _); [done|]. by destruct Hne. }
  split; [|reflexivity].
  intros Hw. unfold clean_post. by rewrite Hw.
Qed.

Lemma clean_post_spec_witness :
  clean_post (lit "  " ++ [QUOTE] ++ lit "Hi" ++ [QUOTE] ++ lit " ") = lit "Hi".
Proof.
  apply (clean_post_spec (lit "  " ++ [QUOTE] ++ lit "Hi" ++ [QUOTE] ++ lit " ")).
  reflexivity.
Defined.

(** ** C7: the history recorder *)

Lemma dict_get_set_eq (d : list (str * json)) (k : str) (v : json) :
  dict_get (dict_set d k v) k = Some v.
Proof.
  induction d as [|[k' v'] d IH]; simpl.
  - by rewrite bool_decide_eq_true_2.
  - destruct (bool_decide (k' = k)) eqn:Hk; simpl; rewrite Hk; done.
Qed.

Lemma dict_get_set_ne (d : list (str * json)) (k k' : str) (v : json) :
  k <> k' -> dict_get (dict_set d k v) k' = dict_get d k'.
Proof.
  intros Hne. induction d as [|[k0 v0] d IH]; simpl.
  - by rewrite bool_decide_eq_false_2.
  - destruct (bool_decide (k0 = k)) eqn:Hk; simpl; [|by rewrite IH].
    apply bool_decide_eq_true in Hk as ->.
    by rewrite bool_decide_eq_false_2.
Qed.

(** The update of a history that stands for [posts]: the new entry goes
    last and the last fifty are kept. *)
Lemma updated_history_posts (f : file json) (posts : list json) (entry : json) :
  history_posts f = Some posts ->
  exists data,
    (let! history := load_json_file (JObject []) f in updated_history history entry)
      = Return data /\
    history_posts (Stored data) = Some (drop (length (posts ++ [entry]) - 50) (posts ++ [entry])).
Proof.
  intros Hf. unfold history_posts in Hf.
  destruct f as [|y|[| | | | | |d]]; try done; simpl.
  - injection Hf as <-. eexists. split; [reflexivity|]. reflexivity.
  - destruct (dict_get d (lit "posts")) as [v|] eqn:Hd.
    + rewrite Hd. destruct v; try done. injection Hf as ->.
      eexists. split; [reflexivity|]. simpl. rewrite dict_get_set_eq.
      by rewrite (slice_suffix _ 50) by lia.
    + injection Hf as <-. rewrite dict_get_set_eq.
      eexists. split; [reflexivity|]. simpl. rewrite dict_get_set_eq.
      by rewrite (slice_suffix _ 50) by lia.
Qed.

(** C7. Appending one entry to a history keeps the new entry last and at
    most fifty entries; a history of fifty loses its oldest entry, a
    shorter one loses none. *)
Theorem save_to_history_bounded (e : env) (topic : json) (post_content post_id : str)
    (w : world) (posts : list json) :
  history_posts (POST_HISTORY_FILE w) = Some posts ->
  let entry := history_entry e topic post_content post_id in
  exists w' posts',
    save_to_history e topic post_content post_id w = (Return tt, w') /\
    history_posts (POST_HISTORY_FILE w') = Some posts' /\
    posts' = drop (length posts + 1 - 50) (posts ++ [entry]) /\
    (length posts' <= 50)%nat /\
    last posts' = Some entry /\
    ((length posts < 50)%nat -> posts' = posts ++ [entry]) /\
    (length posts = 50%nat -> posts' = drop 1 posts ++ [entry] /\ length posts' = 50%nat).
Proof.
  intros Hf entry.
  destruct (updated_history_posts _ _ entry Hf) as (data & Hup & Hposts).
  unfold save_to_history, mbind', lift, save_json_file.
  unfold bind in Hup.
  destruct (load_json_file (JObject []) (POST_HISTORY_FILE w)) as [history|ex]; [|done].
  fold entry. rewrite Hup.
  eexists _, _. split; [reflexivity|]. simpl POST_HISTORY_FILE.
  split; [exact Hposts|].
  rewrite length_app. simpl length.
  split; [done|].
  split; [rewrite length_drop, length_app; simpl; lia|].
  split.
  { rewrite drop_app_le by lia. by rewrite last_snoc. }
  split.
  - intros Hlt. replace (length posts + 1 - 50)%nat with 0%nat by lia. done.
  - intros Heq. rewrite Heq. simpl Nat.sub.
    rewrite drop_app_le by lia. split; [done|].
    rewrite length_app, length_drop. simpl. lia.
Qed.

Lemma save_to_history_bounded_witness :
  let w := World (Stored (JObject [(lit "posts", JArray (replicate 50 JNull))])) [] in
  history_posts (POST_HISTORY_FILE w) = Some (replicate 50 JNull) /\
  exists w' posts',
    save_to_history (sample_env [] [] (Raise RequestError)) (JString (lit "Compose"))
      (lit "Hello") (lit "urn:li:share:1") w = (Return tt, w') /\
    history_posts (POST_HISTORY_FILE w') = Some posts' /\
    length posts' = 50%nat.
Proof.
  intros w. split; [reflexivity|].
  destruct (save_to_history_bounded (sample_env [] [] (Raise RequestError))
              (JString (lit "Compose")) (lit "Hello") (lit "urn:li:share:1") w
              (replicate 50 JNull) eq_refl)
    as (w' & posts' & Hrun & Hposts & _ & _ & _ & _ & Hfull).
  exists w', posts'. split; [exact Hrun|]. split; [exact Hposts|].
  apply Hfull. reflexivity.
Defined.

(** ** Frames: what a stage can do to the world *)

Section Frames.

Variable P : event -> Prop.

Lemma extends_refl (w : world) : extends P w w.
Proof. split; [done|]. exists []. by rewrite app_nil_r. Qed.

Lemma extends_trans (w1 w2 w3 : world) :
  extends P w1 w2 -> extends P w2 w3 -> extends P w1 w3.
Proof.
  intros [Hf1 (evs1 & Ht1 & Hp1)] [Hf2 (evs2 & Ht2 & Hp2)].
  split; [congruence|]. exists (evs1 ++ evs2).
  split; [by rewrite Ht2, Ht1, app_assoc|]. by apply Forall_app.
Qed.

Lemma only_ret {A} (a : A) : only P (ret a).
Proof. intros w. apply extends_refl. Qed.

Lemma only_raise {A} (x : exn) : only P (@raise A x).
Proof. intros w. apply extends_refl. Qed.

Lemma only_lift {A} (m : outcome A) : only P (lift m).
Proof. intros w. apply extends_refl. Qed.

Lemma only_emit (ev : event) : P ev -> only P (emit ev).
Proof.
  intros Hev w. split; [done|]. exists [ev]. split; [done|]. by constructor.
Qed.

Lemma only_bind {A B} (m : M A) (k : A -> M B) :
  only P m -> (forall a, only P (k a)) -> only P (mbind' m k).
Proof.
  intros Hm Hk w. unfold mbind'. specialize (Hm w).
  destruct (m w) as [[a|x] w1]; [|done].
  eapply extends_trans; [exact Hm|]. apply Hk.
Qed.

Lemma only_try_any (m : M unit) : only P m -> only P (try_any m).
Proof.
  intros Hm w. unfold try_any. specialize (Hm w).
  by destruct (m w) as [[a|x] w1].
Qed.

End Frames.

Create HintDb frame.
#[local] Hint Resolve only_ret only_raise only_lift only_emit only_bind only_try_any : frame.

Section PipelineFrames.

Variable py : interpreter.
Variable e : env.
Variable P : event -> Prop.

Lemma only_feed_loop : (forall q, P (FeedGet q)) -> only P (feed_loop e).
Proof.
  intros Hq. unfold feed_loop.
  generalize (slice SEARCH_QUERIES None (Some 3)).
  assert (H : only P (ret ([] : list candidate))) by apply only_ret.
  revert H. generalize (ret ([] : list candidate)).
  intros loop Hloop queries. revert loop Hloop.
  induction queries as [|q queries IH]; intros loop Hloop; [done|].
  cbn [fold_left]. apply IH.
  apply only_bind; [done|intros all_results].
  apply only_bind; [by apply only_emit|intros _]. apply only_ret.
Qed.

Lemma only_call_groq_api (p : prompt) :
  P (GroqPost p) -> only P (call_groq_api e p).
Proof.
  intros Hp. unfold call_groq_api.
  apply only_bind; [by apply only_emit|intros _].
  apply only_bind; [apply only_lift|intros response].
  destruct (status_code response =? 200); [apply only_lift|apply only_raise].
Qed.

Lemma only_pick_best_topic (topics : list candidate) :
  (forall p, P (GroqPost p)) -> only P (pick_best_topic py e topics).
Proof.
  intros Hp. unfold pick_best_topic.
  apply only_bind; [by apply only_call_groq_api|intros ?]. apply only_lift.
Qed.

Lemma only_generate_post (topic_data : json) :
  (forall p, P (GroqPost p)) -> only P (generate_post e topic_data).
Proof.
  intros Hp. unfold generate_post.
  do 3 (apply only_bind; [apply only_lift|intros ?]).
  apply only_bind; [by apply only_call_groq_api|intros ?].
  do 2 (apply only_bind; [apply only_lift|intros ?]). apply only_ret.
Qed.

Lemma only_resolve_person_urn (tokens access_token : json) :
  (forall t, P (UserinfoGet t)) -> only P (resolve_person_urn e tokens access_token).
Proof.
  intros Hp. unfold resolve_person_urn.
  apply only_bind; [apply only_lift|intros person_urn].
  destruct (opt_json_truthy _); [apply only_ret|].
  apply only_bind; [by apply only_emit|intros _].
  apply only_bind; [apply only_lift|intros response].
  destruct (status_code response =? 200); [|apply only_ret].
  do 2 (apply only_bind; [apply only_lift|intros ?]). apply only_ret.
Qed.

Lemma only_post_to_linkedin (post_content : str) :
  (forall t, P (UserinfoGet t)) -> (forall t a x, P (UgcPost t a x)) ->
  only P (post_to_linkedin e post_content).
Proof.
  intros Hu Hp. unfold post_to_linkedin.
  apply only_bind; [apply only_lift|intros tokens].
  apply only_bind; [apply only_lift|intros missing].
  destruct missing; [apply only_ret|].
  apply only_bind; [apply only_lift|intros access_token].
  apply only_bind; [by apply only_resolve_person_urn|intros [person_urn|]]; [|apply only_ret].
  apply only_bind; [by apply only_emit|intros _].
  apply only_bind; [apply only_lift|intros response].
  destruct (status_code response =? 201); apply only_ret.
Qed.

End PipelineFrames.

(** ** C6: the publisher *)

(** The guard lets a dict with the key through. *)
Lemma no_tokens_false (tokens access_token : json) :
  getitem_str tokens (lit "access_token") = Return access_token ->
  no_tokens tokens = Return false.
Proof.
  destruct tokens as [| | | | | |d]; try done. cbn [getitem_str].
  destruct (dict_get d (lit "access_token")) as [v|] eqn:Hd; [|done]. intros _.
  unfold no_tokens. destruct d as [|kv d]; [done|].
  cbn [json_truthy negb json_in bind]. by rewrite Hd.
Qed.

(** A success result comes from a publish request answered with 201, and
    that request is the last thing the publisher did. *)
Lemma post_to_linkedin_success_inv (e : env) (post_content : str) (w w' : world)
    (result : publish_result) :
  post_to_linkedin e post_content w = (Return result, w') ->
  success result = true ->
  exists access_token person_urn response evs,
    ugc_endpoint e access_token person_urn post_content = Return response /\
    status_code response = 201 /\
    post_id result = Some (default (lit "Unknown") (headers_get response (lit "x-restli-id"))) /\
    trace w' = trace w ++ evs ++ [UgcPost access_token person_urn post_content] /\
    Forall (fun ev => is_ugc_post ev = false /\ is_history_write ev = false) evs /\
    POST_HISTORY_FILE w' = POST_HISTORY_FILE w.
Proof.
  unfold post_to_linkedin, mbind', lift, ret.
  destruct (load_linkedin_tokens e) as [tokens|x]; [|done].
  destruct (no_tokens tokens) as [[|]|x]; [by intros [= <- <-]| |done].
  destruct (getitem_str tokens (lit "access_token")) as [access_token|]; [|done].
  pose proof (only_resolve_person_urn e
                (fun ev => is_ugc_post ev = false /\ is_history_write ev = false)
                tokens access_token (fun _ => conj eq_refl eq_refl) w) as Hr.
  destruct (resolve_person_urn e tokens access_token w) as [[[person_urn|]|x] w1];
    [|by intros [= <- <-]|done].
  destruct Hr as [Hfile (evs & Htrace & Hevs)]. simpl in Hfile, Htrace.
  unfold emit. simpl.
  destruct (ugc_endpoint e access_token person_urn post_content) as [response|x] eqn:Hresp;
    [|done].
  destruct (status_code response =? 201) eqn:Hst; intros [= <- <-]; [|done].
  intros _. exists access_token, person_urn, response, evs.
  split; [done|]. split; [by apply Z.eqb_eq|]. split; [done|].
  simpl. split; [by rewrite Htrace, app_assoc|]. done.
Qed.

(** C6. Once the publish request is answered, the result is a success
    exactly when the status is 201: then it carries the value of the
    [x-restli-id] header; on any other status it carries the response
    text as the error.  One publish request is issued, whatever the
    status. *)
Theorem post_to_linkedin_status (e : env) (post_content : str) (w w1 : world)
    (tokens access_token person_urn : json) (response : http_response) :
  load_linkedin_tokens e = Return tokens ->
  getitem_str tokens (lit "access_token") = Return access_token ->
  resolve_person_urn e tokens access_token w = (Return (Some person_urn), w1) ->
  ugc_endpoint e access_token person_urn post_content = Return response ->
  exists result evs,
    post_to_linkedin e post_content w
      = (Return result,
         World (POST_HISTORY_FILE w)
               (trace w ++ evs ++ [UgcPost access_token person_urn post_content])) /\
    Forall (fun ev => is_ugc_post ev = false) evs /\
    (success result = true <-> status_code response = 201) /\
    (status_code response = 201 ->
     forall v, headers_get response (lit "x-restli-id") = Some v ->
               result = PublishResult true (Some v) None) /\
    (status_code response = 201 ->
     headers_get response (lit "x-restli-id") = None ->
     result = PublishResult true (Some (lit "Unknown")) None) /\
    (status_code response <> 201 ->
     result = PublishResult false None (Some (text response))).
Proof.
  intros Htok Hacc Hurn Hresp.
  pose proof (only_resolve_person_urn e (fun ev => is_ugc_post ev = false)
                tokens access_token (fun _ => eq_refl) w) as Hr.
  rewrite Hurn in Hr. destruct Hr as [Hfile (evs & Htrace & Hevs)].
  simpl in Hfile, Htrace.
  unfold post_to_linkedin, mbind', lift, ret.
  rewrite Htok, (no_tokens_false _ _ Hacc), Hacc, Hurn.
  unfold emit. simpl. rewrite Hresp, Hfile, Htrace, <- app_assoc.
  destruct (Z.eqb_spec (status_code response) 201) as [Hst|Hst].
  - eexists _, evs. split; [reflexivity|]. split; [done|]. simpl.
    split; [done|]. split; [by intros _ v ->|]. split; [by intros _ ->|done].
  - eexists _, evs. split; [reflexivity|]. split; [done|]. simpl.
    split; [split; [done|by intros ?]|]. split; [done|]. split; done.
Qed.

Lemma post_to_linkedin_status_witness :
  exists evs,
    post_to_linkedin (sample_env [] [] (Return created_response)) (lit "Hello") (World Missing [])
    = (Return (PublishResult true (Some (lit "urn:li:share:123")) None),
       World Missing ([] ++ evs ++ [UgcPost (JString (lit "token"))
                                      (JString (lit "urn:li:person:1")) (lit "Hello")])).
Proof.
  destruct (post_to_linkedin_status (sample_env [] [] (Return created_response)) (lit "Hello")
              (World Missing []) (World Missing [])
              (JObject [ (lit "access_token", JString (lit "token"));
                         (lit "person_urn", JString (lit "urn:li:person:1")) ])
              (JString (lit "token")) (JString (lit "urn:li:person:1")) created_response
              eq_refl eq_refl eq_refl eq_refl)
    as (result & evs & Hrun & _ & _ & Hok & _).
  exists evs. rewrite Hrun. f_equal. f_equal.
  apply Hok; reflexivity.
Defined.

(** The two publisher scenarios of the specification. *)
Example publisher_success_path :
  (post_to_linkedin (sample_env [] [] (Return created_response)) (lit "Hello") (World Missing [])).1
  = Return (PublishResult true (Some (lit "urn:li:share:123")) None).
Proof. vm_compute. reflexivity. Qed.

Example publisher_failure_path :
  (post_to_linkedin (sample_env [] [] (Return rejected_response)) (lit "Hello") (World Missing [])).1
  = Return (PublishResult false None (Some (dq "{'message':'bad request'}"))).
Proof. vm_compute. reflexivity. Qed.

(** ** C8: the history is written only after a successful publish *)

Lemma save_to_history_world (e : env) (topic : json) (post_content post_id : str) (w : world) :
  (exists x, save_to_history e topic post_content post_id w = (Raise x, w)) \/
  (exists data, save_to_history e topic post_content post_id w
                = (Return tt, World (Stored data) (trace w ++ [HistoryWrite data]))).
Proof.
  unfold save_to_history, mbind', lift, save_json_file.
  destruct (load_json_file _ _) as [history|x]; [|left; by exists x].
  destruct (updated_history _ _) as [data|x]; [right; by exists data|left; by exists x].
Qed.

(** The feed loop asks its three queries and returns what
    [collect_results] collects. *)
Lemma feed_loop_run (e : env) (w : world) :
  feed_loop e w = (Return (collect_results (feed_endpoint e)), after_feed w).
Proof.
  unfold feed_loop, collect_results, after_feed, feed_requests.
  rewrite (slice_prefix _ 3). unfold SEARCH_QUERIES. cbn [take fold_left map].
  unfold mbind', emit, ret. cbn [POST_HISTORY_FILE trace app].
  by rewrite <- !app_assoc.
Qed.

Lemma extends_after_feed (P : event -> Prop) (w : world) :
  (forall q, P (FeedGet q)) -> extends P w (after_feed w).
Proof.
  intros Hq. split; [done|]. exists feed_requests. split; [done|].
  unfold feed_requests. apply Forall_forall. intros ev Hev.
  apply list_elem_of_fmap in Hev as (q & -> & _). apply Hq.
Qed.

Section MainCases.

Variable py : interpreter.
Variable e : env.

(** The ways out of [main] before its [try] block. *)
Lemma main_no_key (dry_run : bool) (w : world) :
  opt_truthy (GROQ_API_KEY e) = false -> main py e dry_run w = (Return tt, w).
Proof. intros Hk. unfold main. by rewrite Hk. Qed.

Lemma main_load_raises (dry_run : bool) (w : world) (x : exn) :
  opt_truthy (GROQ_API_KEY e) = true -> load_linkedin_tokens e = Raise x ->
  main py e dry_run w = (Raise x, w).
Proof. intros Hk Ht. unfold main, mbind', lift. by rewrite Hk, Ht. Qed.

Lemma main_guard (dry_run : bool) (w : world) (tokens : json) :
  opt_truthy (GROQ_API_KEY e) = true -> load_linkedin_tokens e = Return tokens ->
  match no_tokens tokens with
  | Raise x => main py e dry_run w = (Raise x, w)
  | Return true => main py e dry_run w = (Return tt, w)
  | Return false =>
      main py e dry_run w =
        try_any
          (run_stages py e dry_run
             (search_trending_topics (str_lower e) (collect_results (feed_endpoint e))))
          (after_feed w)
  end.
Proof.
  intros Hk Ht.
  destruct (no_tokens tokens) as [[|]|x] eqn:Hn; unfold main; rewrite Hk; cbn [negb];
    unfold mbind' at 1, lift at 1; rewrite Ht;
    unfold mbind' at 1, lift at 1; rewrite Hn; [done| |done].
  unfold try_any, mbind' at 1. by rewrite feed_loop_run.
Qed.

End MainCases.

(** C8. A run whose publish stage raises or returns a failure result ends
    there: nothing is written and the history file is as before.  And a
    run that did write the history had its publish stage return a success
    result just before the write. *)
Theorem main_history_after_publish (py : interpreter) (e : env) (dry_run : bool) (w : world) :
  (forall tokens c topics topic_data post_content w1 w2 w3 published,
     opt_truthy (GROQ_API_KEY e) = true ->
     load_linkedin_tokens e = Return tokens ->
     no_tokens tokens = Return false ->
     search_trending_topics (str_lower e) (collect_results (feed_endpoint e)) = c :: topics ->
     pick_best_topic py e (c :: topics) (after_feed w) = (Return topic_data, w1) ->
     generate_post e topic_data w1 = (Return post_content, w2) ->
     dry_run = false ->
     post_to_linkedin e post_content w2 = (published, w3) ->
     (forall result, published = Return result -> success result = false) ->
     main py e dry_run w = (Return tt, w3) /\ extends no_write w w3) /\
  (~ extends no_write w (main py e dry_run w).2 ->
   dry_run = false /\
   exists topics topic_data post_content w1 w2 w3 result data,
     pick_best_topic py e topics (after_feed w) = (Return topic_data, w1) /\
     generate_post e topic_data w1 = (Return post_content, w2) /\
     post_to_linkedin e post_content w2 = (Return result, w3) /\
     success result = true /\
     extends no_write w w3 /\
     main py e dry_run w = (Return tt, World (Stored data) (trace w3 ++ [HistoryWrite data]))).
Proof.
  assert (Hgroq : forall p, no_write (GroqPost p)) by done.
  assert (Huser : forall t, no_write (UserinfoGet t)) by done.
  assert (Hugc : forall t a x, no_write (UgcPost t a x)) by done.
  pose proof (extends_after_feed no_write w (fun _ => eq_refl)) as H0.
  split.
  - intros tokens c topics topic_data post_content w1 w2 w3 published
      Hkey Htok Hno Hsearch Hpick Hgen -> Hpost Hfail.
    pose proof (only_pick_best_topic py e no_write (c :: topics) Hgroq (after_feed w)) as H1.
    pose proof (only_generate_post e no_write topic_data Hgroq w1) as H2.
    pose proof (only_post_to_linkedin e no_write post_content Huser Hugc w2) as H3.
    rewrite Hpick in H1. rewrite Hgen in H2. rewrite Hpost in H3. simpl in H1, H2, H3.
    split; [|by eauto using extends_trans].
    pose proof (main_guard py e false w tokens Hkey Htok) as Hmain.
    rewrite Hno, Hsearch in Hmain. rewrite Hmain.
    unfold try_any, run_stages, mbind'. rewrite Hpick, Hgen, Hpost.
    destruct published as [result|x]; [|done].
    by rewrite (Hfail result eq_refl).
  - intros Hne.
    destruct (opt_truthy (GROQ_API_KEY e)) eqn:Hkey;
      [|rewrite main_no_key in Hne by done; by destruct Hne; apply extends_refl].
    destruct (load_linkedin_tokens e) as [tokens|x] eqn:Htok;
      [|rewrite (main_load_raises py e _ _ x) in Hne by done;
        by destruct Hne; apply extends_refl].
    pose proof (main_guard py e dry_run w tokens Hkey Htok) as Hmain.
    destruct (no_tokens tokens) as [[|]|x];
      [rewrite Hmain in Hne; by destruct Hne; apply extends_refl
      | |rewrite Hmain in Hne; by destruct Hne; apply extends_refl].
    rewrite Hmain in Hne |- *. clear Hmain.
    unfold try_any, run_stages, mbind' in Hne |- *.
    destruct (search_trending_topics (str_lower e) (collect_results (feed_endpoint e)))
      as [|c topics]; [by destruct Hne|].
    pose proof (only_pick_best_topic py e no_write (c :: topics) Hgroq (after_feed w)) as H1.
    destruct (pick_best_topic py e (c :: topics) (after_feed w)) as [[topic_data|x] w1] eqn:Hpick;
      simpl in H1; [|by destruct Hne; eauto using extends_trans].
    pose proof (only_generate_post e no_write topic_data Hgroq w1) as H2.
    destruct (generate_post e topic_data w1) as [[post_content|x] w2] eqn:Hgen;
      simpl in H2; [|by destruct Hne; eauto using extends_trans].
    destruct dry_run.
    { unfold lift in Hne. destruct (print post_content) as [[]|x];
        by destruct Hne; eauto using extends_trans. }
    pose proof (only_post_to_linkedin e no_write post_content Huser Hugc w2) as H3.
    destruct (post_to_linkedin e post_content w2) as [[result|x] w3] eqn:Hpost;
      simpl in H3; [|by destruct Hne; eauto using extends_trans].
    assert (H03 : extends no_write w w3) by eauto using extends_trans.
    destruct (success result) eqn:Hok; [|by destruct Hne].
    unfold lift in Hne |- *.
    destruct (getitem_str topic_data (lit "selected_topic")) as [topic|x];
      [|by destruct Hne].
    destruct (save_to_history_world e topic post_content
                (default (lit "unknown") (post_id result)) w3) as [[x Hs]|[data Hs]];
      rewrite Hs in Hne |- *; [by destruct Hne|].
    split; [done|].
    by exists (c :: topics), topic_data, post_content, w1, w2, w3, result, data.
Qed.

Lemma main_history_after_publish_witness :
  let e := sample_env
             (dq "{'selected_topic': 'Compose 2.0', 'post_angle': 'a', 'post_type': 'hot_take'}")
             (lit "Post text") (Return rejected_response) in
  POST_HISTORY_FILE (main sample_py e false (World Missing [])).2 = Missing.
Proof.
  intros e.
  edestruct (proj1 (main_history_after_publish sample_py e false (World Missing [])))
    as [Hrun [Hfile _]].
  - reflexivity.
  - reflexivity.
  - reflexivity.
  - vm_compute. reflexivity.
  - vm_compute. reflexivity.
  - vm_compute. reflexivity.
  - reflexivity.
  - vm_compute. reflexivity.
  - intros result [= <-]. reflexivity.
  - rewrite Hrun. exact Hfile.
Defined.

(** The end-to-end dry run of the specification: the quotes around the
    generated text are removed, nothing is published and nothing is
    written. *)
Example main_dry_run :
  let e := sample_env
             (dq "{'selected_topic': 'Compose 2.0', 'post_angle': 'a', 'post_type': 'hot_take'}")
             (dq "'One. Two. Three.'") (Return created_response) in
  main sample_py e true (World Missing [])
  = (Return tt,
     World Missing
       (feed_requests ++
        [ GroqPost (TopicPickerPrompt [sample_candidate]);
          GroqPost (PostGeneratorPrompt (JString (lit "Compose 2.0")) (JString (lit "a"))
                      (JString (lit "hot_take"))) ])).
Proof. vm_compute. reflexivity. Qed.

Example main_publishes_and_records :
  let e := sample_env
             (dq "{'selected_topic': 'Compose 2.0', 'post_angle': 'a', 'post_type': 'hot_take'}")
             (dq "'One. Two. Three.'") (Return created_response) in
  history_posts (POST_HISTORY_FILE (main sample_py e false (World Missing [])).2)
  = Some [ history_entry e (JString (lit "Compose 2.0")) (lit "One. Two. Three.")
             (lit "urn:li:share:123") ].
Proof. vm_compute. reflexivity. Qed.

(** ** The decoder: what a successful scan has consumed *)

Lemma skip_ws_split (s : str) : exists ws, s = ws ++ skip_ws s /\ all_ws ws.
Proof.
  induction s as [|c s (ws & Hs & Hws)]; [by exists []; split; [|constructor]|].
  simpl. destruct (is_ws c) eqn:Hc.
  - exists (c :: ws). simpl. rewrite <- Hs. split; [done|]. by constructor.
  - exists []. split; [done|constructor].
Qed.

Lemma skip_ws_head (s : str) (c : N) (r : str) : skip_ws s = c :: r -> is_ws c = false.
Proof.
  induction s as [|x s IH]; [done|]. simpl.
  destruct (is_ws x) eqn:Hx; [done|]. by intros [= <- <-].
Qed.

Lemma is_ws_isspace (c : N) : is_ws c = true -> isspace c = true.
Proof.
  unfold is_ws. rewrite !orb_true_iff, !N.eqb_eq. by intros [[[-> | ->] | ->] | ->].
Qed.

Lemma all_ws_space (ws : str) : all_ws ws -> all_space ws.
Proof. intros H. eapply Forall_impl; [exact H|]. apply is_ws_isspace. Qed.

(** The printable ASCII characters other than the backtick are edges. *)
Lemma json_edge_range (c : N) : (33 <= c <= 126)%N -> c <> 96%N -> json_edge c = true.
Proof.
  intros Hc Hne. unfold json_edge, isspace. change (ch "`") with 96%N.
  repeat match goal with
         | |- context [(?a <=? ?b)%N] => destruct (N.leb_spec a b); try lia
         | |- context [(?a =? ?b)%N] => destruct (N.eqb_spec a b); try lia
         end; done.
Qed.

Lemma is_digit_edge (c : N) : is_digit c = true -> json_edge c = true.
Proof.
  unfold is_digit. intros H. apply andb_true_iff in H as [H1 H2].
  apply N.leb_le in H1, H2. apply json_edge_range; lia.
Qed.

Lemma span_digits_split (s ds r : str) :
  span_digits s = (ds, r) -> s = ds ++ r /\ Forall (fun c => is_digit c = true) ds.
Proof.
  revert ds r. induction s as [|c s IH]; intros ds r; simpl.
  - intros [= <- <-]. split; [done|constructor].
  - destruct (is_digit c) eqn:Hc.
    + destruct (span_digits s) as [ds' r'] eqn:Hs. intros [= <- <-].
      destruct (IH ds' r' eq_refl) as [-> Hds]. split; [done|]. by constructor.
    + intros [= <- <-]. split; [done|constructor].
Qed.

Lemma ends_digit_snoc (pre ds : str) (c : N) :
  is_digit c = true -> Forall (fun c => is_digit c = true) ds -> ends_digit (pre ++ c :: ds).
Proof.
  intros Hc Hds. destruct ds as [|d ds _] using rev_ind.
  - exists c. by rewrite last_snoc.
  - apply Forall_app in Hds as [_ Hd]. apply Forall_inv in Hd.
    exists d. split; [|done].
    by rewrite app_comm_cons, app_assoc, last_snoc.
Qed.

Lemma ends_digit_app (pre s : str) : ends_digit s -> ends_digit (pre ++ s).
Proof.
  intros (c & Hc & Hd). exists c. split; [|done].
  destruct s as [|x s _] using rev_ind; [done|].
  rewrite last_snoc in Hc. injection Hc as ->. by rewrite app_assoc, last_snoc.
Qed.

Lemma int_part_split (s ip r : str) :
  int_part s = Some (ip, r) ->
  s = ip ++ r /\ ends_digit ip /\ exists c, head ip = Some c /\ is_digit c = true.
Proof.
  destruct s as [|c s]; [done|]. simpl.
  destruct (N.eqb_spec c 48) as [->|Hc].
  - intros [= <- <-]. split; [done|]. split; by exists 48%N.
  - destruct (is_digit c) eqn:Hd; [|done].
    destruct (span_digits s) as [ds r'] eqn:Hs. intros [= <- <-].
    destruct (span_digits_split _ _ _ Hs) as [-> Hds].
    split; [done|]. split; [by apply (ends_digit_snoc [])|by exists c].
Qed.

Lemma frac_part_split (s fp r : str) :
  frac_part s = (fp, r) -> s = fp ++ r /\ (fp = [] \/ ends_digit fp).
Proof.
  unfold frac_part.
  destruct s as [|d [|c s]]; try (intros [= <- <-]; by split; [|left]).
  destruct (_ && _) eqn:Hd; [|intros [= <- <-]; by split; [|left]].
  apply andb_true_iff in Hd as [_ Hc].
  destruct (span_digits s) as [ds r'] eqn:Hs. intros [= <- <-].
  destruct (span_digits_split _ _ _ Hs) as [-> Hds].
  split; [done|]. right. by apply (ends_digit_snoc [d]).
Qed.

Lemma opt_char_split (P : N -> bool) (s o r : str) :
  opt_char P s = (o, r) -> s = o ++ r /\ (o = [] \/ exists c, o = [c] /\ P c = true).
Proof.
  unfold opt_char. destruct s as [|c s']; [intros [= <- <-]; by split; [|left]|].
  destruct (P c) eqn:Hc; intros [= <- <-]; (split; [done|]); [right|by left].
  by exists c.
Qed.

Lemma exp_part_split (s ep r : str) :
  exp_part s = (ep, r) -> s = ep ++ r /\ (ep = [] \/ ends_digit ep).
Proof.
  unfold exp_part.
  destruct s as [|x s]; [intros [= <- <-]; by split; [|left]|].
  destruct (_ || _); [|intros [= <- <-]; by split; [|left]].
  destruct (opt_char _ s) as [sign r1] eqn:Hsign.
  apply opt_char_split in Hsign as [-> _].
  destruct (span_digits r1) as [[|d ds] r2] eqn:Hd; intros [= <- <-].
  - by split; [|left].
  - destruct (span_digits_split _ _ _ Hd) as [-> Hds].
    apply Forall_cons in Hds as [Hd1 Hds].
    split; [by rewrite !app_comm_cons, <- !app_assoc|]. right.
    by apply (ends_digit_snoc (x :: sign)).
Qed.

Lemma ends_digit_edge (s : str) : ends_digit s -> exists b, last s = Some b /\ json_edge b = true.
Proof. intros (c & Hc & Hd). exists c. split; [done|by apply is_digit_edge]. Qed.

Lemma ends_digit_or (pre s : str) : ends_digit pre -> s = [] \/ ends_digit s -> ends_digit (pre ++ s).
Proof.
  intros Hp [->|Hs]; [by rewrite app_nil_r|by apply ends_digit_app].
Qed.

(** A number: its text starts with a minus sign or a digit and ends with
    a digit. *)
Lemma match_number_split (py : interpreter) (s : str) (v : json) (r : str) :
  match_number py s = Parsed v r ->
  exists body, s = body ++ r /\ value_text body.
Proof.
  unfold match_number.
  destruct (opt_char _ s) as [sign s1] eqn:Hsign.
  apply opt_char_split in Hsign as [Hs Hsign].
  destruct (int_part s1) as [[ip r1]|] eqn:Hip; [|done].
  destruct (int_part_split _ _ _ Hip) as (-> & Hend & (c & Hc & Hd)).
  destruct (frac_part r1) as [fp r2] eqn:Hfp.
  destruct (frac_part_split _ _ _ Hfp) as (-> & Hf).
  destruct (exp_part r2) as [ep r3] eqn:Hep.
  destruct (exp_part_split _ _ _ Hep) as (-> & He).
  intros Hr.
  assert (r = r3) as ->
    by (destruct fp, ep; try destruct (exceeds_digits _ _); by try injection Hr).
  exists (sign ++ ip ++ fp ++ ep). split; [by rewrite Hs, <- !app_assoc|].
  assert (Hlast : ends_digit (sign ++ ip ++ fp ++ ep)).
  { apply ends_digit_app. rewrite app_assoc.
    apply ends_digit_or; [|done]. by apply ends_digit_or. }
  destruct (ends_digit_edge _ Hlast) as (b & Hb & Hbe).
  destruct Hsign as [->|(m & -> & Hm)].
  - exists c, b. split; [by destruct ip|]. split; [done|]. split; [by apply is_digit_edge|done].
  - apply N.eqb_eq in Hm as ->.
    exists (ch "-"), b. split; [done|]. split; [done|]. split; [|done].
    by apply json_edge_range.
Qed.

#[local] Arguments ch : simpl never.
#[local] Arguments hex4 : simpl never.
#[local] Arguments low_escape : simpl never.
#[local] Arguments unescape : simpl never.

(** Closes a case of [scanstring_split]: the scan went on from a proper
    suffix, for which the induction hypothesis gives the closing quote. *)
Ltac scan_suffix IH :=
  let H := fresh "H" in
  let mid := fresh "mid" in
  intros H; eapply IH in H; [|reflexivity|simpl; lia];
  destruct H as [mid ->]; rewrite ?app_comm_cons; by eexists.

(** A string ends at a quote: the scan from after the opening quote runs
    up to a quote and leaves what follows it. *)
Lemma scanstring_split (s acc k r : str) :
  scanstring s acc = Some (k, r) -> exists mid, s = mid ++ QUOTE :: r.
Proof.
  remember (length s) as n eqn:Hn. revert s acc Hn.
  induction n as [n IH] using lt_wf_ind. intros s acc ->.
  assert (IH' : forall s' acc', scanstring s' acc' = Some (k, r) ->
                  forall m, m = length s' -> (m < length s)%nat ->
                  exists mid, s' = mid ++ QUOTE :: r).
  { intros s' acc' H m -> Hlt. by eapply IH. }
  clear IH. destruct s as [|c s1]; [done|]. simpl.
  destruct (N.eqb_spec c QUOTE) as [->|_].
  { intros [= <- <-]. by exists []. }
  destruct (c =? BACKSLASH)%N.
  - destruct s1 as [|x r1]; [done|].
    destruct (x =? ch "u")%N.
    + destruct r1 as [|h1 [|h2 [|h3 [|h4 r2]]]]; try done.
      destruct (hex4 h1 h2 h3 h4) as [u|]; [|done].
      destruct r2 as [|g1 [|g2 [|g3 [|g4 [|g5 [|g6 r3]]]]]]; try scan_suffix IH'.
      destruct (is_high_surrogate u); [|scan_suffix IH'].
      destruct (low_escape _) as [[lo ?]|]; scan_suffix IH'.
    + destruct (unescape x); [|done]. scan_suffix IH'.
  - destruct (c <=? 31)%N; [done|]. scan_suffix IH'.
Qed.

Lemma value_text_intro (a b : N) (mid : str) :
  json_edge a = true -> json_edge b = true -> value_text (a :: mid ++ [b]).
Proof.
  intros Ha Hb. exists a, b. split; [done|]. split; [|done].
  by rewrite app_comm_cons, last_snoc.
Qed.


(** Equal up to the bracketing of concatenations. *)
Ltac list_eq :=
  repeat progress (cbn [app]; rewrite <- ?app_assoc); reflexivity.

Lemma literal_split (s p : str) :
  startswith s p = true -> s = p ++ drop (length p) s.
Proof.
  intros H. apply startswith_inv in H as [r ->]. by rewrite drop_app_length.
Qed.

(** Closes a literal case of [scan_split]. *)
Ltac literal_case Hlit :=
  intros [= <- <-]; apply literal_split in Hlit;
  eexists; split; [exact Hlit|]; eexists _, _; repeat split.

Lemma last_app_tail {A} (l1 l2 : list A) (b : A) :
  last l2 = Some b -> last (l1 ++ l2) = Some b.
Proof.
  destruct l2 as [|x l2 _] using rev_ind; [done|].
  rewrite last_snoc. intros [= ->]. by rewrite app_assoc, last_snoc.
Qed.

(** The last character of a concatenation whose last part ends as [H] says. *)
Ltac last_tail H :=
  repeat first [ exact H | rewrite app_comm_cons | apply last_app_tail ].

Section DecoderFacts.

Variable py : interpreter.

(** What the three mutually recursive scanners have consumed, when they
    succeed: a value is a text with tight edges, the rest of an array ends
    with its bracket and the rest of an object with its brace. *)
Lemma scan_split (n : nat) :
  (forall depth s v r, scan_once py n depth s = Parsed v r ->
     exists body, s = body ++ r /\ value_text body) /\
  (forall depth s acc v r, parse_elems py n depth s acc = Parsed v r ->
     exists body, s = body ++ r /\ last body = Some (ch "]")) /\
  (forall depth s acc v r, parse_members py n depth s acc = Parsed v r ->
     exists body, s = body ++ r /\ last body = Some (ch "}")).
Proof.
  induction n as [|n (IHv & IHe & IHm)]; [by repeat split|].
  split; [|split].
  - intros depth s v r. cbn [scan_once].
    destruct s as [|c r0]; [done|].
    destruct (N.eqb_spec c QUOTE) as [->|_].
    { destruct (scanstring r0 []) as [[k r']|] eqn:Hs; [|by destruct depth as [|[|[|?]]]].
      intros [= <- <-]. apply scanstring_split in Hs as [mid ->].
      exists (QUOTE :: mid ++ [QUOTE]). split; [list_eq|].
      by apply value_text_intro; try apply json_edge_range. }
    destruct (N.eqb_spec c (ch "{")) as [->|_].
    { destruct depth as [|depth]; [done|].
      destruct (skip_ws_split r0) as (ws & Hr0 & _).
      destruct (skip_ws r0) as [|c' r']; [by destruct depth as [|[|[|?]]]|].
      destruct (N.eqb_spec c' (ch "}")) as [->|_].
      - intros [= <- <-]. exists (ch "{" :: ws ++ [ch "}"]).
        split; [rewrite Hr0; list_eq|]. by apply value_text_intro; try apply json_edge_range.
      - intros H. apply IHm in H as (body & Hb & Hl).
        exists (ch "{" :: ws ++ body). split; [rewrite Hr0, Hb; list_eq|].
        exists (ch "{"), (ch "}"). split; [done|]. split; [|done].
        last_tail Hl. }
    destruct (N.eqb_spec c (ch "[")) as [->|_].
    { destruct depth as [|depth]; [done|].
      destruct (skip_ws_split r0) as (ws & Hr0 & _).
      destruct (skip_ws r0) as [|c' r']; [done|].
      destruct (N.eqb_spec c' (ch "]")) as [->|_].
      - intros [= <- <-]. exists (ch "[" :: ws ++ [ch "]"]).
        split; [rewrite Hr0; list_eq|]. by apply value_text_intro; try apply json_edge_range.
      - intros H. apply IHe in H as (body & Hb & Hl).
        exists (ch "[" :: ws ++ body). split; [rewrite Hr0, Hb; list_eq|].
        exists (ch "["), (ch "]"). split; [done|]. split; [|done].
        last_tail Hl. }
    destruct (startswith _ (lit "null")) eqn:H1; [literal_case H1|].
    destruct (startswith _ (lit "true")) eqn:H2; [literal_case H2|].
    destruct (startswith _ (lit "false")) eqn:H3; [literal_case H3|].
    destruct (startswith _ (lit "NaN")) eqn:H4; [literal_case H4|].
    destruct (startswith _ (lit "Infinity")) eqn:H5; [literal_case H5|].
    destruct (startswith _ (lit "-Infinity")) eqn:H6; [literal_case H6|].
    apply match_number_split.
  - intros depth s acc v r. cbn [parse_elems].
    destruct (scan_once py n depth s) as [x r1| | |] eqn:Hv; try done.
    apply IHv in Hv as (body & -> & _).
    destruct (skip_ws_split r1) as (ws & Hr1 & _).
    destruct (skip_ws r1) as [|c r']; [by destruct depth as [|[|[|?]]]|].
    destruct (N.eqb_spec c (ch "]")) as [->|_].
    + intros [= <- <-]. exists (body ++ ws ++ [ch "]"]).
      split; [rewrite Hr1; list_eq|]. by rewrite !app_assoc, last_snoc.
    + destruct (N.eqb_spec c (ch ",")) as [->|_]; [|by destruct depth as [|[|[|?]]]].
      intros H. apply IHe in H as (body' & Hb & Hl).
      destruct (skip_ws_split r') as (ws' & Hr' & _).
      exists (body ++ ws ++ ch "," :: ws' ++ body').
      split; [rewrite Hr1, Hr', Hb; list_eq|].
      last_tail Hl.
  - intros depth s acc v r. cbn [parse_members].
    assert (Hrefuse : refuse depth <> Parsed v r) by (by destruct depth as [|[|[|?]]]).
    destruct s as [|q r0]; [done|].
    destruct (N.eqb_spec q QUOTE) as [->|_]; [|done].
    destruct (scanstring r0 []) as [[k r1]|] eqn:Hs; [|done].
    apply scanstring_split in Hs as [mid ->].
    destruct (skip_ws_split r1) as (ws1 & Hr1 & _).
    destruct (skip_ws r1) as [|c r2]; [done|].
    destruct (N.eqb_spec c (ch ":")) as [->|_]; [|done].
    destruct (skip_ws_split r2) as (ws2 & Hr2 & _).
    destruct (scan_once py n depth (skip_ws r2)) as [x r3| | |] eqn:Hv; try done.
    apply IHv in Hv as (body & Hbody & _).
    destruct (skip_ws_split r3) as (ws3 & Hr3 & _).
    destruct (skip_ws r3) as [|c' r4]; [done|].
    assert (Hs : QUOTE :: (mid ++ QUOTE :: r1)
                 = (QUOTE :: mid ++ QUOTE :: ws1 ++ ch ":" :: ws2 ++ body ++ ws3) ++ c' :: r4).
    { rewrite Hr1, Hr2, Hbody, Hr3. list_eq. }
    rewrite Hs. clear Hs.
    destruct (N.eqb_spec c' (ch "}")) as [->|_].
    + intros [= <- <-].
      exists ((QUOTE :: mid ++ QUOTE :: ws1 ++ ch ":" :: ws2 ++ body ++ ws3) ++ [ch "}"]).
      split; [list_eq|]. by rewrite last_snoc.
    + destruct (N.eqb_spec c' (ch ",")) as [->|_]; [|done].
      intros H. apply IHm in H as (body' & Hb & Hl).
      destruct (skip_ws_split r4) as (ws4 & Hr4 & _).
      exists ((QUOTE :: mid ++ QUOTE :: ws1 ++ ch ":" :: ws2 ++ body ++ ws3)
                ++ ch "," :: ws4 ++ body').
      split; [rewrite Hr4, Hb; list_eq|].
      last_tail Hl.
Qed.

(** ** The decoder: the fuel of the model is never used up *)

Lemma skip_ws_length (s : str) : (length (skip_ws s) <= length s)%nat.
Proof.
  destruct (skip_ws_split s) as (ws & Hs & _).
  rewrite Hs at 2. rewrite length_app. lia.
Qed.

Lemma value_text_length (body : str) : value_text body -> (0 < length body)%nat.
Proof. intros (a & b & Ha & _). destruct body; [done|simpl; lia]. Qed.

Lemma scan_once_rest (n depth : nat) (s : str) (v : json) (r : str) :
  scan_once py n depth s = Parsed v r -> (length r < length s)%nat.
Proof.
  intros H. apply (proj1 (scan_split n)) in H as (body & -> & Hb).
  apply value_text_length in Hb. rewrite length_app. lia.
Qed.

Lemma refuse_fuel (depth : nat) : refuse depth <> NoFuel.
Proof. by destruct depth as [|[|[|?]]]. Qed.

Lemma scan_fuel (n : nat) :
  (forall depth s, (2 * length s + 1 <= n)%nat -> scan_once py n depth s <> NoFuel) /\
  (forall depth s acc, (2 * length s + 2 <= n)%nat -> parse_elems py n depth s acc <> NoFuel) /\
  (forall depth s acc, (2 * length s + 2 <= n)%nat -> parse_members py n depth s acc <> NoFuel).
Proof.
  induction n as [|n (IHv & IHe & IHm)]; [repeat split; intros; lia|].
  split; [|split].
  - intros depth s Hn. cbn [scan_once].
    destruct s as [|c r0]; [done|]. simpl length in Hn.
    pose proof (skip_ws_length r0) as Hws.
    destruct (c =? QUOTE)%N;
      [destruct (scanstring r0 []) as [[? ?]|]; [done|apply refuse_fuel]|].
    destruct (c =? ch "{")%N.
    { destruct depth as [|depth]; [done|].
      destruct (skip_ws r0) as [|c' r'] eqn:Hr; [apply refuse_fuel|].
      destruct (c' =? ch "}")%N; [done|]. apply IHm. lia. }
    destruct (c =? ch "[")%N.
    { destruct depth as [|depth]; [done|].
      destruct (skip_ws r0) as [|c' r'] eqn:Hr; [done|].
      destruct (c' =? ch "]")%N; [done|]. apply IHe. lia. }
    repeat (destruct (startswith _ _); [done|]).
    unfold match_number. destruct (opt_char _ _) as [sign s1].
    destruct (int_part s1) as [[ip r1]|]; [|done].
    destruct (frac_part r1) as [fp r2]. destruct (exp_part r2) as [ep r3].
    destruct fp, ep; try done. by destruct (exceeds_digits _ _).
  - intros depth s acc Hn. cbn [parse_elems].
    pose proof (IHv depth s ltac:(lia)) as Hv.
    destruct (scan_once py n depth s) as [x r1| | |] eqn:Hs; [|done|done|done].
    apply scan_once_rest in Hs. pose proof (skip_ws_length r1) as Hws.
    destruct (skip_ws r1) as [|c r']; [apply refuse_fuel|]. simpl length in Hws.
    destruct (c =? ch "]")%N; [done|].
    destruct (c =? ch ",")%N; [|apply refuse_fuel].
    apply IHe. pose proof (skip_ws_length r'). lia.
  - intros depth s acc Hn. cbn [parse_members].
    pose proof (refuse_fuel depth) as Hrefuse.
    destruct s as [|q r0]; [done|]. simpl length in Hn.
    destruct (q =? QUOTE)%N; [|done].
    destruct (scanstring r0 []) as [[k r1]|] eqn:Hk; [|done].
    apply scanstring_split in Hk as [mid ->].
    rewrite length_app in Hn. simpl length in Hn.
    pose proof (skip_ws_length r1) as Hws1.
    destruct (skip_ws r1) as [|c r2]; [done|]. simpl length in Hws1.
    destruct (c =? ch ":")%N; [|done].
    pose proof (skip_ws_length r2) as Hws2.
    pose proof (IHv depth (skip_ws r2) ltac:(lia)) as Hv.
    destruct (scan_once py n depth (skip_ws r2)) as [x r3| | |] eqn:Hs; [|done|done|done].
    apply scan_once_rest in Hs. pose proof (skip_ws_length r3) as Hws3.
    destruct (skip_ws r3) as [|c' r4]; [done|]. simpl length in Hws3.
    destruct (c' =? ch "}")%N; [done|]. destruct (c' =? ch ",")%N; [|done].
    apply IHm. pose proof (skip_ws_length r4). lia.
Qed.

(** What stops a scan is the recursion limit or the digit limit. *)
Lemma refuse_stopped (depth : nat) (x : exn) : refuse depth = Stopped x -> limit_error x.
Proof. destruct depth as [|[|[|?]]]; intros [= <-] || done; by left. Qed.

Lemma scan_stopped (n : nat) :
  (forall depth s x, scan_once py n depth s = Stopped x -> limit_error x) /\
  (forall depth s acc x, parse_elems py n depth s acc = Stopped x -> limit_error x) /\
  (forall depth s acc x, parse_members py n depth s acc = Stopped x -> limit_error x).
Proof.
  induction n as [|n (IHv & IHe & IHm)]; [by repeat split|].
  split; [|split].
  - intros depth s x. cbn [scan_once].
    destruct s as [|c r0]; [done|].
    destruct (c =? QUOTE)%N;
      [destruct (scanstring r0 []) as [[? ?]|]; [done|apply refuse_stopped]|].
    destruct (c =? ch "{")%N.
    { destruct depth as [|depth]; [intros [= <-]; by left|].
      destruct (skip_ws r0) as [|c' r']; [apply refuse_stopped|].
      destruct (c' =? ch "}")%N; [done|]. apply IHm. }
    destruct (c =? ch "[")%N.
    { destruct depth as [|depth]; [intros [= <-]; by left|].
      destruct (skip_ws r0) as [|c' r']; [done|].
      destruct (c' =? ch "]")%N; [done|]. apply IHe. }
    repeat (destruct (startswith _ _); [done|]).
    unfold match_number. destruct (opt_char _ _) as [sign s1].
    destruct (int_part s1) as [[ip r1]|]; [|done].
    destruct (frac_part r1) as [fp r2]. destruct (exp_part r2) as [ep r3].
    destruct fp, ep; try done. destruct (exceeds_digits _ _); [|done].
    intros [= <-]. by right.
  - intros depth s acc x. cbn [parse_elems].
    destruct (scan_once py n depth s) as [v r1| | |y] eqn:Hs; [|done|done|].
    + destruct (skip_ws r1) as [|c r']; [apply refuse_stopped|].
      destruct (c =? ch "]")%N; [done|].
      destruct (c =? ch ",")%N; [apply IHe|apply refuse_stopped].
    + intros [= <-]. by eapply IHv.
  - intros depth s acc x. cbn [parse_members].
    pose proof (refuse_stopped depth x) as Hrefuse.
    destruct s as [|q r0]; [done|].
    destruct (q =? QUOTE)%N; [|done].
    destruct (scanstring r0 []) as [[k r1]|]; [|done].
    destruct (skip_ws r1) as [|c r2]; [done|].
    destruct (c =? ch ":")%N; [|done].
    destruct (scan_once py n depth (skip_ws r2)) as [v r3| | |y] eqn:Hs; [|done|done|].
    + destruct (skip_ws r3) as [|c' r4]; [done|].
      destruct (c' =? ch "}")%N; [done|]. destruct (c' =? ch ",")%N; [apply IHm|done].
    + intros [= <-]. by eapply IHv.
Qed.

(** [json.loads] returns a value or raises one of three exceptions: the
    fuel given to the scanner always suffices. *)
Lemma json_loads_fuel_free (s : str) :
  (exists v, json_loads py s = Return v) \/
  json_loads py s = Raise JSONDecodeError \/
  json_loads py s = Raise RecursionError \/
  json_loads py s = Raise ValueError.
Proof.
  unfold json_loads, decode. destruct (startswith s [BOM]); [by right; left|].
  pose proof (proj1 (scan_fuel (2 * length s + 1)) (recursion_remaining py + 3)%nat (skip_ws s))
    as Hf.
  pose proof (skip_ws_length s) as Hl.
  destruct (scan_once _ _ _ _) as [v r| | |x] eqn:Hs.
  - destruct (skip_ws r); [left; by exists v|by right; left].
  - by right; left.
  - destruct Hf; [lia|done].
  - apply (proj1 (scan_stopped _)) in Hs as [-> | ->]; right; right; [by left|by right].
Qed.

(** A text that [json.loads] accepts is one value with JSON white space
    around it. *)
Lemma json_loads_text (d : str) (v : json) :
  json_loads py d = Return v ->
  exists ws1 body ws2,
    d = ws1 ++ body ++ ws2 /\ all_ws ws1 /\ all_ws ws2 /\ value_text body.
Proof.
  unfold json_loads, decode. destruct (startswith d [BOM]); [done|].
  destruct (skip_ws_split d) as (ws1 & Hd & Hws1).
  destruct (scan_once _ _ _ _) as [x r| | |] eqn:Hs; [|done|done|done].
  apply (proj1 (scan_split _)) in Hs as (body & Hb & Hbody).
  destruct (skip_ws_split r) as (ws2 & Hr & Hws2).
  destruct (skip_ws r); [|done]. intros _.
  exists ws1, body, ws2. rewrite app_nil_r in Hr.
  split; [by rewrite Hd at 1; rewrite Hb, Hr|done].
Qed.

End DecoderFacts.

(** ** C1, C9, C4: the topic selector *)

Section Selector.

Variable py : interpreter.
Variable e : env.

(** The selector, given the reply that the completion call returned. *)
Lemma pick_best_topic_reply (topics : list candidate) (response : json) (w w' : world) :
  call_groq_api e (TopicPickerPrompt topics) w = (Return response, w') ->
  pick_best_topic py e topics w = (parse_decision py topics response, w').
Proof. intros H. unfold pick_best_topic, mbind'. by rewrite H. Qed.

Lemma print_cases (text : str) :
  (print text = Return tt /\ existsb is_surrogate text = false) \/
  (print text = Raise UnicodeEncodeError /\ existsb is_surrogate text = true).
Proof. unfold print. destruct (existsb is_surrogate text); [by right|by left]. Qed.

(** [print] of a rendered value fails on a string with a surrogate only. *)
Lemma print_value_cases (v : json) :
  print_value v = Return tt \/
  (print_value v = Raise UnicodeEncodeError /\
   exists s, v = JString s /\ existsb is_surrogate s = true).
Proof.
  destruct v as [| | | |s| |]; try by left. cbn [print_value].
  destruct (print_cases s) as [[-> _]|[-> Hs]]; [by left|right]. split; [done|by exists s].
Qed.

(** It returns [v] itself or raises one of three exceptions, the third
    on a surrogate in one of the two printed strings. *)
Lemma after_decoding_cases (v : json) :
  after_decoding v = Return v \/
  after_decoding v = Raise TypeError \/
  after_decoding v = Raise KeyError \/
  (after_decoding v = Raise UnicodeEncodeError /\
   exists d s, v = JObject d /\
     ((dict_get d (lit "selected_topic") = Some (JString s) /\
       existsb is_surrogate (take 50 s) = true) \/
      (dict_get d (lit "post_angle") = Some (JString s) /\
       existsb is_surrogate s = true))).
Proof.
  unfold after_decoding.
  destruct v as [| | | | | |d]; try by right; left. cbn [getitem_str].
  destruct (dict_get d (lit "selected_topic")) as [selected|] eqn:Hsel;
    [|by right; right; left].
  cbn [bind].
  assert (Hshown : (exists shown, slice_to selected 50 = Return shown /\
                      (forall s, shown = JString s ->
                                 exists s', selected = JString s' /\ s = take 50 s')) \/
                   slice_to selected 50 = Raise TypeError).
  { destruct selected as [| | | |s'|l|]; try by right.
    - left. eexists. split; [reflexivity|]. intros s [= <-]. exists s'.
      split; [done|]. apply (slice_prefix _ 50).
    - left. eexists. split; [reflexivity|]. by intros s. }
  destruct Hshown as [(shown & -> & Hshown)| ->]; [|by right; left]. cbn [bind].
  destruct (print_value_cases shown) as [-> |[-> (s & -> & Hs)]]; cbn [bind].
  - destruct (dict_get d (lit "post_angle")) as [angle|] eqn:Hang;
      [|by right; right; left].
    cbn [bind].
    destruct (print_value_cases angle) as [-> |[-> (s & -> & Hs)]]; cbn [bind]; [by left|].
    right; right; right. split; [done|]. exists d, s. split; [done|]. by right.
  - right; right; right. split; [done|].
    destruct (Hshown s eq_refl) as (s' & -> & ->). exists d, s'. split; [done|]. by left.
Qed.

(** The [try] block on a reply whose cleaned text decodes to [v]: the
    handler is not entered. *)
Lemma parse_decision_valid (topics : list candidate) (reply : str) (v : json) :
  json_loads py (strip (strip_fences reply)) = Return v ->
  parse_decision py topics (JString reply) = after_decoding v.
Proof.
  intros Hv. unfold parse_decision. cbn [as_str bind]. rewrite Hv. cbn [bind].
  fold (after_decoding v).
  by destruct (after_decoding_cases v) as [-> |[-> |[-> |[-> _]]]].
Qed.

Lemma parse_decision_invalid (topics : list candidate) (reply : str) :
  json_loads py (strip (strip_fences reply)) = Raise JSONDecodeError ->
  parse_decision py topics (JString reply) = fallback_decision topics.
Proof. intros Hv. unfold parse_decision. cbn [as_str bind]. by rewrite Hv. Qed.




End Selector.




(** C9, as stated, fails on a reply that decodes to an object with a
    selected topic holding a lone surrogate and without an angle: the
    exception that leaves the selector is the UnicodeEncodeError of
    [print], raised before the angle is looked up. *)
Lemma pick_best_topic_valid_json_counterexample :
  let topics := [Candidate (lit "Compose 2.0") [] None None] in
  let reply := dq "{'selected_topic': '\ud800'}" in
  exists d,
    json_loads sample_py reply = Return (JObject d) /\
    dict_get d (lit "selected_topic") = Some (JString [55296%N]) /\
    dict_get d (lit "post_angle") = None /\
    (pick_best_topic sample_py (sample_env reply [] (Raise RequestError)) topics
       (World Missing [])).1
      = Raise UnicodeEncodeError.
Proof. eexists. vm_compute. repeat split. Qed.

Example pick_best_topic_missing_key :
  (pick_best_topic sample_py (sample_env (dq "{'selected_topic': 'X'}") [] (Raise RequestError))
     [Candidate (lit "Compose 2.0") [] None None] (World Missing [])).1
  = Raise KeyError.
Proof. vm_compute. reflexivity. Qed.

(** ** C4: code fences around a JSON document *)

Lemma json_edge_space (c : N) : json_edge c = true -> isspace c = false.
Proof. unfold json_edge. intros H. apply andb_true_iff in H as [H _]. by apply negb_true_iff. Qed.

Lemma json_edge_tick (c : N) : json_edge c = true -> c <> ch "`".
Proof.
  unfold json_edge. intros H. apply andb_true_iff in H as [_ H].
  apply negb_true_iff in H. by apply N.eqb_neq.
Qed.

Lemma space_tick (c : N) : isspace c = true -> c <> ch "`".
Proof. by intros H ->. Qed.

Lemma value_text_tight (body : str) : value_text body -> tight body.
Proof.
  intros (a & b & Ha & Hb & Hea & Heb).
  split; [exists a|exists b]; split; auto using json_edge_space.
Qed.

(** White space and then a value: the first character is no backtick. *)
Lemma head_no_tick (ws body rest : str) :
  all_space ws -> value_text body ->
  exists a, head (ws ++ body ++ rest) = Some a /\ a <> ch "`".
Proof.
  intros Hws (a & b & Ha & _ & Hea & _).
  destruct ws as [|c ws].
  - exists a. split; [by destruct body|by apply json_edge_tick].
  - exists c. split; [done|]. apply space_tick. by apply Forall_inv in Hws.
Qed.

Lemma strip_fences_plain (body : str) :
  value_text body -> strip_fences body = body.
Proof.
  intros Hb. pose proof (value_text_tight _ Hb) as Ht.
  destruct Hb as (a & b & Ha & Hb & Hea & Heb).
  unfold strip_fences. rewrite (strip_tight_id _ Ht).
  rewrite (startswith_head_ne body (lit "```json") a (ch "`")); [|done|done|by apply json_edge_tick].
  rewrite (startswith_head_ne body (lit "```") a (ch "`")); [|done|done|by apply json_edge_tick].
  rewrite (endswith_last_ne body (lit "```") b (ch "`")); [done|done|done|by apply json_edge_tick].
Qed.

Lemma strip_fences_strip (s body : str) :
  strip s = body -> tight body -> strip_fences s = strip_fences body.
Proof.
  intros Hs Ht. unfold strip_fences. by rewrite Hs, (strip_tight_id _ Ht).
Qed.

(** The selector's cleaning of a JSON document is the value it holds. *)
Lemma clean_document (ws1 body ws2 : str) :
  all_space ws1 -> all_space ws2 -> value_text body ->
  strip (strip_fences (ws1 ++ body ++ ws2)) = body.
Proof.
  intros H1 H2 Hb. pose proof (value_text_tight _ Hb) as Ht.
  assert (Hs : strip_fences (ws1 ++ body ++ ws2) = body).
  { rewrite (strip_fences_strip _ body); [by apply strip_fences_plain| |done].
    by apply strip_tight. }
  rewrite Hs. by apply strip_tight_id.
Qed.

(** The same for the document between [```json] and [```]. *)
Lemma clean_fenced (ws1 body ws2 : str) :
  all_space ws1 -> all_space ws2 -> value_text body ->
  strip (strip_fences (lit "```json" ++ (ws1 ++ body ++ ws2) ++ lit "```")) = body.
Proof.
  intros H1 H2 Hb. pose proof (value_text_tight _ Hb) as Ht.
  set (inner := ws1 ++ body ++ ws2).
  assert (Htight : tight (lit "```json" ++ inner ++ lit "```")).
  { split; [by exists (ch "`")|]. exists (ch "`"). split; [|done].
    by do 2 apply last_app_tail. }
  unfold strip_fences. rewrite (strip_tight_id _ Htight).
  rewrite startswith_app.
  rewrite (slice_from _ 7). rewrite (drop_app_length (lit "```json")).
  destruct (head_no_tick ws1 body (ws2 ++ lit "```") H1 Hb) as (a & Ha & Hne).
  rewrite (startswith_head_ne (inner ++ lit "```") (lit "```") a (ch "`"));
    [|by unfold inner; rewrite <- !app_assoc|done|done].
  rewrite endswith_app.
  rewrite (slice_drop_last _ 3) by lia.
  rewrite length_app. change (length (lit "```")) with 3%nat.
  replace (length inner + 3 - 3)%nat with (length inner) by lia.
  rewrite take_app_length. by apply strip_tight.
Qed.

Lemma parse_decision_fenced (py : interpreter) (topics : list candidate) (d ws ws' : str)
    (v : json) :
  json_loads py d = Return v -> all_space ws -> all_space ws' ->
  parse_decision py topics (JString (lit "```json" ++ ws ++ d ++ ws' ++ lit "```"))
  = parse_decision py topics (JString d).
Proof.
  intros Hd Hws Hws'.
  destruct (json_loads_text py d v Hd) as (j1 & body & j2 & -> & Hj1 & Hj2 & Hb).
  apply all_ws_space in Hj1, Hj2.
  assert (Hf : strip (strip_fences (lit "```json" ++ ws ++ (j1 ++ body ++ j2) ++ ws' ++ lit "```"))
               = body).
  { replace (ws ++ (j1 ++ body ++ j2) ++ ws' ++ lit "```")
      with (((ws ++ j1) ++ body ++ (j2 ++ ws')) ++ lit "```") by list_eq.
    apply clean_fenced; auto using all_space_app. }
  unfold parse_decision. cbn [as_str bind].
  by rewrite Hf, (clean_document j1 body j2).
Qed.

(** C4. For a JSON document [d], the selector answers a reply made of
    [d] between a [```json] fence and a [```] fence, with or without white
    space inside the fences, exactly as it answers the reply [d]. *)
Theorem pick_best_topic_fenced (py : interpreter) (e1 e2 : env) (topics : list candidate)
    (d ws ws' : str) (v : json) (w1 w1' w2 w2' : world) :
  json_loads py d = Return v ->
  all_space ws -> all_space ws' ->
  call_groq_api e1 (TopicPickerPrompt topics) w1
    = (Return (JString (lit "```json" ++ ws ++ d ++ ws' ++ lit "```")), w1') ->
  call_groq_api e2 (TopicPickerPrompt topics) w2 = (Return (JString d), w2') ->
  (pick_best_topic py e1 topics w1).1 = (pick_best_topic py e2 topics w2).1 /\
  parse_decision py topics (JString (lit "```json" ++ ws ++ d ++ ws' ++ lit "```"))
    = parse_decision py topics (JString d).
Proof.
  intros Hd Hws Hws' H1 H2.
  rewrite (pick_best_topic_reply py _ _ _ _ _ H1), (pick_best_topic_reply py _ _ _ _ _ H2).
  cbn [fst]. by rewrite (parse_decision_fenced py topics d ws ws' v).
Qed.

Lemma pick_best_topic_fenced_witness :
  let d := dq "{'selected_topic': 'X', 'post_angle': 'Y'}" in
  let topics := [Candidate (lit "Compose 2.0") [] None None] in
  (pick_best_topic sample_py
     (sample_env (lit "```json" ++ [10%N] ++ d ++ [10%N] ++ lit "```") []
        (Raise RequestError)) topics (World Missing [])).1
  = (pick_best_topic sample_py (sample_env d [] (Raise RequestError)) topics
       (World Missing [])).1.
Proof.
  intros d topics.
  apply (pick_best_topic_fenced sample_py
           (sample_env (lit "```json" ++ [10%N] ++ d ++ [10%N] ++ lit "```") []
              (Raise RequestError))
           (sample_env d [] (Raise RequestError)) topics d [10%N] [10%N]
           (JObject [ (lit "selected_topic", JString (lit "X"));
                      (lit "post_angle", JString (lit "Y")) ])
           (World Missing []) (World Missing [GroqPost (TopicPickerPrompt topics)])
           (World Missing []) (World Missing [GroqPost (TopicPickerPrompt topics)])).
  - vm_compute. reflexivity.
  - repeat constructor.
  - repeat constructor.
  - reflexivity.
  - reflexivity.
Defined.

Example pick_best_topic_fenced_value :
  (pick_best_topic sample_py
     (sample_env (lit "```json" ++ dq "{'selected_topic': 'X', 'post_angle': 'Y'}" ++ lit "```")
        [] (Raise RequestError))
     [Candidate (lit "Compose 2.0") [] None None] (World Missing [])).1
  = Return (JObject [ (lit "selected_topic", JString (lit "X"));
                      (lit "post_angle", JString (lit "Y")) ]).
Proof. vm_compute. reflexivity. Qed.

(** * Further properties *)

(** ** The search stage *)

Lemma collect_results_queries (feed : str -> outcome feed_response) :
  collect_results feed =
    query_results (feed (lit "Android development trends 2025")) ++
    query_results (feed (lit "Kotlin new features latest")) ++
    query_results (feed (lit "Jetpack Compose updates")).
Proof.
  unfold collect_results. rewrite (slice_prefix _ 3). unfold SEARCH_QUERIES.
  cbn [take fold_left app]. by rewrite <- app_assoc.
Qed.

Lemma item_candidate_length (item : rss_item) : (length (item_candidate item) <= 1)%nat.
Proof. unfold item_candidate. destruct (item_title item); simpl; lia. Qed.

Lemma flat_map_item_length (items : list rss_item) :
  (length (flat_map item_candidate items) <= length items)%nat.
Proof.
  induction items as [|x items IH]; [done|]. simpl. rewrite length_app.
  pose proof (item_candidate_length x). lia.
Qed.

Lemma query_results_length (answer : outcome feed_response) :
  (length (query_results answer) <= 3)%nat.
Proof.
  unfold query_results. destruct answer as [response|x]; [|simpl; lia].
  destruct (feed_status response =? 200); [|simpl; lia].
  destruct (feed_items response) as [items|x]; [|simpl; lia].
  etrans; [apply flat_map_item_length|].
  rewrite (slice_prefix _ 3), length_take. lia.
Qed.

Lemma query_results_body (answer : outcome feed_response) (r : candidate) :
  r ∈ query_results answer -> (length (body r) <= 200)%nat.
Proof.
  unfold query_results. destruct answer as [response|x]; [|by intros ?%elem_of_nil].
  destruct (feed_status response =? 200); [|by intros ?%elem_of_nil].
  destruct (feed_items response) as [items|x]; [|by intros ?%elem_of_nil].
  intros Hin. apply list_elem_of_In, in_flat_map in Hin as (item & _ & Hin).
  unfold item_candidate in Hin. destruct (item_title item); [|done].
  destruct Hin as [<-|[]]. simpl.
  destruct (item_description item); [|simpl; lia].
  rewrite (slice_prefix _ 200), length_take. lia.
Qed.

Lemma query_failed_results (answer : outcome feed_response) :
  query_failed answer -> query_results answer = [].
Proof.
  unfold query_failed, query_results. destruct answer as [response|x]; [|done].
  intros [Hs|[x Hx]].
  - by destruct (Z.eqb_spec (feed_status response) 200).
  - rewrite Hx. by destruct (_ =? _).
Qed.

(** X1. The feed loop asks the first three queries only and keeps three
    items at most of each answer: nine candidates at most, each with a
    body of 200 characters at most, and two feeds that agree on the first
    three queries give the same candidates. *)
Theorem collect_results_bounds (feed : str -> outcome feed_response) :
  (length (collect_results feed) <= 9)%nat /\
  Forall (fun r => (length (body r) <= 200)%nat) (collect_results feed) /\
  (forall feed' : str -> outcome feed_response,
     (forall q, q ∈ take 3 SEARCH_QUERIES -> feed' q = feed q) ->
     collect_results feed' = collect_results feed).
Proof.
  split; [|split].
  - rewrite collect_results_queries, !length_app.
    pose proof (query_results_length (feed (lit "Android development trends 2025"))).
    pose proof (query_results_length (feed (lit "Kotlin new features latest"))).
    pose proof (query_results_length (feed (lit "Jetpack Compose updates"))). lia.
  - rewrite collect_results_queries. apply Forall_forall. intros r.
    rewrite !elem_of_app. intros [H|[H|H]]; by eapply query_results_body.
  - intros feed' Hagree. rewrite !collect_results_queries.
    rewrite !Hagree; [done|..]; unfold SEARCH_QUERIES; cbn [take];
      repeat first [apply list_elem_of_here | apply list_elem_of_further].
Qed.

(** X2. The candidates are collected in the order of the queries, those
    of one query in the order of its items, whatever the outcome of the
    other queries; and a query that fails is skipped and takes nothing
    from the others: it counts as one answered with no item. *)
Theorem collect_results_isolated (feed : str -> outcome feed_response) :
  collect_results feed =
    query_results (feed (lit "Android development trends 2025")) ++
    query_results (feed (lit "Kotlin new features latest")) ++
    query_results (feed (lit "Jetpack Compose updates")) /\
  collect_results feed = flat_map (fun q => query_results (feed q)) (take 3 SEARCH_QUERIES) /\
  (forall q, q ∈ take 3 SEARCH_QUERIES -> query_failed (feed q) ->
     collect_results
       (fun q' => if bool_decide (q' = q) then Return (FeedResponse 200 (Return [])) else feed q')
     = collect_results feed).
Proof.
  split; [apply collect_results_queries|]. split.
  { rewrite collect_results_queries. unfold SEARCH_QUERIES. cbn [take flat_map].
    by rewrite app_nil_r. }
  intros q Hq Hf. unfold SEARCH_QUERIES in Hq. cbn [take] in Hq.
  rewrite !elem_of_cons in Hq. destruct Hq as [->|[->|[->|Hq]]];
    [| | |by apply elem_of_nil in Hq].
  all: rewrite !collect_results_queries;
    repeat match goal with
           | |- context [bool_decide (?a = ?b)] =>
               first [ rewrite (bool_decide_eq_true_2 (a = b)) by reflexivity
                     | rewrite (bool_decide_eq_false_2 (a = b)) by (vm_compute; discriminate) ]
           end;
    by rewrite (query_failed_results _ Hf).
Qed.

Lemma collect_results_isolated_witness :
  collect_results
    (fun q' => if bool_decide (q' = lit "Android development trends 2025")
               then Return (FeedResponse 200 (Return [])) else sample_feed q')
  = collect_results sample_feed.
Proof.
  apply (collect_results_isolated sample_feed).
  - vm_compute. apply list_elem_of_here.
  - exact I.
Defined.

Example collect_results_sample :
  collect_results sample_feed
  = [ Candidate [] [] (Some (lit "Google News")) (Some (lit "recent"));
      Candidate (lit "Kotlin 2.2") [] (Some (lit "Blog")) (Some (lit "Mon")) ].
Proof. vm_compute. reflexivity. Qed.

Example search_feed_sample :
  search_feed lower_ascii sample_feed
  = [ Candidate (lit "Kotlin 2.2") [] (Some (lit "Blog")) (Some (lit "Mon")) ].
Proof. vm_compute. reflexivity. Qed.

(** X3. When each of the three queries fails, the search returns the
    fallback catalogue. *)
Theorem search_feed_all_failed (lower : str -> str) (feed : str -> outcome feed_response) :
  (forall q, q ∈ take 3 SEARCH_QUERIES -> query_failed (feed q)) ->
  collect_results feed = [] /\ search_feed lower feed = get_fallback_topics.
Proof.
  intros Hf.
  assert (Hc : collect_results feed = []).
  { rewrite collect_results_queries.
    rewrite !query_failed_results; [done|..]; apply Hf; unfold SEARCH_QUERIES; cbn [take];
      repeat first [apply list_elem_of_here | apply list_elem_of_further]. }
  split; [done|]. unfold search_feed. by rewrite Hc.
Qed.

Lemma search_feed_all_failed_witness :
  search_feed lower_ascii (fun _ => Raise RequestError) = get_fallback_topics.
Proof.
  apply (search_feed_all_failed lower_ascii (fun _ => Raise RequestError)).
  intros q _. exact I.
Defined.

Section SearchMore.

Variable lower : str -> str.

Local Abbreviation key := (title_key lower).

(** X4. The search never returns an empty list: between one and five
    candidates. *)
Theorem search_trending_topics_nonempty (all_results : list candidate) :
  search_trending_topics lower all_results <> [] /\
  (1 <= length (search_trending_topics lower all_results) <= 5)%nat.
Proof.
  unfold search_trending_topics.
  destruct (unique_results (dedup_loop lower all_results)) as [|r l];
    rewrite (slice_prefix _ 5); [split; [done|simpl; lia]|].
  split; [done|]. rewrite length_take. cbn [length]. lia.
Qed.

(** X5. Results collected later never displace earlier ones: the
    de-duplicated list of a longer input starts with that of the shorter
    input, and what it adds comes from the added part and has fresh
    lower-cased titles. *)
Theorem dedup_loop_app (l l' : list candidate) :
  exists more,
    unique_results (dedup_loop lower (l ++ l'))
      = unique_results (dedup_loop lower l) ++ more /\
    sublist more l' /\
    Forall (fun r => key r ∉ map key (unique_results (dedup_loop lower l))) more.
Proof.
  exists (first_from lower l l').
  assert (Hseen : forall k, k ∈ seen_titles (dedup_loop lower l) <-> k ∈ map key (titled l)).
  { destruct (dedup_loop_from lower l [] (DedupState ∅ [])) as [_ H]; [|done].
    intros k. simpl. set_solver. }
  split.
  - unfold dedup_loop at 1. rewrite fold_left_app. fold (dedup_loop lower l).
    by destruct (dedup_loop_from lower l' l (dedup_loop lower l) Hseen) as [-> _].
  - split; [apply first_from_sublist|].
    apply Forall_forall. intros r Hr Hin. apply first_from_keys in Hr. apply Hr.
    rewrite dedup_loop_first_occurrences in Hin. unfold first_occurrences in Hin.
    apply list_elem_of_fmap in Hin as (y & -> & Hy).
    apply list_elem_of_fmap. exists y. split; [done|].
    pose proof (first_from_sublist lower [] l) as Hsub.
    pose proof (first_from_titled lower [] l) as Ht.
    unfold titled. apply list_elem_of_filter. split.
    + by apply (proj1 (Forall_forall _ _) Ht).
    + by eapply elem_of_sublist.
Qed.

Lemma first_from_fixed (pre l : list candidate) :
  Forall (fun r => title r <> []) l ->
  NoDup (map key l) ->
  (forall r, r ∈ l -> key r ∉ map key (titled pre)) ->
  first_from lower pre l = l.
Proof.
  revert pre. induction l as [|x l IH]; intros pre Ht Hnd Hpre; [done|].
  apply Forall_cons in Ht as [Hx Ht]. simpl in Hnd. apply NoDup_cons in Hnd as [Hnx Hnd].
  simpl. unfold is_first. rewrite (proj2 (truthy_spec _) Hx).
  rewrite bool_decide_eq_true_2 by (apply Hpre; apply list_elem_of_here).
  simpl. f_equal. apply IH; [done|done|].
  intros r Hr. unfold titled. rewrite filter_app, map_app, elem_of_app.
  intros [Hin|Hin]; [by apply (Hpre r); [apply list_elem_of_further|]|].
  rewrite filter_cons_True in Hin by done. rewrite filter_nil in Hin.
  apply list_elem_of_singleton in Hin. apply Hnx. rewrite <- Hin.
  by apply list_elem_of_fmap_2.
Qed.

(** X6. De-duplicating a de-duplicated list changes nothing. *)
Theorem dedup_loop_idempotent (all_results : list candidate) :
  unique_results (dedup_loop lower (unique_results (dedup_loop lower all_results)))
  = unique_results (dedup_loop lower all_results).
Proof.
  rewrite !dedup_loop_first_occurrences. unfold first_occurrences.
  apply first_from_fixed.
  - apply first_from_titled.
  - apply first_from_NoDup.
  - intros r _ Hin. by apply elem_of_nil in Hin.
Qed.

End SearchMore.

(** ** The completion call and the two LLM stages *)

(** The keys of a decoded value that the [try] block returns. *)
Lemma after_decoding_return (v topic_data : json) :
  after_decoding v = Return topic_data ->
  topic_data = v /\
  exists d selected angle,
    v = JObject d /\
    dict_get d (lit "selected_topic") = Some selected /\
    ((exists s, selected = JString s) \/ (exists l, selected = JArray l)) /\
    dict_get d (lit "post_angle") = Some angle.
Proof.
  unfold after_decoding. intros Hr.
  destruct v as [| | | | | |d]; try done. cbn [getitem_str] in Hr.
  destruct (dict_get d (lit "selected_topic")) as [selected|] eqn:Hs; [|done].
  cbn [bind] in Hr.
  assert (Hsel : (exists s, selected = JString s) \/ (exists l, selected = JArray l))
    by (destruct selected; try done; eauto).
  destruct (slice_to selected 50) as [shown|]; [|done]. cbn [bind] in Hr.
  destruct (print_value shown) as [[]|]; [|done]. cbn [bind] in Hr.
  destruct (dict_get d (lit "post_angle")) as [angle|] eqn:Ha; [|done]. cbn [bind] in Hr.
  destruct (print_value angle) as [[]|]; [|done]. cbn [bind] in Hr.
  injection Hr as <-. split; [done|]. by exists d, selected, angle.
Qed.

(** The outcome of the [try] block on a decoded object is a function of
    its two entries. *)
Lemma after_decoding_entries (d1 d2 : list (str * json)) :
  dict_get d1 (lit "selected_topic") = dict_get d2 (lit "selected_topic") ->
  dict_get d1 (lit "post_angle") = dict_get d2 (lit "post_angle") ->
  (after_decoding (JObject d1) = Return (JObject d1) /\
   after_decoding (JObject d2) = Return (JObject d2)) \/
  (exists x, after_decoding (JObject d1) = Raise x /\ after_decoding (JObject d2) = Raise x).
Proof.
  intros Hs Ha. unfold after_decoding. cbn [getitem_str]. rewrite <- Hs, <- Ha.
  destruct (dict_get d1 (lit "selected_topic")) as [selected|]; [|right; by eexists].
  cbn [bind]. destruct (slice_to selected 50) as [shown|]; [|right; by eexists].
  cbn [bind]. destruct (print_value shown) as [[]|]; [|right; by eexists].
  cbn [bind]. destruct (dict_get d1 (lit "post_angle")) as [angle|]; [|right; by eexists].
  cbn [bind]. destruct (print_value angle) as [[]|]; [|right; by eexists].
  by left.
Qed.

Section Completion.

Variable py : interpreter.
Variable e : env.

Lemma call_groq_api_world (p : prompt) (w : world) :
  (call_groq_api e p w).2 = World (POST_HISTORY_FILE w) (trace w ++ [GroqPost p]).
Proof.
  unfold call_groq_api, mbind', emit, lift, raise. cbn [fst snd].
  destruct (groq_endpoint e p) as [response|x]; [|done].
  by destruct (status_code response =? 200).
Qed.

(** X7. A completion call issues one request and nothing else.  It
    returns a value only for a response of status 200 whose body holds
    [choices[0].message.content], and that value is the content; any
    other status raises the error of the call. *)
Theorem call_groq_api_outcome (p : prompt) (w : world) :
  (call_groq_api e p w).2 = World (POST_HISTORY_FILE w) (trace w ++ [GroqPost p]) /\
  (forall content, (call_groq_api e p w).1 = Return content ->
     exists response body choices choice message,
       groq_endpoint e p = Return response /\ status_code response = 200 /\
       json_body response = Return body /\
       getitem_str body (lit "choices") = Return choices /\
       getitem_0 choices = Return choice /\
       getitem_str choice (lit "message") = Return message /\
       getitem_str message (lit "content") = Return content) /\
  (forall response, groq_endpoint e p = Return response -> status_code response <> 200 ->
     (call_groq_api e p w).1 = Raise GroqApiError).
Proof.
  unfold call_groq_api, mbind', emit, lift, raise. cbn [fst snd].
  destruct (groq_endpoint e p) as [response|x]; cbn [fst snd]; [|by repeat split].
  destruct (Z.eqb_spec (status_code response) 200) as [Hs|Hs]; cbn [fst snd].
  - split; [done|]. split; [|by intros ? [= <-]].
    intros content Hc. exists response.
    destruct (json_body response) as [body|]; [|done]. cbn [bind] in Hc.
    destruct (getitem_str body (lit "choices")) as [choices|] eqn:H1; [|done]. cbn [bind] in Hc.
    destruct (getitem_0 choices) as [choice|] eqn:H2; [|done]. cbn [bind] in Hc.
    destruct (getitem_str choice (lit "message")) as [message|] eqn:H3; [|done].
    cbn [bind] in Hc. by exists body, choices, choice, message.
  - split; [done|]. split; [done|]. by intros ? [= <-].
Qed.

(** X8. A completion whose content is not a string (a [null], say) makes
    either stage raise AttributeError: the selector does not fall back on
    it, whatever the candidates. *)
Theorem non_string_content_raises (content : json) :
  (forall s, content <> JString s) ->
  (forall topics w w',
     call_groq_api e (TopicPickerPrompt topics) w = (Return content, w') ->
     pick_best_topic py e topics w = (Raise AttributeError, w')) /\
  (forall topic_data topic angle post_type w w',
     getitem_str topic_data (lit "selected_topic") = Return topic ->
     getitem_str topic_data (lit "post_angle") = Return angle ->
     getitem_str topic_data (lit "post_type") = Return post_type ->
     call_groq_api e (PostGeneratorPrompt topic angle post_type) w = (Return content, w') ->
     generate_post e topic_data w = (Raise AttributeError, w')).
Proof.
  intros Hns. split.
  - intros topics w w' Hpick.
    rewrite (pick_best_topic_reply _ _ _ _ _ _ Hpick). unfold parse_decision.
    destruct content; try done. by destruct (Hns s).
  - intros topic_data topic angle post_type w w' Ht Ha Hp Hgen.
    unfold generate_post, mbind', lift. rewrite Ht, Ha, Hp, Hgen.
    destruct content; try done. by destruct (Hns s).
Qed.

(** The keys of what the [try] block or its handler returns. *)
Lemma parse_decision_keys (topics : list candidate) (response topic_data : json) :
  parse_decision py topics response = Return topic_data ->
  exists d selected angle,
    topic_data = JObject d /\
    dict_get d (lit "selected_topic") = Some selected /\
    ((exists s, selected = JString s) \/ (exists l, selected = JArray l)) /\
    dict_get d (lit "post_angle") = Some angle.
Proof.
  intros Hp.
  destruct response as [| | | |reply| |]; try done.
  destruct (json_loads py (strip (strip_fences reply))) as [v|x] eqn:Hv.
  - rewrite (parse_decision_valid py _ _ _ Hv) in Hp.
    by apply after_decoding_return in Hp as [-> ?].
  - unfold parse_decision in Hp. cbn [as_str bind] in Hp. rewrite Hv in Hp.
    cbn [bind try_except] in Hp. destruct (bool_decide (x = JSONDecodeError)); [|done].
    destruct topics as [|t rest]; [done|]. injection Hp as <-.
    eexists _, _, _. split; [reflexivity|]. repeat split; eauto.
Qed.

(** X10. After the selector has returned, the generator fails on its
    key lookups only for a missing ["post_type"], and then before any
    request; with the key present it issues exactly one request, made of
    the three values of the decision. *)
Theorem generate_post_after_pick (topics : list candidate) (topic_data : json)
    (w w1 : world) :
  pick_best_topic py e topics w = (Return topic_data, w1) ->
  exists d selected angle,
    topic_data = JObject d /\
    dict_get d (lit "selected_topic") = Some selected /\
    dict_get d (lit "post_angle") = Some angle /\
    (dict_get d (lit "post_type") = None ->
     generate_post e topic_data w1 = (Raise KeyError, w1)) /\
    (forall post_type, dict_get d (lit "post_type") = Some post_type ->
     (generate_post e topic_data w1).2
       = World (POST_HISTORY_FILE w1)
           (trace w1 ++ [GroqPost (PostGeneratorPrompt selected angle post_type)])).
Proof.
  intros Hpick.
  assert (Hkeys : exists response, parse_decision py topics response = Return topic_data).
  { unfold pick_best_topic, mbind', lift in Hpick.
    destruct (call_groq_api e (TopicPickerPrompt topics) w) as [[response|x] w']; [|done].
    injection Hpick as Hp _. by exists response. }
  destruct Hkeys as [response Hkeys].
  destruct (parse_decision_keys _ _ _ Hkeys) as (d & selected & angle & -> & Hs & _ & Ha).
  exists d, selected, angle. repeat split; try done.
  - intros Hp. unfold generate_post, mbind', lift. cbn [getitem_str].
    by rewrite Hs, Ha, Hp.
  - intros post_type Hp. unfold generate_post, mbind', lift. cbn [getitem_str].
    rewrite Hs, Ha, Hp.
    pose proof (call_groq_api_world (PostGeneratorPrompt selected angle post_type) w1) as Hw.
    destruct (call_groq_api e _ w1) as [[content|x] w2]; cbn [snd] in Hw; [|done].
    subst w2. destruct (as_str content) as [post_content|]; [|done].
    by destruct (print _) as [[]|].
Qed.

End Completion.

(** X9. What the selector returns is always a dict that holds
    ["selected_topic"], with a string or a list as value, and
    ["post_angle"].  These two entries are all that the selector looks
    at in a decoded object: two replies that decode to objects with the
    same two entries are both returned as decoded, whatever else they
    hold and whether or not they hold ["post_type"], or both refused with
    the same exception. *)
Theorem pick_best_topic_returns_decision (py : interpreter) :
  (forall e topics topic_data w w',
     pick_best_topic py e topics w = (Return topic_data, w') ->
     exists d selected angle,
       topic_data = JObject d /\
       dict_get d (lit "selected_topic") = Some selected /\
       ((exists s, selected = JString s) \/ (exists l, selected = JArray l)) /\
       dict_get d (lit "post_angle") = Some angle) /\
  (forall e1 e2 topics reply1 reply2 d1 d2 w1 w1' w2 w2',
     call_groq_api e1 (TopicPickerPrompt topics) w1 = (Return (JString reply1), w1') ->
     call_groq_api e2 (TopicPickerPrompt topics) w2 = (Return (JString reply2), w2') ->
     json_loads py (strip (strip_fences reply1)) = Return (JObject d1) ->
     json_loads py (strip (strip_fences reply2)) = Return (JObject d2) ->
     dict_get d1 (lit "selected_topic") = dict_get d2 (lit "selected_topic") ->
     dict_get d1 (lit "post_angle") = dict_get d2 (lit "post_angle") ->
     ((pick_best_topic py e1 topics w1).1 = Return (JObject d1) /\
      (pick_best_topic py e2 topics w2).1 = Return (JObject d2)) \/
     (exists x, (pick_best_topic py e1 topics w1).1 = Raise x /\
                (pick_best_topic py e2 topics w2).1 = Raise x)).
Proof.
  split.
  - intros e topics topic_data w w'. unfold pick_best_topic, mbind', lift.
    destruct (call_groq_api e (TopicPickerPrompt topics) w) as [[response|x] w1]; [|done].
    intros [= Hp <-]. by eapply parse_decision_keys.
  - intros e1 e2 topics reply1 reply2 d1 d2 w1 w1' w2 w2' H1 H2 Hd1 Hd2 Hs Ha.
    rewrite (pick_best_topic_reply py _ _ _ _ _ H1), (pick_best_topic_reply py _ _ _ _ _ H2).
    cbn [fst].
    rewrite (parse_decision_valid py _ _ _ Hd1), (parse_decision_valid py _ _ _ Hd2).
    by apply after_decoding_entries.
Qed.

Lemma non_string_content_raises_witness :
  pick_best_topic sample_py null_content_env [Candidate (lit "Compose") [] None None]
    (World Missing [])
  = (Raise AttributeError,
     World Missing [GroqPost (TopicPickerPrompt [Candidate (lit "Compose") [] None None])]).
Proof.
  apply (non_string_content_raises sample_py null_content_env JNull); [|reflexivity].
  intros s. discriminate.
Defined.

Lemma pick_best_topic_returns_decision_witness :
  let topics := [Candidate (lit "Compose") [] None None] in
  let bare := dq "{'selected_topic': 'X', 'post_angle': 'Y'}" in
  let full := dq "{'post_type': 'hot_take', 'post_angle': 'Y', 'selected_topic': 'X'}" in
  (pick_best_topic sample_py (sample_env bare [] (Raise RequestError)) topics
     (World Missing [])).1
    = Return (JObject [ (lit "selected_topic", JString (lit "X"));
                        (lit "post_angle", JString (lit "Y")) ]) /\
  (pick_best_topic sample_py (sample_env full [] (Raise RequestError)) topics
     (World Missing [])).1
    = Return (JObject [ (lit "post_type", JString (lit "hot_take"));
                        (lit "post_angle", JString (lit "Y"));
                        (lit "selected_topic", JString (lit "X")) ]).
Proof.
  intros topics bare full.
  destruct (proj2 (pick_best_topic_returns_decision sample_py)
              (sample_env bare [] (Raise RequestError))
              (sample_env full [] (Raise RequestError)) topics bare full
              [ (lit "selected_topic", JString (lit "X")); (lit "post_angle", JString (lit "Y")) ]
              [ (lit "post_type", JString (lit "hot_take"));
                (lit "post_angle", JString (lit "Y"));
                (lit "selected_topic", JString (lit "X")) ]
              (World Missing []) (World Missing [GroqPost (TopicPickerPrompt topics)])
              (World Missing []) (World Missing [GroqPost (TopicPickerPrompt topics)]))
    as [H|(x & H & _)].
  - reflexivity.
  - reflexivity.
  - vm_compute. reflexivity.
  - vm_compute. reflexivity.
  - reflexivity.
  - reflexivity.
  - exact H.
  - vm_compute in H. discriminate H.
Defined.

Lemma generate_post_after_pick_witness :
  generate_post (sample_env (dq "{'selected_topic': 'X', 'post_angle': 'Y'}") []
                   (Raise RequestError))
    (JObject [ (lit "selected_topic", JString (lit "X")); (lit "post_angle", JString (lit "Y")) ])
    (World Missing [GroqPost (TopicPickerPrompt [Candidate (lit "Compose") [] None None])])
  = (Raise KeyError,
     World Missing [GroqPost (TopicPickerPrompt [Candidate (lit "Compose") [] None None])]).
Proof.
  destruct (generate_post_after_pick sample_py
              (sample_env (dq "{'selected_topic': 'X', 'post_angle': 'Y'}") []
                 (Raise RequestError))
              [Candidate (lit "Compose") [] None None]
              (JObject [ (lit "selected_topic", JString (lit "X"));
                         (lit "post_angle", JString (lit "Y")) ])
              (World Missing [])
              (World Missing [GroqPost (TopicPickerPrompt [Candidate (lit "Compose") [] None None])]))
    as (d & selected & angle & [= <-] & _ & _ & Hmiss & _).
  - vm_compute. reflexivity.
  - apply Hmiss. reflexivity.
Defined.

(** ** Fences, tags and white space around a reply *)

Lemma startswith_head (s p : str) (a : N) :
  startswith s p = true -> head p = Some a -> head s = Some a.
Proof.
  destruct p as [|y p]; [done|]. destruct s as [|x s]; [done|]. simpl. intros H [= ->].
  apply andb_true_iff in H as [H _]. by apply N.eqb_eq in H as ->.
Qed.

Lemma match_number_start (py : interpreter) (s : str) (v : json) (r : str) :
  match_number py s = Parsed v r -> exists c, head s = Some c /\ is_value_start c = true.
Proof.
  unfold match_number. destruct (opt_char _ s) as [sign s1] eqn:Hsign.
  apply opt_char_split in Hsign as [-> Hsign].
  destruct (int_part s1) as [[ip r1]|] eqn:Hip; [|done]. intros _.
  destruct (int_part_split _ _ _ Hip) as (-> & _ & (c & Hc & Hd)).
  destruct Hsign as [->|(m & -> & Hm)].
  - exists c. split; [by destruct ip|]. unfold is_value_start. rewrite Hd. apply orb_true_r.
  - apply N.eqb_eq in Hm as ->. by exists (ch "-").
Qed.

(** A value starts with one of the starting characters. *)
Lemma scan_once_start (py : interpreter) (n depth : nat) (s : str) (v : json) (r : str) :
  scan_once py n depth s = Parsed v r -> exists c, head s = Some c /\ is_value_start c = true.
Proof.
  destruct n as [|n]; [done|]. cbn [scan_once].
  destruct s as [|c r0]; [done|].
  destruct (N.eqb_spec c QUOTE) as [->|_]; [by exists QUOTE|].
  destruct (N.eqb_spec c (ch "{")) as [->|_]; [by exists (ch "{")|].
  destruct (N.eqb_spec c (ch "[")) as [->|_]; [by exists (ch "[")|].
  repeat match goal with
         | |- context [startswith ?s (lit ?p)] =>
             let H := fresh "H" in
             destruct (startswith s (lit p)) eqn:H;
               [eexists; split; [by eapply startswith_head|reflexivity]|]
         end.
  apply match_number_start.
Qed.

(** A text that [json.loads] accepts, with the start of its value. *)
Lemma json_loads_text_start (py : interpreter) (d : str) (v : json) :
  json_loads py d = Return v ->
  exists ws1 body ws2 c,
    d = ws1 ++ body ++ ws2 /\ all_ws ws1 /\ all_ws ws2 /\ value_text body /\
    head body = Some c /\ is_value_start c = true.
Proof.
  unfold json_loads, decode. destruct (startswith d [BOM]); [done|].
  destruct (skip_ws_split d) as (ws1 & Hd & Hws1).
  destruct (scan_once _ _ _ _) as [x r| | |] eqn:Hs; [|done|done|done].
  destruct (scan_once_start _ _ _ _ _ _ Hs) as (c & Hc & Hstart).
  apply (proj1 (scan_split _ _)) in Hs as (body & Hb & Hbody).
  destruct (skip_ws_split r) as (ws2 & Hr & Hws2).
  destruct (skip_ws r); [|done]. intros _.
  exists ws1, body, ws2, c. rewrite app_nil_r in Hr.
  split; [by rewrite Hd at 1; rewrite Hb, Hr|]. repeat split; try done.
  rewrite Hb in Hc. destruct Hbody as (a & _ & Ha & _). by destruct body.
Qed.

(** A text whose first character is neither white nor the start of a
    value is refused. *)
Lemma json_loads_bad_start (py : interpreter) (c : N) (s : str) :
  isspace c = false -> is_value_start c = false ->
  json_loads py (c :: s) = Raise JSONDecodeError.
Proof.
  intros Hsp Hst. unfold json_loads, decode.
  destruct (startswith (c :: s) [BOM]); [done|].
  assert (Hws : is_ws c = false).
  { destruct (is_ws c) eqn:Hc; [|done]. apply is_ws_isspace in Hc. congruence. }
  cbn [skip_ws]. rewrite Hws.
  assert (Hscan : forall n depth, scan_once py (S n) depth (c :: s) = Invalid).
  { intros n depth. cbn [scan_once].
    unfold is_value_start in Hst. rewrite !orb_false_iff in Hst.
    destruct Hst as [[[[[[[[[Hq Ho] Ha] Hn] Ht] Hf] HN] HI] Hm] Hd].
    rewrite Hq, Ho, Ha.
    assert (Hlit : forall p x, head p = Some x -> (c =? x)%N = false ->
                     startswith (c :: s) p = false).
    { intros p x Hp Hx. apply (startswith_head_ne _ _ c x); [done|done|].
      by apply N.eqb_neq. }
    rewrite (Hlit (lit "null") (ch "n")), (Hlit (lit "true") (ch "t")),
      (Hlit (lit "false") (ch "f")), (Hlit (lit "NaN") (ch "N")),
      (Hlit (lit "Infinity") (ch "I")), (Hlit (lit "-Infinity") (ch "-")) by done.
    unfold match_number, opt_char. rewrite Hm. unfold int_part.
    destruct (N.eqb_spec c 48) as [->|_]; [done|]. by rewrite Hd. }
  replace (2 * length (c :: s) + 1)%nat with (S (2 * length (c :: s))) by lia.
  by rewrite Hscan.
Qed.

Lemma value_start_not_j (c : N) : is_value_start c = true -> c <> ch "j".
Proof. by intros H ->. Qed.

Lemma space_not_j (c : N) : isspace c = true -> c <> ch "j".
Proof. by intros H ->. Qed.

Lemma strip_all_space (ws : str) : all_space ws -> strip ws = [].
Proof.
  intros H. unfold strip, rstrip.
  rewrite <- (app_nil_r ws), lstrip_app_space by done. done.
Qed.

(** White space around a text does not change what [strip] gives. *)
Lemma strip_padded (a s b : str) :
  all_space a -> all_space b -> strip (a ++ s ++ b) = strip s.
Proof.
  intros Ha Hb.
  destruct (strip_split s) as (w1 & w2 & Hs & Hw1 & Hw2 & Ht).
  rewrite Hs at 1. destruct Ht as [Ht|Ht].
  - rewrite Ht. cbn [app]. rewrite strip_all_space; [done|].
    auto using all_space_app.
  - replace (a ++ (w1 ++ strip s ++ w2) ++ b) with ((a ++ w1) ++ strip s ++ (w2 ++ b))
      by list_eq.
    apply strip_tight; auto using all_space_app.
Qed.

Lemma startswith_app_head_ne (s rest p : str) (a b : N) :
  head s = Some a -> head p = Some b -> a <> b -> startswith (s ++ rest) p = false.
Proof.
  intros Ha Hb Hne. apply (startswith_head_ne _ _ a b); [by destruct s|done|done].
Qed.

Lemma endswith_app_last_ne (pre s p : str) (a b : N) :
  last s = Some a -> last p = Some b -> a <> b -> endswith (pre ++ s) p = false.
Proof.
  intros Ha Hb Hne. apply (endswith_last_ne _ _ a b); [by apply last_app_tail|done|done].
Qed.

(** The fence removal on a trimmed reply: fences off, inside untouched. *)
Lemma strip_fences_off (o c X : str) (x y : N) :
  opening_fence o -> closing_fence c ->
  head X = Some x -> x <> ch "`" -> x <> ch "j" ->
  last X = Some y -> y <> ch "`" ->
  tight (o ++ X ++ c) ->
  strip_fences (o ++ X ++ c) = X.
Proof.
  intros Ho Hc Hx Hxt Hxj Hy Hyt Ht.
  unfold strip_fences. rewrite (strip_tight_id _ Ht).
  assert (Hopen :
    (let response := o ++ X ++ c in
     let response :=
       if startswith response (lit "```json") then slice response (Some 7) None else response in
     if startswith response (lit "```") then slice response (Some 3) None else response)
    = X ++ c).
  { destruct Ho as [->|[->| ->]]; cbv zeta.
    - cbn [app].
      rewrite (startswith_app_head_ne X c (lit "```json") x (ch "`")) by done.
      by rewrite (startswith_app_head_ne X c (lit "```") x (ch "`")).
    - rewrite startswith_app, (slice_from _ 7), (drop_app_length (lit "```json")).
      by rewrite (startswith_app_head_ne X c (lit "```") x (ch "`")).
    - assert (Hj : startswith (lit "```" ++ X ++ c) (lit "```json") = false).
      { change (startswith (lit "```" ++ X ++ c) (lit "```json"))
          with (startswith (X ++ c) (lit "json")).
        by apply (startswith_app_head_ne X c (lit "json") x (ch "j")). }
      rewrite Hj, startswith_app, (slice_from _ 3). by rewrite (drop_app_length (lit "```")). }
  cbv zeta in Hopen. rewrite Hopen.
  destruct Hc as [->| ->].
  - rewrite app_nil_r. by rewrite (endswith_last_ne X (lit "```") y (ch "`")).
  - rewrite endswith_app, (slice_drop_last _ 3) by lia.
    rewrite length_app. change (length (lit "```")) with 3%nat.
    replace (length X + 3 - 3)%nat with (length X) by lia.
    by rewrite take_app_length.
Qed.

Lemma padded_head (ws body rest : str) (c : N) :
  all_space ws -> head body = Some c -> is_value_start c = true ->
  exists x, head (ws ++ body ++ rest) = Some x /\ x <> ch "`" /\ x <> ch "j".
Proof.
  intros Hws Hc Hs. destruct ws as [|w ws].
  - exists c. split; [by destruct body|]. split; [by intros ->|by apply value_start_not_j].
  - apply Forall_inv in Hws. exists w. split; [done|].
    split; [by apply space_tick|by apply space_not_j].
Qed.

Lemma padded_last (pre body ws : str) :
  all_space ws -> value_text body ->
  exists y, last (pre ++ body ++ ws) = Some y /\ y <> ch "`".
Proof.
  intros Hws (a & b & _ & Hb & _ & Heb).
  destruct ws as [|w ws _] using rev_ind.
  - exists b. rewrite app_nil_r. split; [by apply last_app_tail|by apply json_edge_tick].
  - apply Forall_app in Hws as [_ Hw]. apply Forall_inv in Hw.
    exists w. split; [by rewrite !app_assoc, last_snoc|by apply space_tick].
Qed.

(** The cleaning of a reply: white space, a fence or none, a padded
    value, a fence or none, white space. *)
Lemma clean_reply (A o W1 body W2 c B : str) (s : N) :
  all_space A -> all_space B -> all_space W1 -> all_space W2 ->
  opening_fence o -> closing_fence c ->
  value_text body -> head body = Some s -> is_value_start s = true ->
  tight (o ++ (W1 ++ body ++ W2) ++ c) ->
  strip (strip_fences (A ++ (o ++ (W1 ++ body ++ W2) ++ c) ++ B)) = body.
Proof.
  intros HA HB H1 H2 Ho Hc Hb Hs Hst Ht.
  destruct (padded_head W1 body W2 s H1 Hs Hst) as (x & Hx & Hxt & Hxj).
  destruct (padded_last W1 body W2 H2 Hb) as (y & Hy & Hyt).
  rewrite (strip_fences_strip _ (o ++ (W1 ++ body ++ W2) ++ c)); [| |done].
  - rewrite (strip_fences_off o c _ x y); try done.
    apply strip_tight; [done|done|by apply value_text_tight].
  - by apply strip_tight.
Qed.

Lemma tight_intro (s : str) (a b : N) :
  head s = Some a -> isspace a = false -> last s = Some b -> isspace b = false -> tight s.
Proof. intros. split; eauto. Qed.

(** Closes the side conditions of [clean_reply]. *)
Ltac side := first [ done | by constructor | by left | by auto using all_space_app ].

(** X11. For a JSON document, the selector's answer does not depend on
    how the reply fences it: [```json] or [```] or nothing before it,
    [```] or nothing after it, with white space anywhere around the
    document and the fences. *)
Theorem parse_decision_fences (py : interpreter) (topics : list candidate) (d : str)
    (v : json) (a o ws ws' c b : str) :
  json_loads py d = Return v ->
  opening_fence o -> closing_fence c ->
  all_space a -> all_space ws -> all_space ws' -> all_space b ->
  parse_decision py topics (JString (a ++ o ++ ws ++ d ++ ws' ++ c ++ b))
  = parse_decision py topics (JString d).
Proof.
  intros Hd Ho Hc Ha Hws Hws' Hb.
  destruct (json_loads_text_start py d v Hd)
    as (j1 & body & j2 & s & -> & Hj1 & Hj2 & Hbody & Hs & Hst).
  apply all_ws_space in Hj1, Hj2.
  pose proof (value_text_tight _ Hbody) as [(h & Hh & Hhs) (l & Hl & Hls)].
  assert (Hclean : strip (strip_fences (a ++ o ++ ws ++ (j1 ++ body ++ j2) ++ ws' ++ c ++ b))
                   = body).
  { assert (Hof : o = [] \/ (o <> [] /\ head o = Some (ch "`")))
      by (destruct Ho as [->|[->| ->]]; [by left|by right|by right]).
    assert (Hcf : c = [] \/ (c <> [] /\ last c = Some (ch "`")))
      by (destruct Hc as [->| ->]; [by left|by right]).
    destruct Hof as [->|[Hon Hoh]], Hcf as [->|[Hcn Hcl]].
    - replace (a ++ [] ++ ws ++ (j1 ++ body ++ j2) ++ ws' ++ [] ++ b)
        with ((a ++ ws ++ j1) ++ ([] ++ ([] ++ body ++ []) ++ []) ++ (j2 ++ ws' ++ b))
        by list_eq.
      apply (clean_reply _ [] [] body [] [] _ s); [side .. |].
      cbn [app]. rewrite !app_nil_r. by apply value_text_tight.
    - replace (a ++ [] ++ ws ++ (j1 ++ body ++ j2) ++ ws' ++ c ++ b)
        with ((a ++ ws ++ j1) ++ ([] ++ ([] ++ body ++ (j2 ++ ws')) ++ c) ++ b)
        by list_eq.
      apply (clean_reply _ [] [] body (j2 ++ ws') c _ s); [side .. |].
      cbn [app]. apply (tight_intro _ h (ch "`")); [by destruct body|done| |done].
      rewrite app_assoc. by apply last_app_tail.
    - replace (a ++ o ++ ws ++ (j1 ++ body ++ j2) ++ ws' ++ [] ++ b)
        with (a ++ (o ++ ((ws ++ j1) ++ body ++ []) ++ []) ++ (j2 ++ ws' ++ b))
        by list_eq.
      apply (clean_reply _ o (ws ++ j1) body [] [] _ s); [side .. |].
      rewrite !app_nil_r.
      apply (tight_intro _ (ch "`") l); [by destruct o|done| |done].
      rewrite !app_assoc. by apply last_app_tail.
    - replace (a ++ o ++ ws ++ (j1 ++ body ++ j2) ++ ws' ++ c ++ b)
        with (a ++ (o ++ ((ws ++ j1) ++ body ++ (j2 ++ ws')) ++ c) ++ b)
        by list_eq.
      apply (clean_reply _ o (ws ++ j1) body (j2 ++ ws') c _ s); [side .. |].
      apply (tight_intro _ (ch "`") (ch "`")); [by destruct o|done| |done].
      rewrite !app_assoc. by apply last_app_tail. }
  unfold parse_decision. cbn [as_str bind].
  rewrite Hclean.
  by rewrite (clean_document j1 body j2).
Qed.

Lemma parse_decision_fences_witness :
  let d := dq "{'selected_topic': 'X', 'post_angle': 'Y'}" in
  parse_decision sample_py [] (JString (lit " " ++ lit "```" ++ [10%N] ++ d ++ [] ++ [] ++ [10%N]))
  = parse_decision sample_py [] (JString d).
Proof.
  intros d.
  apply (parse_decision_fences sample_py [] d
           (JObject [ (lit "selected_topic", JString (lit "X"));
                      (lit "post_angle", JString (lit "Y")) ])
           (lit " ") (lit "```") [10%N] [] [] [10%N]).
  - vm_compute. reflexivity.
  - right. right. reflexivity.
  - left. reflexivity.
  - repeat constructor.
  - repeat constructor.
  - constructor.
  - repeat constructor.
Defined.

Lemma strip_keeps_head (c : N) (s : str) :
  isspace c = false -> exists s', strip (c :: s) = c :: s'.
Proof.
  intros Hc. destruct (strip_split (c :: s)) as (w1 & w2 & Hs & Hw1 & Hw2 & Ht).
  destruct w1 as [|w w1].
  - destruct (strip (c :: s)) as [|x t] eqn:Hx.
    + destruct Ht as [_|[(y & Hy & _) _]]; [|done].
      cbn [app] in Hs. rewrite <- Hs in Hw2. apply Forall_inv in Hw2. by rewrite Hw2 in Hc.
    + injection Hs as -> _. by exists t.
  - injection Hs as -> _. apply Forall_inv in Hw1. by rewrite Hw1 in Hc.
Qed.

(** X12. A fence with a tag other than [json] hides the document: when
    the trimmed reply is [```] followed by a character that is neither
    white nor the start of a JSON value, and what follows the fence does
    not spell [json], the selector falls back on the first candidate. *)
Theorem parse_decision_foreign_tag (py : interpreter) (topics : list candidate) (reply : str)
    (c : N) (tail : str) :
  strip reply = lit "```" ++ c :: tail ->
  isspace c = false -> is_value_start c = false -> c <> ch "`" ->
  startswith (c :: tail) (lit "json") = false ->
  parse_decision py topics (JString reply) = fallback_decision topics.
Proof.
  intros Hstrip Hsp Hst Htick Hjson.
  apply parse_decision_invalid.
  assert (Hf : exists y, strip_fences reply = c :: y).
  { unfold strip_fences. rewrite Hstrip.
    change (startswith (lit "```" ++ c :: tail) (lit "```json"))
      with (startswith (c :: tail) (lit "json")).
    rewrite Hjson, startswith_app, (slice_from _ 3), (drop_app_length (lit "```")).
    destruct (endswith (c :: tail) (lit "```")) eqn:He; [|by exists tail].
    apply endswith_inv in He as [r Hr].
    destruct r as [|x r]; [by injection Hr as ->|].
    injection Hr as <- ->.
    rewrite (slice_drop_last _ 3) by lia. cbn [length]. rewrite length_app.
    change (length (lit "```")) with 3%nat.
    replace (S (length r + 3) - 3)%nat with (S (length r)) by lia.
    rewrite firstn_cons, take_app_length. by exists r. }
  destruct Hf as [y ->].
  destruct (strip_keeps_head c y Hsp) as [s' ->].
  by apply json_loads_bad_start.
Qed.

Lemma parse_decision_foreign_tag_witness :
  parse_decision sample_py [Candidate (lit "Compose") [] None None]
    (JString (lit "```JSON" ++ [10%N] ++ dq "{'selected_topic': 'X', 'post_angle': 'Y'}"
              ++ [10%N] ++ lit "```"))
  = fallback_decision [Candidate (lit "Compose") [] None None].
Proof.
  apply (parse_decision_foreign_tag sample_py [Candidate (lit "Compose") [] None None] _ (ch "J")
           (lit "SON" ++ [10%N] ++ dq "{'selected_topic': 'X', 'post_angle': 'Y'}"
            ++ [10%N] ++ lit "```")).
  - vm_compute. reflexivity.
  - reflexivity.
  - reflexivity.
  - discriminate.
  - reflexivity.
Defined.

(** X13. White space around the reply changes neither the selector's
    answer nor the cleaned post. *)
Theorem reply_padding_ignored (a s b : str) :
  all_space a -> all_space b ->
  (forall py topics, parse_decision py topics (JString (a ++ s ++ b))
                     = parse_decision py topics (JString s)) /\
  clean_post (a ++ s ++ b) = clean_post s.
Proof.
  intros Ha Hb. pose proof (strip_padded a s b Ha Hb) as Hs. split.
  - intros py topics. unfold parse_decision, strip_fences. cbn [as_str bind]. by rewrite Hs.
  - unfold clean_post. by rewrite Hs.
Qed.

Lemma reply_padding_ignored_witness :
  clean_post ([10%N; 32%N] ++ dq "'Hi'" ++ [9%N]) = clean_post (dq "'Hi'").
Proof.
  apply (reply_padding_ignored [10%N; 32%N] (dq "'Hi'") [9%N]); repeat constructor.
Defined.

(** ** The publisher's requests *)

Section Publisher.

Variable e : env.

(** X14. Without an access token the publisher issues no request at
    all and reports the failure ["No tokens"]: that is the case of tokens
    that are false as a truth value (an empty dict, [null], zero, an empty
    string or list) and of a dict without the key. *)
Theorem post_to_linkedin_no_tokens (post_content : str) (tokens : json) (w : world) :
  load_linkedin_tokens e = Return tokens ->
  json_truthy tokens = false \/
  (exists d, tokens = JObject d /\ dict_get d (lit "access_token") = None) ->
  post_to_linkedin e post_content w
  = (Return (PublishResult false None (Some (lit "No tokens"))), w).
Proof.
  intros Ht Ha. unfold post_to_linkedin, mbind', lift. rewrite Ht.
  assert (Hn : no_tokens tokens = Return true).
  { unfold no_tokens. destruct Ha as [-> |(d & -> & Hd)]; [done|].
    destruct (json_truthy (JObject d)); [|done]. cbn [negb json_in bind]. by rewrite Hd. }
  by rewrite Hn.
Qed.

(** X15. A stored actor identifier is reused: the publisher skips the
    identity lookup, and its only request is the publish request, made
    with the stored token and the stored identifier as author. *)
Theorem post_to_linkedin_reuses_urn (post_content : str) (tokens access_token person_urn : json)
    (w : world) :
  load_linkedin_tokens e = Return tokens ->
  getitem_str tokens (lit "access_token") = Return access_token ->
  get_str tokens (lit "person_urn") = Return (Some person_urn) ->
  json_truthy person_urn = true ->
  (post_to_linkedin e post_content w).2
  = World (POST_HISTORY_FILE w) (trace w ++ [UgcPost access_token person_urn post_content]).
Proof.
  intros Ht Ha Hp Hne. unfold post_to_linkedin, mbind', lift.
  rewrite Ht, (no_tokens_false _ _ Ha), Ha. unfold resolve_person_urn, mbind', lift.
  rewrite Hp. cbn [opt_json_truthy]. rewrite Hne.
  unfold ret, emit. cbn [fst snd].
  destruct (ugc_endpoint e access_token person_urn post_content) as [response|x]; [|done].
  by destruct (status_code response =? 201).
Qed.

(** X16. Without a stored actor identifier the publisher first asks
    for the identity.  A refused lookup (any status but 200) ends in the
    failure ["Failed to get user URN"] and no publish request; a lookup
    that gives a subject makes the author [urn:li:person:] followed by
    the subject. *)
Theorem post_to_linkedin_lookup (post_content : str) (tokens access_token : json)
    (person_urn : option json) (response : http_response) (w : world) :
  load_linkedin_tokens e = Return tokens ->
  getitem_str tokens (lit "access_token") = Return access_token ->
  get_str tokens (lit "person_urn") = Return person_urn ->
  opt_json_truthy person_urn = false ->
  userinfo_endpoint e access_token = Return response ->
  (status_code response <> 200 ->
   post_to_linkedin e post_content w
   = (Return (PublishResult false None (Some (lit "Failed to get user URN"))),
      World (POST_HISTORY_FILE w) (trace w ++ [UserinfoGet access_token]))) /\
  (forall user_info sub,
     status_code response = 200 ->
     json_body response = Return user_info ->
     getitem_str user_info (lit "sub") = Return sub ->
     (post_to_linkedin e post_content w).2
     = World (POST_HISTORY_FILE w)
         (trace w ++ [ UserinfoGet access_token;
                       UgcPost access_token
                         (JString (lit "urn:li:person:" ++ format_value e sub))
                         post_content ])).
Proof.
  intros Ht Ha Hg Hp Hu. split.
  - intros Hs. unfold post_to_linkedin, mbind', lift.
    rewrite Ht, (no_tokens_false _ _ Ha), Ha. unfold resolve_person_urn, mbind', lift.
    rewrite Hg, Hp. unfold emit. rewrite Hu.
    by destruct (Z.eqb_spec (status_code response) 200).
  - intros user_info sub Hs Hj Hsub. unfold post_to_linkedin, mbind', lift.
    rewrite Ht, (no_tokens_false _ _ Ha), Ha. unfold resolve_person_urn, mbind', lift.
    rewrite Hg, Hp. unfold emit, ret. rewrite Hu, Hs. cbn [Z.eqb Pos.eqb].
    rewrite Hj, Hsub. cbn [fst snd POST_HISTORY_FILE trace].
    destruct (ugc_endpoint e _ _ _) as [r|x]; [|by rewrite <- app_assoc].
    destruct (status_code r =? 201); by rewrite <- app_assoc.
Qed.

End Publisher.

Lemma post_to_linkedin_no_tokens_witness :
  post_to_linkedin (token_file_env Missing (Raise RequestError) (Return created_response))
    (lit "Hello") (World Missing [])
  = (Return (PublishResult false None (Some (lit "No tokens"))), World Missing []).
Proof.
  apply (post_to_linkedin_no_tokens
           (token_file_env Missing (Raise RequestError) (Return created_response))
           (lit "Hello") (JObject []) (World Missing [])); [reflexivity|].
  left. reflexivity.
Defined.

Lemma post_to_linkedin_reuses_urn_witness :
  (post_to_linkedin (sample_env [] [] (Return created_response)) (lit "Hello")
     (World Missing [])).2
  = World Missing [UgcPost (JString (lit "token")) (JString (lit "urn:li:person:1"))
                     (lit "Hello")].
Proof.
  apply (post_to_linkedin_reuses_urn (sample_env [] [] (Return created_response)) (lit "Hello")
           (JObject [ (lit "access_token", JString (lit "token"));
                      (lit "person_urn", JString (lit "urn:li:person:1")) ])
           (JString (lit "token")) (JString (lit "urn:li:person:1")) (World Missing []));
    reflexivity.
Defined.

Lemma post_to_linkedin_lookup_witness :
  (post_to_linkedin
     (token_file_env (Stored (JObject [(lit "access_token", JString (lit "file-token"))]))
        (Return identity_response) (Return created_response))
     (lit "Hello") (World Missing [])).2
  = World Missing
      [ UserinfoGet (JString (lit "file-token"));
        UgcPost (JString (lit "file-token")) (JString (lit "urn:li:person:abc")) (lit "Hello") ].
Proof.
  destruct (post_to_linkedin_lookup
              (token_file_env (Stored (JObject [(lit "access_token", JString (lit "file-token"))]))
                 (Return identity_response) (Return created_response))
              (lit "Hello") (JObject [(lit "access_token", JString (lit "file-token"))])
              (JString (lit "file-token")) None identity_response (World Missing [])) as [_ H];
    [reflexivity | reflexivity | reflexivity | reflexivity | reflexivity |].
  apply (H (JObject [(lit "sub", JString (lit "abc"))]) (JString (lit "abc"))); reflexivity.
Defined.

(** ** More on the history recorder *)

Section Recorder.

Variable e : env.

(** X17. The preview of an entry is the first hundred characters of
    the post followed by three dots, also when the post is shorter than
    that: 103 characters at most. *)
Theorem history_entry_preview (topic : json) (post_content post_id : str) :
  exists preview,
    getitem_str (history_entry e topic post_content post_id) (lit "post_preview")
      = Return (JString preview) /\
    preview = take 100 post_content ++ lit "..." /\
    (length preview <= 103)%nat /\
    endswith preview (lit "...") = true /\
    ((length post_content <= 100)%nat -> preview = post_content ++ lit "...").
Proof.
  eexists. split; [reflexivity|]. rewrite (slice_prefix _ 100).
  split; [done|]. split; [|split].
  - rewrite length_app, length_take. change (length (lit "...")) with 3%nat. lia.
  - apply endswith_app.
  - intros Hl. by rewrite take_ge.
Qed.

(** X18. The recorder touches the ["posts"] key only: every other key
    of the stored history keeps its value. *)
Theorem save_to_history_keeps_keys (topic : json) (post_content post_id : str) (w w' : world)
    (d : list (str * json)) :
  POST_HISTORY_FILE w = Stored (JObject d) ->
  save_to_history e topic post_content post_id w = (Return tt, w') ->
  exists d', POST_HISTORY_FILE w' = Stored (JObject d') /\
             forall k, k <> lit "posts" -> dict_get d' k = dict_get d k.
Proof.
  intros Hf. unfold save_to_history, mbind', lift, save_json_file. rewrite Hf.
  cbn [load_json_file updated_history].
  destruct (dict_get d (lit "posts")) as [v|] eqn:Hd.
  - rewrite Hd. destruct v; try done. intros [= <-].
    eexists. split; [reflexivity|]. intros k Hk. by rewrite dict_get_set_ne.
  - rewrite dict_get_set_eq. intros [= <-].
    eexists. split; [reflexivity|]. intros k Hk. by rewrite !dict_get_set_ne.
Qed.

Lemma save_to_history_raises (topic : json) (post_content post_id : str) (w : world) :
  history_posts (POST_HISTORY_FILE w) = None ->
  exists x, save_to_history e topic post_content post_id w = (Raise x, w).
Proof.
  unfold save_to_history, mbind', lift, save_json_file, history_posts.
  destruct (POST_HISTORY_FILE w) as [|y|[| | | | | |d]];
    cbn [load_json_file updated_history]; try done; try by eexists.
  destruct (dict_get d (lit "posts")) as [v|] eqn:Hd; [|done].
  rewrite Hd. destruct v; try done; by eexists.
Qed.

(** X19. The recorder fails exactly on a history file that stands for
    no sequence, and then leaves the world as it was: the exception of
    the read for a file that cannot be read or decoded, TypeError for a
    stored value that is not a dict, AttributeError for a ["posts"] that
    is not a list. *)
Theorem save_to_history_failure (topic : json) (post_content post_id : str) (w : world) :
  ((exists x, (save_to_history e topic post_content post_id w).1 = Raise x) <->
   history_posts (POST_HISTORY_FILE w) = None) /\
  (forall x, (save_to_history e topic post_content post_id w).1 = Raise x ->
     (save_to_history e topic post_content post_id w).2 = w /\
     match POST_HISTORY_FILE w with
     | Unreadable y => x = y
     | Stored (JObject _) => x = AttributeError
     | _ => x = TypeError
     end).
Proof.
  unfold save_to_history, mbind', lift, save_json_file, history_posts.
  destruct (POST_HISTORY_FILE w) as [|y|[| | | | | |d]];
    cbn [load_json_file updated_history fst snd dict_get];
    try (split; [split; [done|by eexists]|by intros x [= <-]]).
  - rewrite dict_get_set_eq. cbn [fst].
    split; [split; [by intros [x Hx]|done]|done].
  - destruct (dict_get d (lit "posts")) as [v|] eqn:Hd.
    + rewrite Hd.
      destruct v; cbn [fst snd];
        first [ split; [split; [done|by eexists]|by intros x [= <-]]
              | split; [split; [by intros [x Hx]|done]|done] ].
    + rewrite dict_get_set_eq. cbn [fst]. split; [split; [by intros [x Hx]|done]|done].
Qed.

Lemma save_to_history_posts (topic : json) (post_content post_id : str) (w : world)
    (posts : list json) :
  history_posts (POST_HISTORY_FILE w) = Some posts ->
  exists w',
    save_to_history e topic post_content post_id w = (Return tt, w') /\
    history_posts (POST_HISTORY_FILE w')
    = Some (drop (length (posts ++ [history_entry e topic post_content post_id]) - 50)
              (posts ++ [history_entry e topic post_content post_id])).
Proof.
  intros Hf.
  destruct (updated_history_posts _ _ (history_entry e topic post_content post_id) Hf)
    as (data & Hup & Hposts).
  unfold save_to_history, mbind', lift, save_json_file. unfold bind in Hup.
  destruct (load_json_file (JObject []) (POST_HISTORY_FILE w)) as [history|x]; [|done].
  rewrite Hup. by eexists.
Qed.

Lemma last_fifty_app {A} (l m : list A) :
  drop (length (drop (length l - 50) l ++ m) - 50) (drop (length l - 50) l ++ m)
  = drop (length (l ++ m) - 50) (l ++ m).
Proof.
  destruct (Nat.le_gt_cases (length l) 50) as [Hle|Hgt].
  - replace (length l - 50)%nat with 0%nat by lia. by rewrite drop_0.
  - pose proof (take_drop (length l - 50) l) as Hl.
    pose proof (length_take l (length l - 50)) as Ha.
    pose proof (length_drop l (length l - 50)) as Hb.
    set (a := take (length l - 50) l) in *. set (b := drop (length l - 50) l) in *.
    rewrite <- Hl, <- app_assoc, !length_app.
    replace (length b + length m - 50)%nat with (length m) by lia.
    replace (length a + (length b + length m) - 50)%nat with (length a + length m)%nat by lia.
    by rewrite drop_app_add.
Qed.

(** X20. Run after run the bound holds: after any positive number of
    recorded posts the history is the last fifty of the old entries
    followed by the new ones in order. *)
Theorem record_all_bounded (published : list (json * str * str)) (w : world)
    (posts : list json) :
  history_posts (POST_HISTORY_FILE w) = Some posts ->
  published <> [] ->
  let entries := map (fun p => history_entry e p.1.1 p.1.2 p.2) published in
  exists w',
    record_all e published w = (Return tt, w') /\
    history_posts (POST_HISTORY_FILE w')
      = Some (drop (length (posts ++ entries) - 50) (posts ++ entries)) /\
    length (filter (fun ev => bool_decide (is_history_write ev = true)) (trace w'))
      = (length (filter (fun ev => bool_decide (is_history_write ev = true)) (trace w))
         + length published)%nat.
Proof.
  revert w posts. induction published as [|[[topic post_content] post_id] rest IH];
    intros w posts Hf Hne entries; [done|]. clear Hne.
  destruct (save_to_history_posts topic post_content post_id w posts Hf) as (w1 & Hrun & H1).
  assert (Htrace : exists data, trace w1 = trace w ++ [HistoryWrite data]).
  { destruct (save_to_history_world e topic post_content post_id w) as [[x Hx]|[data Hd]];
      [by rewrite Hx in Hrun|].
    rewrite Hd in Hrun. injection Hrun as <-. by exists data. }
  destruct Htrace as [data Htrace].
  cbn [record_all]. unfold mbind'. rewrite Hrun.
  destruct rest as [|p rest].
  - exists w1. split; [done|]. split; [exact H1|].
    rewrite Htrace, filter_app, length_app. simpl. lia.
  - destruct (IH w1 _ H1 ltac:(done)) as (w' & Hrest & H2 & H3).
    exists w'. split; [done|]. split.
    + rewrite H2. f_equal. subst entries. cbn [map fst snd].
      rewrite last_fifty_app. by rewrite <- !app_assoc.
    + rewrite H3, Htrace, filter_app, length_app. simpl. lia.
Qed.

End Recorder.

Lemma save_to_history_keeps_keys_witness :
  exists d',
    POST_HISTORY_FILE
      (save_to_history (sample_env [] [] (Raise RequestError)) JNull (lit "Hello") (lit "id")
         (World (Stored (JObject [(lit "owner", JString (lit "me"))])) [])).2
    = Stored (JObject d') /\
    dict_get d' (lit "owner") = Some (JString (lit "me")).
Proof.
  destruct (save_to_history_keeps_keys (sample_env [] [] (Raise RequestError)) JNull
              (lit "Hello") (lit "id")
              (World (Stored (JObject [(lit "owner", JString (lit "me"))])) []) _
              [(lit "owner", JString (lit "me"))] eq_refl eq_refl) as (d' & Hd & Hk).
  exists d'. split; [exact Hd|]. rewrite Hk; [reflexivity|]. vm_compute. discriminate.
Defined.

Lemma record_all_bounded_witness :
  exists w',
    record_all (sample_env [] [] (Raise RequestError))
      [ (JNull, lit "one", lit "id1"); (JNull, lit "two", lit "id2") ]
      (World (Stored (JObject [(lit "posts", JArray (replicate 49 JNull))])) [])
    = (Return tt, w') /\
    length <$> history_posts (POST_HISTORY_FILE w') = Some 50%nat.
Proof.
  destruct (record_all_bounded (sample_env [] [] (Raise RequestError))
              [ (JNull, lit "one", lit "id1"); (JNull, lit "two", lit "id2") ]
              (World (Stored (JObject [(lit "posts", JArray (replicate 49 JNull))])) [])
              (replicate 49 JNull) eq_refl) as (w' & Hrun & Hposts & _).
  - discriminate.
  - exists w'. split; [exact Hrun|]. rewrite Hposts. reflexivity.
Defined.

(** ** The whole run *)

Section Run.

Variable py : interpreter.
Variable e : env.

(** Where the tokens come from. *)
Lemma load_linkedin_tokens_source :
  (env_credentials e = true ->
   exists access_token person_urn,
     LINKEDIN_ACCESS_TOKEN e = Some access_token /\ LINKEDIN_PERSON_URN e = Some person_urn /\
     load_linkedin_tokens e
     = Return (JObject [ (lit "access_token", JString access_token);
                         (lit "person_urn", JString person_urn) ])) /\
  (env_credentials e = false ->
   load_linkedin_tokens e = load_json_file (JObject []) (LINKEDIN_TOKEN_FILE e)).
Proof.
  unfold env_credentials, load_linkedin_tokens, opt_truthy.
  destruct (LINKEDIN_ACCESS_TOKEN e) as [a|], (LINKEDIN_PERSON_URN e) as [p|];
    rewrite ?andb_false_r; cbn [andb]; try (split; [done|by intros _]).
  destruct (truthy a && truthy p); split; try done. intros _. by exists a, p.
Qed.

(** X21. A run without credentials does nothing: no request, no write.
    That is the case without a completion key, and also when the two
    LinkedIn variables are not both set and the token file is missing or
    holds no access token (a value that is false, or a dict without the
    key); an access token in the environment alone is not used. *)
Theorem main_without_credentials (dry_run : bool) (w : world) :
  opt_truthy (GROQ_API_KEY e) = false \/
  (env_credentials e = false /\
   (LINKEDIN_TOKEN_FILE e = Missing \/
    exists tokens, LINKEDIN_TOKEN_FILE e = Stored tokens /\
      (json_truthy tokens = false \/
       exists d, tokens = JObject d /\ dict_get d (lit "access_token") = None))) ->
  main py e dry_run w = (Return tt, w).
Proof.
  intros [Hk|[Hc Hf]]; [by apply main_no_key|].
  destruct (opt_truthy (GROQ_API_KEY e)) eqn:Hk; [|by apply main_no_key].
  assert (Hload : exists tokens, load_linkedin_tokens e = Return tokens /\
                    no_tokens tokens = Return true).
  { rewrite (proj2 load_linkedin_tokens_source Hc).
    destruct Hf as [->|(tokens & -> & Ha)]; cbn [load_json_file]; [by eexists|].
    exists tokens. split; [done|]. unfold no_tokens.
    destruct Ha as [-> |(d & -> & Hd)]; [done|].
    destruct (json_truthy (JObject d)); [|done]. cbn [negb json_in bind]. by rewrite Hd. }
  destruct Hload as (tokens & Ht & Hn).
  pose proof (main_guard py e dry_run w tokens Hk Ht) as Hmain. by rewrite Hn in Hmain.
Qed.



Lemma pick_best_topic_world (topics : list candidate) (w : world) :
  (pick_best_topic py e topics w).2
  = World (POST_HISTORY_FILE w) (trace w ++ [GroqPost (TopicPickerPrompt topics)]).
Proof.
  unfold pick_best_topic, mbind', lift.
  pose proof (call_groq_api_world e (TopicPickerPrompt topics) w) as Hw.
  by destruct (call_groq_api e _ w) as [[content|x] w1].
Qed.

Lemma generate_post_world (topic_data : json) (w : world) :
  (generate_post e topic_data w).2 = w \/
  exists topic angle post_type,
    (generate_post e topic_data w).2
    = World (POST_HISTORY_FILE w)
        (trace w ++ [GroqPost (PostGeneratorPrompt topic angle post_type)]).
Proof.
  unfold generate_post, mbind', lift.
  destruct (getitem_str topic_data (lit "selected_topic")) as [topic|]; [|by left].
  destruct (getitem_str topic_data (lit "post_angle")) as [angle|]; [|by left].
  destruct (getitem_str topic_data (lit "post_type")) as [post_type|]; [|by left].
  right. exists topic, angle, post_type.
  pose proof (call_groq_api_world e (PostGeneratorPrompt topic angle post_type) w) as Hw.
  destruct (call_groq_api e _ w) as [[content|x] w1]; [|done].
  destruct (as_str content) as [post_content|]; [|done].
  by destruct (print _) as [[]|].
Qed.

Lemma post_to_linkedin_world (post_content : str) (w : world) :
  exists evs,
    (post_to_linkedin e post_content w).2 = World (POST_HISTORY_FILE w) (trace w ++ evs) /\
    sublist (map event_rank evs) [3; 4]%nat.
Proof.
  unfold post_to_linkedin, mbind', lift.
  assert (Hnil : exists evs, w = World (POST_HISTORY_FILE w) (trace w ++ evs) /\
                             sublist (map event_rank evs) [3; 4]%nat).
  { exists []. rewrite app_nil_r. split; [by destruct w|apply sublist_nil_l]. }
  destruct (load_linkedin_tokens e) as [tokens|x]; [|done].
  destruct (no_tokens tokens) as [[|]|x]; [done| |done].
  destruct (getitem_str tokens (lit "access_token")) as [access_token|]; [|done].
  unfold resolve_person_urn, mbind', lift.
  destruct (get_str tokens (lit "person_urn")) as [stored|]; [|done].
  destruct (opt_json_truthy stored).
  - unfold ret. destruct stored as [person_urn|]; [|done].
    exists [UgcPost access_token person_urn post_content].
    split; [|by apply sublist_cons, sublist_skip].
    unfold emit. cbn [fst snd].
    destruct (ugc_endpoint e _ _ _) as [r|x]; [|done].
    by destruct (status_code r =? 201).
  - unfold emit, ret.
    assert (Hu : exists evs,
              World (POST_HISTORY_FILE w) (trace w ++ [UserinfoGet access_token])
              = World (POST_HISTORY_FILE w) (trace w ++ evs) /\
              sublist (map event_rank evs) [3; 4]%nat).
    { exists [UserinfoGet access_token]. split; [done|].
      by apply sublist_skip, sublist_nil_l. }
    destruct (userinfo_endpoint e access_token) as [response|x]; [|done].
    destruct (status_code response =? 200); [|done].
    destruct (json_body response) as [user_info|x]; [|done].
    destruct (getitem_str user_info (lit "sub")) as [sub|x]; [|done].
    cbn [fst snd POST_HISTORY_FILE trace].
    exists [UserinfoGet access_token;
            UgcPost access_token (JString (lit "urn:li:person:" ++ format_value e sub))
              post_content].
    split; [|done].
    destruct (ugc_endpoint e _ _ _) as [r|x]; [|by rewrite <- app_assoc].
    destruct (status_code r =? 201); by rewrite <- app_assoc.
Qed.

Section Staged.

Context {A B : Type}.

Lemma staged_nil (quiet : bool) (l : list nat) (m : M A) :
  (forall w, (m w).2 = w) -> staged quiet l m.
Proof.
  intros Hm w. exists []. rewrite Hm, app_nil_r. split; [done|].
  split; [apply sublist_nil_l|done].
Qed.

Lemma staged_bind (quiet : bool) (l1 l2 : list nat) (m : M A) (k : A -> M B) :
  staged quiet l1 m -> (forall a, staged quiet l2 (k a)) ->
  staged quiet (l1 ++ l2) (mbind' m k).
Proof.
  intros Hm Hk w. unfold mbind'. destruct (Hm w) as (evs1 & Ht1 & Hs1 & Hf1).
  destruct (m w) as [[a|x] w1]; cbn [snd] in *.
  - destruct (Hk a w1) as (evs2 & Ht2 & Hs2 & Hf2).
    exists (evs1 ++ evs2). split; [by rewrite Ht2, Ht1, app_assoc|].
    split; [rewrite map_app; by apply sublist_app|].
    intros Hq. by rewrite Hf2, Hf1.
  - exists evs1. split; [done|]. split; [|done].
    etrans; [exact Hs1|]. apply sublist_inserts_r. done.
Qed.

Lemma staged_weaken (quiet : bool) (l l' : list nat) (m : M A) :
  sublist l l' -> staged quiet l m -> staged false l' m.
Proof.
  intros Hl Hm w. destruct (Hm w) as (evs & Ht & Hs & _).
  exists evs. split; [done|]. split; [by etrans|done].
Qed.

End Staged.

Lemma staged_try_any (quiet : bool) (l : list nat) (m : M unit) :
  staged quiet l m -> staged quiet l (try_any m).
Proof.
  intros Hm w. unfold try_any. specialize (Hm w). by destruct (m w) as [[a|x] w1].
Qed.

Lemma staged_call_groq_api (p : prompt) :
  staged true [event_rank (GroqPost p)] (call_groq_api e p).
Proof.
  intros w. rewrite (call_groq_api_world e p w).
  exists [GroqPost p]. done.
Qed.

Lemma staged_pick_best_topic (topics : list candidate) :
  staged true [1%nat] (pick_best_topic py e topics).
Proof.
  unfold pick_best_topic.
  apply (staged_bind true [1%nat] []); [apply staged_call_groq_api|].
  intros response. by apply staged_nil.
Qed.

Lemma staged_generate_post (topic_data : json) :
  staged true [2%nat] (generate_post e topic_data).
Proof.
  intros w. destruct (generate_post_world topic_data w) as [->|(t & a & p & ->)].
  - exists []. rewrite app_nil_r. split; [done|]. split; [apply sublist_nil_l|done].
  - exists [GroqPost (PostGeneratorPrompt t a p)]. done.
Qed.

Lemma staged_post_to_linkedin (post_content : str) :
  staged true [3; 4]%nat (post_to_linkedin e post_content).
Proof.
  intros w. destruct (post_to_linkedin_world post_content w) as (evs & -> & Hs).
  by exists evs.
Qed.

Lemma staged_save_to_history (topic : json) (post_content post_id : str) :
  staged false [5%nat] (save_to_history e topic post_content post_id).
Proof.
  intros w.
  destruct (save_to_history_world e topic post_content post_id w) as [[x ->]|[data ->]].
  - exists []. rewrite app_nil_r. split; [done|]. split; [apply sublist_nil_l|done].
  - by exists [HistoryWrite data].
Qed.

(** The events of the stages after the search. *)
Lemma staged_run_stages (dry_run : bool) (topics : list candidate) :
  staged dry_run (if dry_run then [1; 2] else [1; 2; 3; 4; 5])%nat
    (run_stages py e dry_run topics).
Proof.
  unfold run_stages. destruct topics as [|c topics]; [by apply staged_nil|].
  destruct dry_run.
  - apply (staged_bind true [1%nat] [2%nat]); [apply staged_pick_best_topic|].
    intros topic_data.
    apply (staged_bind true [2%nat] []); [apply staged_generate_post|].
    intros post_content. by apply staged_nil.
  - apply (staged_bind false [1%nat] [2; 3; 4; 5]%nat);
      [by eapply staged_weaken, staged_pick_best_topic|].
    intros topic_data.
    apply (staged_bind false [2%nat] [3; 4; 5]%nat);
      [by eapply staged_weaken, staged_generate_post|].
    intros post_content.
    apply (staged_bind false [3; 4]%nat [5%nat]);
      [by eapply staged_weaken, staged_post_to_linkedin|].
    intros result. destruct (success result); [|by apply staged_nil].
    apply (staged_bind false [] [5%nat]); [by apply staged_nil|].
    intros topic. apply staged_save_to_history.
Qed.

(** The events of a run: none, or the three feed requests and then those
    of the stages. *)
Lemma main_events (dry_run : bool) (w : world) :
  (main py e dry_run w).2 = w \/
  exists evs,
    trace (main py e dry_run w).2 = trace w ++ feed_requests ++ evs /\
    sublist (map event_rank evs) (if dry_run then [1; 2] else [1; 2; 3; 4; 5])%nat /\
    (dry_run = true -> POST_HISTORY_FILE (main py e dry_run w).2 = POST_HISTORY_FILE w).
Proof.
  destruct (opt_truthy (GROQ_API_KEY e)) eqn:Hk; [|left; by rewrite main_no_key].
  destruct (load_linkedin_tokens e) as [tokens|x] eqn:Ht;
    [|left; by rewrite (main_load_raises py e _ _ x)].
  pose proof (main_guard py e dry_run w tokens Hk Ht) as Hmain.
  destruct (no_tokens tokens) as [[|]|x]; [left; by rewrite Hmain| |left; by rewrite Hmain].
  right. rewrite Hmain.
  destruct (staged_try_any _ _ _ (staged_run_stages dry_run
              (search_trending_topics (str_lower e) (collect_results (feed_endpoint e))))
              (after_feed w)) as (evs & Htrace & Hranks & Hfile).
  cbn [after_feed trace POST_HISTORY_FILE] in Htrace, Hfile.
  exists evs. split; [by rewrite Htrace, <- app_assoc|]. split; [done|].
  intros Hd. by rewrite (Hfile Hd).
Qed.

(** X23. In a run the requests and the write come in the order of the
    pipeline and once each at most, after the three feed requests: the
    selection request, the generation request, the identity lookup, the
    publish request, the history write. *)
Theorem main_pipeline_order (dry_run : bool) (w : world) :
  exists evs,
    trace (main py e dry_run w).2 = trace w ++ evs /\
    sublist (map event_rank evs) [0; 0; 0; 1; 2; 3; 4; 5]%nat /\
    (forall ev, ev ∈ evs -> event_rank ev = 0%nat -> exists rest, evs = feed_requests ++ rest).
Proof.
  destruct (main_events dry_run w) as [->|(evs & Ht & Hs & _)].
  - exists []. rewrite app_nil_r. split; [done|]. split; [apply sublist_nil_l|].
    by intros ev ?%elem_of_nil.
  - exists (feed_requests ++ evs). split; [done|]. split; [|by eexists].
    rewrite map_app. change (map event_rank feed_requests) with [0; 0; 0]%nat.
    apply (sublist_app [0; 0; 0]%nat [0; 0; 0]%nat _ [1; 2; 3; 4; 5]%nat); [done|].
    destruct dry_run; [|done].
    etrans; [exact Hs|]. do 2 apply sublist_skip. apply sublist_nil_l.
Qed.


(** X25. A published post stays published when the history cannot be
    written: with a history file that stands for no sequence, a run whose
    publish stage succeeded still ends normally, right after the publish
    request, and the file is as before. *)
Theorem main_published_without_record (w w1 w2 w3 : world) (tokens : json)
    (c : candidate) (topics : list candidate) (topic_data : json) (post_content : str)
    (result : publish_result) :
  opt_truthy (GROQ_API_KEY e) = true ->
  load_linkedin_tokens e = Return tokens ->
  no_tokens tokens = Return false ->
  search_trending_topics (str_lower e) (collect_results (feed_endpoint e)) = c :: topics ->
  pick_best_topic py e (c :: topics) (after_feed w) = (Return topic_data, w1) ->
  generate_post e topic_data w1 = (Return post_content, w2) ->
  post_to_linkedin e post_content w2 = (Return result, w3) ->
  success result = true ->
  history_posts (POST_HISTORY_FILE w) = None ->
  main py e false w = (Return tt, w3) /\
  POST_HISTORY_FILE w3 = POST_HISTORY_FILE w /\
  exists evs access_token person_urn,
    trace w3 = trace w ++ evs ++ [UgcPost access_token person_urn post_content].
Proof.
  intros Hk Ht Hn Hs Hpick Hgen Hpost Hok Hhist.
  pose proof (only_pick_best_topic py e no_write (c :: topics) (fun _ => eq_refl)
                (after_feed w)) as H1.
  pose proof (only_generate_post e no_write topic_data (fun _ => eq_refl) w1) as H2.
  rewrite Hpick in H1. rewrite Hgen in H2. cbn [snd] in H1, H2.
  destruct H1 as [Hf1 (evs1 & Ht1 & _)]. destruct H2 as [Hf2 (evs2 & Ht2 & _)].
  destruct (post_to_linkedin_success_inv _ _ _ _ _ Hpost Hok)
    as (access_token & person_urn & response & evs3 & _ & _ & _ & Ht3 & _ & Hf3).
  assert (Hfile : POST_HISTORY_FILE w3 = POST_HISTORY_FILE w)
    by (rewrite Hf3, Hf2, Hf1; done).
  split; [|split; [done|]].
  - pose proof (main_guard py e false w tokens Hk Ht) as Hmain.
    rewrite Hn, Hs in Hmain. rewrite Hmain.
    unfold try_any, run_stages, mbind'. rewrite Hpick, Hgen, Hpost, Hok.
    unfold lift. destruct (getitem_str topic_data (lit "selected_topic")) as [topic|x]; [|done].
    rewrite <- Hfile in Hhist.
    destruct (save_to_history_raises e topic post_content
                (default (lit "unknown") (post_id result)) w3 Hhist) as [x Hx].
    by rewrite Hx.
  - exists (feed_requests ++ evs1 ++ evs2 ++ evs3), access_token, person_urn.
    rewrite Ht3, Ht2, Ht1. cbn [after_feed trace]. by rewrite <- !app_assoc.
Qed.

End Run.

Lemma main_without_credentials_witness :
  main sample_py
    (Env (Some (lit "gsk-key")) (Some (lit "token")) None Missing (fun _ => Raise RequestError)
       (fun _ => Raise RequestError) (fun _ => Raise RequestError)
       (fun _ _ _ => Raise RequestError) [] lower_ascii (fun _ => []))
    false (World Missing [])
  = (Return tt, World Missing []).
Proof.
  apply main_without_credentials. right. split; [reflexivity|]. left. reflexivity.
Defined.


Lemma main_published_without_record_witness :
  main sample_py
    (sample_env (dq "{'selected_topic': 'T', 'post_angle': 'A', 'post_type': 'hot_take'}")
       (lit "Post text") (Return created_response))
    false (World (Unreadable JSONDecodeError) [])
  = (Return tt,
     World (Unreadable JSONDecodeError)
       (feed_requests ++
        [ GroqPost (TopicPickerPrompt [sample_candidate]);
          GroqPost (PostGeneratorPrompt (JString (lit "T")) (JString (lit "A"))
                      (JString (lit "hot_take")));
          UgcPost (JString (lit "token")) (JString (lit "urn:li:person:1"))
            (lit "Post text") ])).
Proof.
  eapply (main_published_without_record sample_py
            (sample_env (dq "{'selected_topic': 'T', 'post_angle': 'A', 'post_type': 'hot_take'}")
               (lit "Post text") (Return created_response))
            (World (Unreadable JSONDecodeError) [])).
  - reflexivity.
  - reflexivity.
  - reflexivity.
  - vm_compute. reflexivity.
  - vm_compute. reflexivity.
  - vm_compute. reflexivity.
  - vm_compute. reflexivity.
  - reflexivity.
  - reflexivity.
Defined.
